(** * Signal generation of [DefaultStrategy]

    A shallow embedding of
    [freqtrade/user_data/strategies/DefaultStrategy.py]: the three methods
    [populate_indicators], [populate_entry_trend] and [populate_exit_trend]
    over a small model of the pandas objects they manipulate.

    - A float64 cell is an [option Q]: [None] is NaN, [Some q] a number.
      Rounding and the infinities are not modelled; only the order and the
      field operations of the numbers are used.
    - A [Series] on the default index [0..n-1] is a list of cells, a boolean
      mask is a list of [bool].
    - A [DataFrame] is its number of rows and a finite map from column names
      to series.
    - A Python exception is the [Err] case of [result].

    The two mock exporters, [mock-crypto-exporter.py] and
    [mock-ftmetric.py], are embedded in the module [Exporters]. *)

From Stdlib Require Import QArith Qminmax Lia Lqa.
From stdpp Require Import gmap strings list fin_maps pretty.

Open Scope Q_scope.
Open Scope nat_scope.
Open Scope stdpp_scope.

(** ** Exceptions *)

Inductive error : Type :=
  | KeyError (key : string)
  | ValueError
  | InvalidInput.

Inductive result (A : Type) : Type :=
  | Ok (a : A)
  | Err (e : error).
Arguments Ok {A} a.
Arguments Err {A} e.

#[export] Instance result_ret : MRet result := λ A a, Ok a.
#[export] Instance result_bind : MBind result := λ A B f r,
  match r with
  | Ok a => f a
  | Err e => Err e
  end.

(** ** Cells, series and masks *)

Abbreviation cell := (option Q).
Abbreviation NaN := (@None Q).
Abbreviation series := (list (option Q)).
Abbreviation mask := (list bool).

Definition Qlt_bool (x y : Q) : bool :=
  (Qnum x * QDen y <? Qnum y * QDen x)%Z.

(** The four float comparisons; each is [False] as soon as one side is NaN. *)
Definition cell_gt (a b : cell) : bool :=
  match a, b with
  | Some x, Some y => Qlt_bool y x
  | _, _ => false
  end.

Definition cell_lt (a b : cell) : bool :=
  match a, b with
  | Some x, Some y => Qlt_bool x y
  | _, _ => false
  end.

Definition cell_le (a b : cell) : bool :=
  match a, b with
  | Some x, Some y => Qle_bool x y
  | _, _ => false
  end.

Definition cell_ge (a b : cell) : bool :=
  match a, b with
  | Some x, Some y => Qle_bool y x
  | _, _ => false
  end.

(** Arithmetic propagates NaN. *)
Definition cell_lift2 (f : Q → Q → Q) (a b : cell) : cell :=
  match a, b with
  | Some x, Some y => Some (f x y)
  | _, _ => None
  end.

Definition cell_add : cell → cell → cell := cell_lift2 Qplus.
Definition cell_sub : cell → cell → cell := cell_lift2 Qminus.
Definition cell_mul : cell → cell → cell := cell_lift2 Qmult.
Definition cell_div : cell → cell → cell := cell_lift2 Qdiv.

(** [s1 > s2], [s1 < s2], ... on two series of one index. *)
Definition series_gt (s1 s2 : series) : mask := zip_with cell_gt s1 s2.
Definition series_lt (s1 s2 : series) : mask := zip_with cell_lt s1 s2.
Definition series_le (s1 s2 : series) : mask := zip_with cell_le s1 s2.
Definition series_ge (s1 s2 : series) : mask := zip_with cell_ge s1 s2.

(** [s > c] for a scalar [c]. *)
Definition series_gt_scalar (s : series) (c : Q) : mask :=
  (λ a, cell_gt a (Some c)) <$> s.

(** [m1 & m2] and [m1 | m2]. *)
Definition mask_and (m1 m2 : mask) : mask := zip_with andb m1 m2.
Definition mask_or (m1 m2 : mask) : mask := zip_with orb m1 m2.

(** [s.shift(1)]: every value moves one row down, row 0 becomes NaN and the
    last value is dropped. *)
Definition shift1 (s : series) : series := take (length s) (NaN :: s).

(** [pd.Series(index=s.index, data=c)]: the constant series on the index
    of [s]. *)
Definition const_like (s : series) (c : Q) : series :=
  replicate (length s) (Some c).

(** The value of row [i], NaN outside the index. *)
Definition at_row (s : series) (i : nat) : cell := mjoin (s !! i).

(** ** qtpylib's crossover detector *)

(** Modelled from the spec: [freqtrade.vendor.qtpylib.indicators] is not
    among the sources. Section 4.2: [crossed_above(A, B, i)] is true iff
    [A[i-1] <= B[i-1]] and [A[i] > B[i]] with all four values defined;
    row 0 has no predecessor and never crosses. Written on whole series,
    the predecessor being the series shifted by one row. *)
Definition crossed_above (series1 series2 : series) : mask :=
  mask_and (series_gt series1 series2)
           (series_le (shift1 series1) (shift1 series2)).

(** Modelled from the spec: the mirror of [crossed_above] (section 4.2):
    previously [A >= B], now [A < B]. *)
Definition crossed_below (series1 series2 : series) : mask :=
  mask_and (series_lt series1 series2)
           (series_ge (shift1 series1) (shift1 series2)).

(** Modelled from the spec: a crossover against a threshold treats the
    threshold as a constant second series (section 4.3). *)
Definition crossed_above_scalar (series1 : series) (c : Q) : mask :=
  crossed_above series1 (const_like series1 c).

(** The spec's wording of the detector, row by row. *)
Definition defined_le (a b : cell) : Prop :=
  ∃ x y, a = Some x ∧ b = Some y ∧ (x <= y)%Q.
Definition defined_lt (a b : cell) : Prop :=
  ∃ x y, a = Some x ∧ b = Some y ∧ (x < y)%Q.

Definition crosses_above (A B : nat → cell) (i : nat) : Prop :=
  ∃ j, i = S j ∧ defined_le (A j) (B j) ∧ defined_lt (B i) (A i).
Definition crosses_below (A B : nat → cell) (i : nat) : Prop :=
  ∃ j, i = S j ∧ defined_le (B j) (A j) ∧ defined_lt (A i) (B i).

(** ** Data frames

    A frame is its number of rows and its columns by name. The order of
    the columns, which pandas keeps (a created column comes last), is
    not part of the model: two frames with the same rows under the same
    names are equal. *)

Record DataFrame : Type := mkFrame {
  nrows : nat;
  columns : gmap string series
}.

(** Every column lives on the frame's index: the invariant of a pandas
    frame. *)
Definition wf (df : DataFrame) : Prop :=
  ∀ c s, columns df !! c = Some s → length s = nrows df.

(** [df[c]] *)
Definition getitem (df : DataFrame) (c : string) : result series :=
  match columns df !! c with
  | Some s => Ok s
  | None => Err (KeyError c)
  end.

(** Alignment of a series on the index [0..n-1]: labels the series lacks
    become NaN, labels the index lacks are dropped. *)
Definition reindex (n : nat) (s : series) : series :=
  take n (s ++ replicate (n - length s) NaN).

(** [df[c] = s] *)
Definition setitem (df : DataFrame) (c : string) (s : series) : DataFrame :=
  mkFrame (nrows df) (<[c := reindex (nrows df) s]> (columns df)).

(** The rows of [s] selected by [m] receive [v], the others keep their
    value. The masks of the strategy are computed from columns of the
    frame they select in, so they have one entry per row. *)
Definition mask_assign (m : mask) (v : Q) (s : series) : series :=
  imap (λ i x, if default false (m !! i) then Some v else x) s.

(** [df.loc[m, c] = v] for a scalar [v]. An absent column is created, NaN
    outside the selected rows; pandas refuses to create it in a frame
    without rows (ValueError: cannot set a frame with no defined index and
    a scalar). *)
Definition loc_setitem (df : DataFrame) (m : mask) (c : string) (v : Q)
  : result DataFrame :=
  match columns df !! c with
  | Some s => Ok (mkFrame (nrows df) (<[c := mask_assign m v s]> (columns df)))
  | None =>
      if decide (nrows df = 0) then Err ValueError
      else Ok (mkFrame (nrows df)
                 (<[c := mask_assign m v (replicate (nrows df) NaN)]>
                    (columns df)))
  end.

(** ** In-place mutation of the frame

    The strategy's methods mutate the frame they are given and return it.
    A computation of type [Frame A] starts in a frame, ends in the frame as
    mutated so far, and either yields a value or has raised. *)

Definition Frame (A : Type) : Type := DataFrame → DataFrame * result A.

#[export] Instance frame_ret : MRet Frame := λ A a df, (df, Ok a).
#[export] Instance frame_bind : MBind Frame := λ A B k m df,
  match m df with
  | (df', Ok a) => k a df'
  | (df', Err e) => (df', Err e)
  end.

(** A library call that does not touch the frame. *)
Definition lift {A} (r : result A) : Frame A := λ df, (df, r).

Definition col (c : string) : Frame series := λ df, (df, getitem df c).

Definition set_col (c : string) (s : series) : Frame unit :=
  λ df, (setitem df c s, Ok ()).

Definition loc_set (m : mask) (c : string) (v : Q) : Frame unit :=
  λ df, match loc_setitem df m c v with
        | Ok df' => (df', Ok ())
        | Err e => (df, Err e)
        end.

(** ** The indicator libraries (TA-Lib and qtpylib) *)

Record MACDResult : Type := mkMACD {
  macd : series;
  macdsignal : series;
  macdhist : series
}.

Record Bands : Type := mkBands {
  upper : series;
  mid : series;
  lower : series
}.

(** The library functions the strategy calls. They see the series they
    are applied to and their periods, nothing else. *)
Record IndicatorBank : Type := mkBank {
  RSI : series → nat → result series;
  EMA : series → nat → result series;
  MACD : series → nat → nat → nat → result MACDResult;
  bollinger_bands : series → nat → Q → result Bands
}.

(** Modelled from the spec: qtpylib's [typical_price] is not among the
    sources. Section 4.1: typical price = (high + low + close) / 3. *)
Definition typical (high low close : series) : series :=
  (λ a, cell_div a (Some 3%Q))
    <$> zip_with cell_add (zip_with cell_add high low) close.

(** Modelled from the spec: [qtpylib.typical_price(dataframe)] reads the
    three price columns of the frame. *)
Definition typical_price : Frame series :=
  high ← col "high";
  low ← col "low";
  close ← col "close";
  mret (typical high low close).

Module DefaultStrategy.

Definition INTERFACE_VERSION : nat := 3.
Definition startup_candle_count : nat := 30.

(** Modelled from the spec: the default periods of TA-Lib's RSI and MACD
    (section 4.1: RSI(period=14), MACD(fast=12, slow=26, signal=9)). *)
Definition RSI_timeperiod : nat := 14.
Definition MACD_fastperiod : nat := 12.
Definition MACD_slowperiod : nat := 26.
Definition MACD_signalperiod : nat := 9.

Section WithBank.
Variable ta : IndicatorBank.

(** [ta.RSI(dataframe)], [ta.MACD(dataframe)] and
    [ta.EMA(dataframe, timeperiod=n)] read the close prices. *)
Definition ta_RSI : Frame series :=
  close ← col "close"; lift (RSI ta close RSI_timeperiod).
Definition ta_MACD : Frame MACDResult :=
  close ← col "close";
  lift (MACD ta close MACD_fastperiod MACD_slowperiod MACD_signalperiod).
Definition ta_EMA (timeperiod : nat) : Frame series :=
  close ← col "close"; lift (EMA ta close timeperiod).

Definition populate_indicators (metadata : gmap string string)
  : Frame unit :=
  (* RSI *)
  rsi ← ta_RSI;
  set_col "rsi" rsi;;
  (* MACD *)
  m ← ta_MACD;
  set_col "macd" (macd m);;
  set_col "macdsignal" (macdsignal m);;
  set_col "macdhist" (macdhist m);;
  (* Bollinger Bands *)
  tp ← typical_price;
  bollinger ← lift (bollinger_bands ta tp 20 2%Q);
  set_col "bb_lowerband" (lower bollinger);;
  set_col "bb_middleband" (mid bollinger);;
  set_col "bb_upperband" (upper bollinger);;
  (* EMA *)
  ema10 ← ta_EMA 10;
  set_col "ema10" ema10;;
  ema50 ← ta_EMA 50;
  set_col "ema50" ema50.
End WithBank.

Definition entry_condition (rsi macd macdsignal close ema10 volume : series)
  : mask :=
  mask_and
    (mask_and
       (mask_and (crossed_above_scalar rsi 30%Q)
                 (series_gt macd macdsignal))
       (series_gt close ema10))
    (series_gt_scalar volume 0%Q).

Definition populate_entry_trend (metadata : gmap string string)
  : Frame unit :=
  rsi ← col "rsi";
  macd ← col "macd";
  macdsignal ← col "macdsignal";
  close ← col "close";
  ema10 ← col "ema10";
  volume ← col "volume";
  loc_set (entry_condition rsi macd macdsignal close ema10 volume)
          "enter_long" 1%Q.

Definition exit_condition (rsi close bb_upperband macd macdsignal : series)
  : mask :=
  mask_or
    (mask_or (crossed_above_scalar rsi 70%Q)
             (series_gt close bb_upperband))
    (crossed_below macd macdsignal).

Definition populate_exit_trend (metadata : gmap string string)
  : Frame unit :=
  rsi ← col "rsi";
  close ← col "close";
  bb_upperband ← col "bb_upperband";
  macd ← col "macd";
  macdsignal ← col "macdsignal";
  loc_set (exit_condition rsi close bb_upperband macd macdsignal)
          "exit_long" 1%Q.

End DefaultStrategy.

(** ** The Indicator Bank of the spec

    TA-Lib and qtpylib are not among the sources; the definitions of this
    module follow section 4.1 of the spec. The theorems on the strategy
    take the library as a parameter, an [IndicatorBank]; this bank is one
    library to run them with, and the subject of the claims on the
    indicators themselves. *)

Module IndicatorBankSpec.

Definition Qof_nat (n : nat) : Q := inject_Z (Z.of_nat n).

(** Modelled from the spec: the sum of a window, NaN as soon as one
    sample is NaN. *)
Definition total (xs : series) : cell := foldr cell_add (Some 0%Q) xs.

(** Modelled from the spec: the simple average (SMA) of a window. *)
Definition mean (xs : series) : cell :=
  cell_div (total xs) (Some (Qof_nat (length xs))).

(** Modelled from the spec: the number of undefined samples at the head
    of a series, the warm-up of the indicator that produced it. *)
Fixpoint leading_nan (s : series) : nat :=
  match s with
  | None :: s' => S (leading_nan s')
  | _ => 0
  end.

(** Modelled from the spec: the exponential recurrence
    [y = alpha * x + (1 - alpha) * previous]. *)
Fixpoint smooth (alpha : Q) (prev : cell) (xs : series) : series :=
  match xs with
  | [] => []
  | x :: xs' =>
      let y := cell_add (cell_mul (Some alpha) x)
                        (cell_mul (Some (1 - alpha)%Q) prev) in
      y :: smooth alpha y xs'
  end.

(** Modelled from the spec: EMA(period), seed = simple average of the
    first [period] samples, placed at the last of them; smoothing factor
    2/(period+1); undefined before the seed. Samples that are undefined
    at the head of the input (the warm-up of an indicator fed into
    another) are not counted as samples. *)
Definition ema (period : nat) (s : series) : series :=
  let lead := leading_nan s in
  let body := drop lead s in
  if decide (length body < period) then replicate (length s) NaN
  else
    let seed := mean (take period body) in
    replicate (lead + period - 1) NaN
      ++ seed :: smooth (2 / Qof_nat (period + 1))%Q seed (drop period body).

(** Modelled from the spec: "no exception is raised for short input,
    only for negative/zero periods or empty series". *)
Definition check_input (s : series) (periods : list nat) : result unit :=
  if decide (s = [] ∨ 0 ∈ periods) then Err InvalidInput else Ok ().

(** Modelled from the spec: the EMA as the strategy calls it, an error
    for an empty series or a zero period. *)
Definition spec_EMA (s : series) (period : nat) : result series :=
  check_input s [period];; mret (ema period s).

(** Modelled from the spec: [macd = EMA(fast) - EMA(slow)],
    [macd_signal = EMA(macd, signal)], [macd_hist = macd - macd_signal]. *)
Definition macd_of (fast slow signal : nat) (s : series) : MACDResult :=
  let line := zip_with cell_sub (ema fast s) (ema slow s) in
  let sig := ema signal line in
  mkMACD line sig (zip_with cell_sub line sig).

(** Modelled from the spec: the MACD as the strategy calls it. *)
Definition spec_MACD (s : series) (fast slow signal : nat)
  : result MACDResult :=
  check_input s [fast; slow; signal];;
  mret (macd_of fast slow signal s).

(** Modelled from the spec: the differences of consecutive closes,
    [s[k+1] - s[k]]. *)
Definition diffs (s : series) : series := zip_with cell_sub (tail s) s.

(** Modelled from the spec: the gain and the loss of a difference. *)
Definition gain (d : cell) : cell := (λ x, Qmax x 0) <$> d.
Definition loss (d : cell) : cell := (λ x, Qmax (- x) 0) <$> d.

(** Modelled from the spec: RSI from the average gain [g] and the
    average loss [l], [100 - 100 / (1 + g / l)]; without losses the
    quotient has no value and the index is 100 (section 8). *)
Definition rsi_value (g l : cell) : cell :=
  match g, l with
  | Some g, Some l =>
      if Qeq_bool l 0 then Some 100%Q
      else Some (100 - 100 / (1 + g / l))%Q
  | _, _ => None
  end.

(** Modelled from the spec: Wilder's smoothing of an average over
    [period] samples. *)
Definition wilder_step (period : nat) (avg x : cell) : cell :=
  cell_div (cell_add (cell_mul avg (Some (Qof_nat (period - 1)))) x)
           (Some (Qof_nat period)).

(** Modelled from the spec: the RSI values after the seed, the averages
    smoothed difference by difference. *)
Fixpoint wilder (period : nat) (g l : cell) (ds : series) : series :=
  match ds with
  | [] => []
  | d :: ds' =>
      let g' := wilder_step period g (gain d) in
      let l' := wilder_step period l (loss d) in
      rsi_value g' l' :: wilder period g' l' ds'
  end.

(** Modelled from the spec: RSI(period), the averages seeded by the
    simple average of the first [period] differences; undefined for the
    first [period] indices. *)
Definition rsi (period : nat) (s : series) : series :=
  let ds := diffs s in
  if decide (length ds < period) then replicate (length s) NaN
  else
    let g := mean (gain <$> take period ds) in
    let l := mean (loss <$> take period ds) in
    replicate period NaN
      ++ rsi_value g l :: wilder period g l (drop period ds).

(** Modelled from the spec: the RSI as the strategy calls it. *)
Definition spec_RSI (s : series) (period : nat) : result series :=
  check_input s [period];; mret (rsi period s).

(** Modelled from the spec: a statistic over the window of [w] samples
    that ends at, and includes, each row; undefined while fewer than [w]
    samples are there. *)
Definition rolling (w : nat) (f : series → cell) (s : series) : series :=
  imap (λ i _, if decide (w ≤ S i) then f (take w (drop (S i - w) s))
               else NaN) s.

Section Bollinger.
(** The square root in the standard deviation has no rational value in
    general; the bands are given for any square-root routine. *)
Variable sqrtQ : Q → Q.

(** Modelled from the spec: the population variance of a window and its
    square root, the population standard deviation. *)
Definition variance (xs : series) : cell :=
  let m := mean xs in
  mean ((λ x, let d := cell_sub x m in cell_mul d d) <$> xs).

Definition stddev (xs : series) : cell := sqrtQ <$> variance xs.

(** Modelled from the spec: [mid = SMA(typical, window)], [stddev] the
    population standard deviation over the same window,
    [upper = mid + stds * stddev], [lower = mid - stds * stddev]. *)
Definition bands_of (window : nat) (stds : Q) (s : series) : Bands :=
  let ma := rolling window mean s in
  let dev := (cell_mul (Some stds)) <$> rolling window stddev s in
  mkBands (zip_with cell_add ma dev) ma (zip_with cell_sub ma dev).

(** Modelled from the spec: the bands as the strategy calls them. *)
Definition spec_bollinger_bands (s : series) (window : nat) (stds : Q)
  : result Bands :=
  check_input s [window];;
  mret (bands_of window stds s).

(** Modelled from the spec: the four library functions together. *)
Definition bank : IndicatorBank :=
  mkBank spec_RSI spec_EMA spec_MACD spec_bollinger_bands.
End Bollinger.

(** A square root to nine decimals, for running the bank. *)
Definition sqrt9 (q : Q) : Q :=
  let r := Qred q in
  Qred (Z.sqrt (Qnum r * QDen r * 10 ^ 18) # (Qden r * 10 ^ 9))%Q.

End IndicatorBankSpec.

(** ** Candle series and the pipeline *)

Record Candle : Type := mkCandle {
  timestamp : Q;
  open : Q;
  high : Q;
  low : Q;
  close : Q;
  volume : Q
}.

Definition column_of (f : Candle → Q) (cs : list Candle) : series :=
  (λ c, Some (f c)) <$> cs.

Definition frame_of_candles (cs : list Candle) : DataFrame :=
  mkFrame (length cs)
    (list_to_map
       [("timestamp", column_of timestamp cs); ("open", column_of open cs);
        ("high", column_of high cs); ("low", column_of low cs);
        ("close", column_of close cs); ("volume", column_of volume cs)]).

(** The data model of the spec (section 3): timestamps strictly increase,
    volumes are not negative. *)
Fixpoint increasing (ts : list Q) : bool :=
  match ts with
  | t1 :: ((t2 :: _) as rest) => Qlt_bool t1 t2 && increasing rest
  | _ => true
  end.

Definition valid_candles (cs : list Candle) : bool :=
  increasing (timestamp <$> cs)
  && forallb (λ c, Qle_bool 0 (volume c)) cs.

(** Modelled from the spec: a full-series evaluation runs the Indicator
    Bank and then the two rules on one frame (section 2). *)
Definition analyze (ta : IndicatorBank) (metadata : gmap string string)
  : Frame unit :=
  DefaultStrategy.populate_indicators ta metadata;;
  DefaultStrategy.populate_entry_trend metadata;;
  DefaultStrategy.populate_exit_trend metadata.

(** [dataframe[c] == 1] at row [i]. *)
Definition signal (df : DataFrame) (c : string) (i : nat) : bool :=
  match columns df !! c with
  | Some s =>
      match at_row s i with
      | Some v => Qeq_bool v 1
      | None => false
      end
  | None => false
  end.

Definition mask_at (m : mask) (i : nat) : bool := default false (m !! i).

Import DefaultStrategy IndicatorBankSpec.

(** ** Auxiliary notions for the statements *)

(** The content of column [c] at row [i]; NaN where nothing is stored. *)
Definition cell_of (df : DataFrame) (c : string) (i : nat) : cell :=
  match columns df !! c with
  | Some s => at_row s i
  | None => NaN
  end.

(** A cell that is NaN or not negative; NaN or between 0 and 100. *)
Definition nonneg (c : cell) : Prop := ∀ x, c = Some x → (0 <= x)%Q.
Definition percent (c : cell) : Prop := ∀ x, c = Some x → (0 <= x <= 100)%Q.

(** The frame after the assignments of [populate_indicators], in their
    order. *)
Definition with_rsi (df : DataFrame) (rsi : series) : DataFrame :=
  setitem df "rsi" rsi.

Definition with_macd (df : DataFrame) (m : MACDResult) : DataFrame :=
  setitem
    (setitem (setitem df "macd" (macd m)) "macdsignal" (macdsignal m))
    "macdhist" (macdhist m).

Definition with_bands (df : DataFrame) (b : Bands) : DataFrame :=
  setitem
    (setitem (setitem df "bb_lowerband" (lower b)) "bb_middleband" (mid b))
    "bb_upperband" (upper b).

Definition with_indicators (df : DataFrame) (rsi : series) (m : MACDResult)
    (b : Bands) (ema10 ema50 : series) : DataFrame :=
  setitem
    (setitem (with_bands (with_macd (with_rsi df rsi) m) b) "ema10" ema10)
    "ema50" ema50.

(** The frame of a candle series after the Indicator Bank of the spec. *)
Definition spec_frame (sqrtQ : Q → Q) (cs : list Candle) : DataFrame :=
  let closes := column_of close cs in
  with_indicators (frame_of_candles cs)
    (rsi RSI_timeperiod closes)
    (macd_of MACD_fastperiod MACD_slowperiod MACD_signalperiod closes)
    (bands_of sqrtQ 20 2%Q
       (typical (column_of high cs) (column_of low cs) closes))
    (ema 10 closes) (ema 50 closes).

(** [wf], decided on the list of the columns. *)
Definition wf_check (df : DataFrame) : bool :=
  forallb (λ kv, length kv.2 =? nrows df) (map_to_list (columns df)).

(** ** Sample inputs *)

Module Samples.

(** Two rows with every indicator defined: the RSI goes from 25 to 35
    and the close is above the upper band in row 1. *)
Definition demo_frame : DataFrame :=
  mkFrame 2
    (list_to_map
       [("close", [Some 10%Q; Some 12%Q]);
        ("volume", [Some 5%Q; Some 5%Q]);
        ("rsi", [Some 25%Q; Some 35%Q]);
        ("macd", [Some 1%Q; Some 1%Q]);
        ("macdsignal", [Some 0%Q; Some 0%Q]);
        ("bb_upperband", [Some 11%Q; Some 11%Q]);
        ("ema10", [Some 9%Q; Some 9%Q]);
        ("ema50", [NaN; NaN])]).

(** Two rows inside the warm-up of the MACD: RSI, bands and fast EMA
    are there, the MACD columns are NaN. *)
Definition warmup_frame : DataFrame :=
  mkFrame 2
    (list_to_map
       [("close", [Some 10%Q; Some 12%Q]);
        ("volume", [Some 5%Q; Some 5%Q]);
        ("rsi", [Some 50%Q; Some 50%Q]);
        ("macd", [NaN; NaN]);
        ("macdsignal", [NaN; NaN]);
        ("bb_upperband", [Some 11%Q; Some 11%Q]);
        ("ema10", [Some 9%Q; Some 9%Q]);
        ("ema50", [NaN; NaN])]).

(** A candle at time [i] with close [p], high and low one above and
    below it, and volume [v]. *)
Definition candle (v : Q) (i : nat) (p : Z) : Candle :=
  mkCandle (inject_Z (Z.of_nat i)) (inject_Z p) (inject_Z p + 1)
           (inject_Z p - 1) (inject_Z p) v.

(** Fifteen candles, the close rising by one from 100. *)
Definition rising15 : list Candle :=
  imap (candle 5) ((λ i, 100 + Z.of_nat i)%Z <$> seq 0 15).

(** Two candles with decreasing timestamps and negative volumes. *)
Definition disordered : list Candle :=
  [mkCandle 2 10 11 9 10 (-3); mkCandle 1 10 11 9 10 (-4)].

(** Twenty flat candles and a jump: the close leaves the upper band at
    row 20, where the MACD is not defined yet. *)
Definition breakout21 : list Candle :=
  imap (candle 5) (replicate 20 100%Z ++ [110%Z]).

(** The close falls by one per candle for forty candles and then
    rebounds by eight: the RSI crosses 30 upwards at row 40. *)
Definition rebound42 : list Candle :=
  imap (candle 5)
    (((λ i, 200 - Z.of_nat i)%Z <$> seq 0 40) ++ [169%Z; 170%Z]).

End Samples.

(** ** Columns read and written by the strategy *)

(** The columns [populate_indicators] assigns, in the order of the
    assignments. *)
Definition indicator_columns : list string :=
  ["rsi"; "macd"; "macdsignal"; "macdhist"; "bb_lowerband";
   "bb_middleband"; "bb_upperband"; "ema10"; "ema50"].

(** The columns the library calls of [populate_indicators] read. *)
Definition price_columns : list string := ["close"; "high"; "low"].

(** The columns the entry rule and the exit rule subscript, in the order
    in which Python evaluates the subscripts. *)
Definition entry_columns : list string :=
  ["rsi"; "macd"; "macdsignal"; "close"; "ema10"; "volume"].
Definition exit_columns : list string :=
  ["rsi"; "close"; "bb_upperband"; "macd"; "macdsignal"].

(** The first column of [cs] the frame lacks. *)
Fixpoint first_missing (cs : list string) (df : DataFrame) : option string :=
  match cs with
  | [] => None
  | c :: cs' =>
      match columns df !! c with
      | Some _ => first_missing cs' df
      | None => Some c
      end
  end.

(** ** More sample inputs *)

Module MoreSamples.

(** [demo_frame] with an entry signal already set in row 0. *)
Definition signalled_frame : DataFrame :=
  mkFrame 2
    (<["enter_long" := [Some 1%Q; NaN]]>
       (<["exit_long" := [Some 1%Q; NaN]]> (columns Samples.demo_frame))).

(** A one-row frame with a close price and no high or low. *)
Definition close_only_frame : DataFrame :=
  mkFrame 1 {["close" := [Some 10%Q]]}.

(** The frame of [rising15] with every volume replaced by zero. *)
Definition zero_volume_frame : DataFrame :=
  setitem (frame_of_candles Samples.rising15) "volume"
          (replicate 15 (Some 0%Q)).

(** An indicator library that answers every series, the empty one
    included: the indicators of [IndicatorBankSpec] without their check
    of the input. *)
Definition answering_bank : IndicatorBank :=
  mkBank (λ s period, Ok (rsi period s))
         (λ s period, Ok (ema period s))
         (λ s fast slow signal, Ok (macd_of fast slow signal s))
         (λ s window stds, Ok (bands_of sqrt9 window stds s)).

End MoreSamples.

(** * The mock exporters

    [mock-crypto-exporter.py] and [mock-ftmetric.py] answer HTTP requests
    with Prometheus text made of random numbers. The model keeps the
    arithmetic exact (floats are rationals, as in the cells of a frame)
    and makes the sources of the numbers explicit:
    - the random generator is an oracle, a sequence of integers of which
      each call takes the next one;
    - [time.time()] is an argument;
    - [math.sin] and the conversion of a float to decimal text are taken
      as they come, as functions on the rationals. *)

Module Exporters.

(** ** Exceptions and the generator *)

Inductive exception : Type :=
  | PyKeyError (key : string)
  | PyValueError
  | PyIndexError
  | PyZeroDivisionError.

Inductive outcome (A : Type) : Type :=
  | Returns (a : A)
  | Raises (e : exception).
Arguments Returns {A} a.
Arguments Raises {A} e.

(** A computation that draws from the oracle: from the position of the
    next draw to a value and the new position, or to an exception. *)
Definition Gen (A : Type) : Type := nat → outcome (A * nat).

#[export] Instance gen_ret : MRet Gen := λ A a k, Returns (a, k).
#[export] Instance gen_bind : MBind Gen := λ A B f m k,
  match m k with
  | Returns (a, k') => f a k'
  | Raises e => Raises e
  end.

Definition raise {A} (e : exception) : Gen A := λ _, Raises e.

Section Oracle.
Variable tape : nat → Z.

(** [random.random()]: a multiple of 2^-53 in [0, 1). *)
Definition random_random : Gen Q :=
  λ k, Returns ((inject_Z (tape k mod 2 ^ 53) / inject_Z (2 ^ 53))%Q, S k).

(** [random.uniform(a, b)] is [a + (b - a) * random()]. Over the
    rationals the value is below [b]; the rounding of float64, by which
    [b] itself can be returned, is not modelled. *)
Definition random_uniform (a b : Q) : Gen Q :=
  r ← random_random; mret (a + (b - a) * r)%Q.

(** [random.randint(a, b)] is [a] plus a number below [b - a + 1]; an
    empty range is a ValueError. *)
Definition random_randint (a b : Z) : Gen Z :=
  λ k, if decide (b < a)%Z then Raises PyValueError
       else Returns ((a + tape k mod (b - a + 1))%Z, S k).

(** [random.choice(seq)] is the element at a position below [len(seq)];
    an empty sequence is an IndexError. *)
Definition random_choice {A} (seq : list A) : Gen A :=
  λ k, match seq !! Z.to_nat (tape k mod Z.of_nat (length seq)) with
       | Some x => Returns (x, S k)
       | None => Raises PyIndexError
       end.
End Oracle.

(** ** Dictionaries, lists and strings *)

(** A [dict] with string keys, in insertion order. *)
Abbreviation dict := (list (string * Q)).

(** [d[key]] *)
Fixpoint getitem (d : dict) (key : string) : outcome Q :=
  match d with
  | [] => Raises (PyKeyError key)
  | (k, v) :: d' => if decide (k = key) then Returns v else getitem d' key
  end.

(** [list(d.keys())] *)
Definition keys (d : dict) : list string := fst <$> d.

(** [l.index(x)]: the first position of [x], a ValueError without one. *)
Fixpoint index (l : list string) (x : string) : outcome nat :=
  match l with
  | [] => Raises PyValueError
  | y :: l' =>
      if decide (y = x) then Returns 0
      else match index l' x with
           | Returns i => Returns (S i)
           | Raises e => Raises e
           end
  end.

Definition lift {A} (o : outcome A) : Gen A :=
  λ k, match o with
       | Returns a => Returns (a, k)
       | Raises e => Raises e
       end.

(** [x / y] on floats: a ZeroDivisionError when [y] is zero. *)
Definition divide (x y : Q) : outcome Q :=
  if Qeq_bool y 0 then Raises PyZeroDivisionError else Returns (x / y)%Q.

(** [int(x)]: truncation towards zero. *)
Definition int (x : Q) : Z := (Qnum x ÷ QDen x)%Z.

(** [s.lower()] on ASCII text. *)
Definition lower_ascii (c : Ascii.ascii) : Ascii.ascii :=
  let n := Ascii.nat_of_ascii c in
  if decide (65 ≤ n ≤ 90) then Ascii.ascii_of_nat (n + 32) else c.

Fixpoint lower (s : string) : string :=
  match s with
  | EmptyString => EmptyString
  | String c s' => String (lower_ascii c) (lower s')
  end.

Definition dquote : string := String (Ascii.ascii_of_nat 34) EmptyString.
Definition newline : string := String (Ascii.ascii_of_nat 10) EmptyString.

(** ['\n'.join(lines)] *)
Definition join_lines (lines : list string) : string :=
  String.concat newline lines.

(** [key="value"] and [name{labels} value], the pieces of a sample
    line. *)
Definition label (key value : string) : string :=
  key +:+ "=" +:+ dquote +:+ value +:+ dquote.

Definition sample (name : string) (labels : list string) (value : string)
  : string :=
  name +:+ "{" +:+ String.concat "," labels +:+ "} " +:+ value.

(** A loop that appends lines for each item. *)
Fixpoint for_each {A} (items : list A) (body : A → Gen (list string))
  : Gen (list string) :=
  match items with
  | [] => mret []
  | x :: items' =>
      lines ← body x;
      rest ← for_each items' body;
      mret (lines ++ rest)
  end.

(** ** [mock-crypto-exporter.py] *)

Module MockCryptoExporter.

(** The class attributes an instance reads through [self]. *)
Record Self : Type := mkSelf {
  base_prices : dict;
  supply : dict
}.

Definition class_attributes : Self :=
  mkSelf
    [("BTC", 30000%Q); ("ETH", 1900%Q); ("ADA", 0.35%Q); ("DOT", 5.5%Q);
     ("LINK", 7.2%Q); ("SOL", 25.0%Q); ("MATIC", 0.85%Q); ("AVAX", 15.5%Q)]
    [("BTC", 21000000%Q); ("ETH", 120000000%Q); ("ADA", 35000000000%Q);
     ("DOT", 1200000000%Q); ("LINK", 1000000000%Q); ("SOL", 400000000%Q);
     ("MATIC", 10000000000%Q); ("AVAX", 300000000%Q)].

(** The numbers of one round of the first loop of [generate_metrics]. *)
Record Quote : Type := mkQuote {
  current_price : Q;
  change_24h : Q;
  change_1h : Q;
  change_7d : Q;
  market_cap : Q;
  volume_24h : Q;
  rank : nat;
  price_btc : Q
}.

Section Generate.
Variable tape : nat → Z.
Variable sin : Q → Q.
(** [format(x, '.Nf')] *)
Variable format_f : nat → Q → string.
Variable self : Self.
(** [time.time()] at the start of [generate_metrics]. *)
Variable current_time : Q.

(** The trend, recomputed in every loop from the same time. *)
Definition trend : Q := (sin (current_time / 3600) * 0.05)%Q.

(** The computations of one round of the first loop, in the order of the
    source, over the rationals: no result is rounded. *)
Definition quote (symbol : string) (base_price : Q) : Gen Quote :=
  r ← random_random tape;
  let volatility := ((r - 0.5) * 0.02)%Q in
  let price_multiplier := (1 + trend + volatility)%Q in
  let current_price := (base_price * price_multiplier)%Q in
  r ← random_random tape;
  let change_24h := ((r - 0.5) * 10)%Q in
  r ← random_random tape;
  let change_1h := ((r - 0.5) * 2)%Q in
  r ← random_random tape;
  let change_7d := (trend * 100 + (r - 0.5) * 5)%Q in
  s ← lift (getitem (supply self) symbol);
  let market_cap := (current_price * s)%Q in
  r ← random_random tape;
  let volume_24h := (market_cap * (0.05 + r * 0.15))%Q in
  i ← lift (index (keys (base_prices self)) symbol);
  let rank := i + 1 in
  btc ← lift (getitem (base_prices self) "BTC");
  let btc_price := (btc * (1 + trend + volatility))%Q in
  price_btc ← (if decide (symbol ≠ "BTC")
               then lift (divide current_price btc_price)
               else mret 1%Q);
  mret (mkQuote current_price change_24h change_1h change_7d market_cap
                volume_24h rank price_btc).

Definition coin_market (symbol metric value : string) : string :=
  sample "coin_market"
    [label "id" "0"; label "name" (lower symbol); label "symbol" symbol;
     label "metric" metric]
    value.

(** The twelve lines of one round of the first loop. *)
Definition quote_lines (symbol : string) (s : Q) (q : Quote) : list string :=
  [coin_market symbol "price_usd" (format_f 6 (current_price q));
   coin_market symbol "price_btc" (format_f 8 (price_btc q));
   coin_market symbol "24h_volume_usd" (format_f 2 (volume_24h q));
   coin_market symbol "market_cap_usd" (format_f 2 (market_cap q));
   coin_market symbol "available_supply" (format_f 0 s);
   coin_market symbol "total_supply" (format_f 0 s);
   coin_market symbol "max_supply" (format_f 0 s);
   coin_market symbol "percent_change_1h" (format_f 2 (change_1h q));
   coin_market symbol "percent_change_24h" (format_f 2 (change_24h q));
   coin_market symbol "percent_change_7d" (format_f 2 (change_7d q));
   coin_market symbol "rank" (pretty (rank q));
   coin_market symbol "last_updated" (pretty (int current_time))].

Definition coin_market_round (item : string * Q) : Gen (list string) :=
  let '(symbol, base_price) := item in
  q ← quote symbol base_price;
  s ← lift (getitem (supply self) symbol);
  mret (quote_lines symbol s q).

(** The later loops draw their own numbers. *)
Definition price_usd (base_price : Q) : Gen Q :=
  r ← random_random tape;
  let volatility := ((r - 0.5) * 0.02)%Q in
  mret (base_price * (1 + trend + volatility))%Q.

Definition percent_change_24h : Gen Q :=
  r ← random_random tape; mret ((r - 0.5) * 10)%Q.

Definition market_cap_usd (symbol : string) (base_price : Q) : Gen Q :=
  current_price ← price_usd base_price;
  s ← lift (getitem (supply self) symbol);
  mret (current_price * s)%Q.

Definition volume_24h_usd (symbol : string) (base_price : Q) : Gen Q :=
  market_cap ← market_cap_usd symbol base_price;
  r ← random_random tape;
  mret (market_cap * (0.05 + r * 0.15))%Q.

Definition compat (name symbol value : string) : string :=
  sample name [label "symbol" symbol] value.

Definition generate_metrics : Gen string :=
  let output :=
    ["# HELP coin_market coinmarketcap metric values";
     "# TYPE coin_market gauge"] in
  lines ← for_each (base_prices self) coin_market_round;
  let output := output ++ lines in
  let output := output ++ [EmptyString] in
  let output := output ++
    ["# HELP coinmarketcap_price_usd Current price in USD";
     "# TYPE coinmarketcap_price_usd gauge"] in
  lines ← for_each (base_prices self) (λ '(symbol, base_price),
    current_price ← price_usd base_price;
    mret [compat "coinmarketcap_price_usd" symbol
            (format_f 6 current_price)]);
  let output := output ++ lines in
  let output := output ++ [EmptyString] in
  let output := output ++
    ["# HELP coinmarketcap_percent_change_24h 24 hour price change percentage";
     "# TYPE coinmarketcap_percent_change_24h gauge"] in
  lines ← for_each (keys (base_prices self)) (λ symbol,
    change_24h ← percent_change_24h;
    mret [compat "coinmarketcap_percent_change_24h" symbol
            (format_f 2 change_24h)]);
  let output := output ++ lines in
  let output := output ++ [EmptyString] in
  let output := output ++
    ["# HELP coinmarketcap_market_cap_usd Market capitalization in USD";
     "# TYPE coinmarketcap_market_cap_usd gauge"] in
  lines ← for_each (base_prices self) (λ '(symbol, base_price),
    market_cap ← market_cap_usd symbol base_price;
    mret [compat "coinmarketcap_market_cap_usd" symbol
            (format_f 2 market_cap)]);
  let output := output ++ lines in
  let output := output ++ [EmptyString] in
  let output := output ++
    ["# HELP coinmarketcap_24h_volume_usd 24 hour trading volume in USD";
     "# TYPE coinmarketcap_24h_volume_usd gauge"] in
  lines ← for_each (base_prices self) (λ '(symbol, base_price),
    volume_24h ← volume_24h_usd symbol base_price;
    mret [compat "coinmarketcap_24h_volume_usd" symbol
            (format_f 2 volume_24h)]);
  let output := output ++ lines in
  let output := output ++ [EmptyString] in
  mret (join_lines output).
End Generate.

End MockCryptoExporter.

(** ** [mock-ftmetric.py] *)

Module MockMetricsHandler.

(** The numbers [generate_mock_metrics] draws, in the order of the
    draws: seven before the text is formatted, three while it is. *)
Record Metrics : Type := mkMetrics {
  bot_status : Z;
  open_trades : Z;
  balance : Q;
  locks : Z;
  cache_total : Z;
  cache_miss : Z;
  log_rate : Z;
  profit_abs_total : Q;
  trades_won : Z;
  trades_lost : Z
}.

Section Generate.
Variable tape : nat → Z.
(** [format(x, '.Nf')] *)
Variable format_f : nat → Q → string.

Definition draw_metrics : Gen Metrics :=
  (* Mock bot status (randomly up/down) *)
  bot_status ← random_choice tape [0%Z; 1%Z];
  (* Mock trade data *)
  open_trades ← random_randint tape 0 5;
  u ← random_uniform tape (-200) 300;
  let balance := (1000 + u)%Q in
  locks ← random_randint tape 0 2;
  (* Mock cache stats *)
  cache_total ← random_randint tape 100 500;
  cache_miss ← random_randint tape 10 50;
  (* Mock log rate *)
  log_rate ← random_randint tape 1 10;
  profit ← random_uniform tape (-50) 150;
  won ← random_randint tape 5 25;
  lost ← random_randint tape 2 15;
  mret (mkMetrics bot_status open_trades balance locks cache_total
                  cache_miss log_rate profit won lost).

Definition demo : list string :=
  [label "cluster" "demo"; label "strategy" "DefaultStrategy";
   label "version" "2025.6"].

Definition metrics_text (m : Metrics) : string :=
  join_lines
    ["# HELP freqtrade_build_info Information relate to freqtrade, 0 meaning server is down";
     "# TYPE freqtrade_build_info gauge";
     sample "freqtrade_build_info" demo (pretty (bot_status m));
     EmptyString;
     "# HELP freqtrade_open_trades Current number of open trades";
     "# TYPE freqtrade_open_trades gauge";
     sample "freqtrade_open_trades" demo (pretty (open_trades m));
     EmptyString;
     "# HELP freqtrade_fiat_balance Current fiat balance in exchange";
     "# TYPE freqtrade_fiat_balance gauge";
     sample "freqtrade_fiat_balance"
       [label "cluster" "demo"; label "stake" "USDT";
        label "strategy" "DefaultStrategy"; label "version" "2025.6"]
       (format_f 2 (balance m));
     EmptyString;
     "# HELP freqtrade_lock_count Current active lock data";
     "# TYPE freqtrade_lock_count gauge";
     sample "freqtrade_lock_count" demo (pretty (locks m));
     EmptyString;
     "# HELP freqtrade_internal_cache_total How many time we call cache service for freqtrade data";
     "# TYPE freqtrade_internal_cache_total counter";
     sample "freqtrade_internal_cache_total" [label "cluster" "demo"]
       (pretty (cache_total m));
     EmptyString;
     "# HELP freqtrade_internal_cache_miss How many time we need to call freqtrade";
     "# TYPE freqtrade_internal_cache_miss counter";
     sample "freqtrade_internal_cache_miss" [label "cluster" "demo"]
       (pretty (cache_miss m));
     EmptyString;
     "# HELP freqtrade_log_level_count Count all valid log that ftmetric can pass";
     "# TYPE freqtrade_log_level_count counter";
     sample "freqtrade_log_level_count"
       [label "cluster" "demo"; label "level" "info"] (pretty (log_rate m));
     EmptyString;
     "# HELP freqtrade_profit_abs_total Total absolute profit";
     "# TYPE freqtrade_profit_abs_total gauge";
     sample "freqtrade_profit_abs_total"
       [label "cluster" "demo"; label "strategy" "DefaultStrategy"]
       (format_f 2 (profit_abs_total m));
     EmptyString;
     "# HELP freqtrade_trades_total Total number of completed trades";
     "# TYPE freqtrade_trades_total counter";
     sample "freqtrade_trades_total"
       [label "cluster" "demo"; label "outcome" "won"] (pretty (trades_won m));
     sample "freqtrade_trades_total"
       [label "cluster" "demo"; label "outcome" "lost"]
       (pretty (trades_lost m));
     EmptyString].

Definition generate_mock_metrics : Gen string :=
  m ← draw_metrics; mret (metrics_text m).
End Generate.

End MockMetricsHandler.

End Exporters.

(** ** Sample inputs of the exporters *)

Module ExporterSamples.

(** A sequence of integers for the oracle. *)
Definition sample_tape (k : nat) : Z :=
  (Z.of_nat k * 6364136223846793005 + 1442695040888963407)%Z.

(** A stand-in for the sine with values in [-1, 1]. *)
Definition sample_sin (x : Q) : Q := Qmax (-1) (Qmin 1 (x - 472222)).

(** Decimal text without the point: the digits of [x * 10^digits]. *)
Definition sample_format (digits : nat) (x : Q) : string :=
  pretty (Exporters.int (x * inject_Z (10 ^ Z.of_nat digits))).

Definition sample_time : Q := 1700000000.

End ExporterSamples.

(** * Properties *)

(** ** Comparisons *)

Lemma Qlt_bool_iff (x y : Q) : Qlt_bool x y = true ↔ (x < y)%Q.
Proof. unfold Qlt_bool, Qlt. apply Z.ltb_lt. Qed.

Lemma cell_gt_true (a b : cell) : cell_gt a b = true ↔ defined_lt b a.
Proof.
  unfold defined_lt. destruct a as [x|], b as [y|]; simpl.
  - rewrite Qlt_bool_iff. split; [eauto 6|].
    intros (? & ? & [= <-] & [= <-] & ?); done.
  - split; [done|]. intros (? & ? & ? & ? & ?); done.
  - split; [done|]. intros (? & ? & ? & ? & ?); done.
  - split; [done|]. intros (? & ? & ? & ? & ?); done.
Qed.

Lemma cell_lt_gt (a b : cell) : cell_lt a b = cell_gt b a.
Proof. by destruct a, b. Qed.

Lemma cell_ge_le (a b : cell) : cell_ge a b = cell_le b a.
Proof. by destruct a, b. Qed.

Lemma cell_le_true (a b : cell) : cell_le a b = true ↔ defined_le a b.
Proof.
  unfold defined_le. destruct a as [x|], b as [y|]; simpl.
  - rewrite Qle_bool_iff. split; [eauto 6|].
    intros (? & ? & [= <-] & [= <-] & ?); done.
  - split; [done|]. intros (? & ? & ? & ? & ?); done.
  - split; [done|]. intros (? & ? & ? & ? & ?); done.
  - split; [done|]. intros (? & ? & ? & ? & ?); done.
Qed.

Lemma defined_lt_asym (a b : cell) : defined_lt a b → defined_lt b a → False.
Proof.
  intros (x & y & -> & -> & Hlt) (y' & x' & [= <-] & [= <-] & Hlt').
  apply (Qlt_not_le _ _ Hlt), Qlt_le_weak, Hlt'.
Qed.

Lemma defined_le_nan_l (b : cell) : ¬ defined_le NaN b.
Proof. intros (? & ? & ? & ? & ?); done. Qed.

Lemma defined_le_nan_r (a : cell) : ¬ defined_le a NaN.
Proof. intros (? & ? & ? & ? & ?); done. Qed.

(** ** Rows of series and masks *)

Lemma at_row_lookup (s : series) (i : nat) (a : cell) :
  s !! i = Some a → at_row s i = a.
Proof. unfold at_row. by intros ->. Qed.

Lemma at_row_ge (s : series) (i : nat) : length s ≤ i → at_row s i = NaN.
Proof. intros H. unfold at_row. by rewrite lookup_ge_None_2. Qed.

Lemma at_row_Some_lt (s : series) (i : nat) (x : Q) :
  at_row s i = Some x → i < length s.
Proof.
  intros H. destruct (decide (i < length s)) as [|Hn]; [done|].
  rewrite at_row_ge in H by lia. done.
Qed.

Lemma at_row_replicate_nan (n i : nat) : at_row (replicate n NaN) i = NaN.
Proof.
  unfold at_row. destruct (replicate n NaN !! i) as [a|] eqn:E; [|done].
  apply lookup_replicate in E as [-> _]. done.
Qed.

Lemma at_row_const_like (s : series) (c : Q) (i : nat) :
  i < length s → at_row (const_like s c) i = Some c.
Proof.
  intros H. apply at_row_lookup. unfold const_like.
  by apply lookup_replicate_2.
Qed.

Lemma length_shift1 (s : series) : length (shift1 s) = length s.
Proof. unfold shift1. rewrite length_take. simpl. lia. Qed.

Lemma at_row_shift1_0 (s : series) : at_row (shift1 s) 0 = NaN.
Proof. unfold at_row, shift1. by destruct s. Qed.

Lemma at_row_shift1_S (s : series) (j : nat) :
  S j < length s → at_row (shift1 s) (S j) = at_row s j.
Proof.
  intros H. unfold at_row, shift1. rewrite lookup_take.
  destruct (decide (S j < length s)); [done|lia].
Qed.

Lemma mask_at_zip_with {A B} (f : A → B → bool) (l : list A) (k : list B)
    (i : nat) (x : A) (y : B) :
  l !! i = Some x → k !! i = Some y → mask_at (zip_with f l k) i = f x y.
Proof. intros Hl Hk. unfold mask_at. by rewrite lookup_zip_with, Hl, Hk. Qed.

Lemma mask_at_zip_with_None_l {A B} (f : A → B → bool) (l : list A)
    (k : list B) (i : nat) :
  l !! i = None → mask_at (zip_with f l k) i = false.
Proof. intros Hl. unfold mask_at. by rewrite lookup_zip_with, Hl. Qed.

Lemma mask_at_zip_with_None_r {A B} (f : A → B → bool) (l : list A)
    (k : list B) (i : nat) :
  k !! i = None → mask_at (zip_with f l k) i = false.
Proof.
  intros Hk. unfold mask_at. rewrite lookup_zip_with, Hk.
  by destruct (l !! i).
Qed.

Lemma mask_at_cmp (f : cell → cell → bool) (s1 s2 : series) (i : nat) :
  (∀ b, f NaN b = false) → (∀ a, f a NaN = false) →
  mask_at (zip_with f s1 s2) i = f (at_row s1 i) (at_row s2 i).
Proof.
  intros Hl Hr. unfold at_row.
  destruct (s1 !! i) as [a|] eqn:E1; simpl.
  - destruct (s2 !! i) as [b|] eqn:E2; simpl.
    + by apply mask_at_zip_with.
    + rewrite Hr. by apply mask_at_zip_with_None_r.
  - rewrite Hl. by apply mask_at_zip_with_None_l.
Qed.

Lemma mask_at_series_gt (s1 s2 : series) (i : nat) :
  mask_at (series_gt s1 s2) i = cell_gt (at_row s1 i) (at_row s2 i).
Proof. apply mask_at_cmp; [done|]. by intros []. Qed.

Lemma mask_at_series_lt (s1 s2 : series) (i : nat) :
  mask_at (series_lt s1 s2) i = cell_lt (at_row s1 i) (at_row s2 i).
Proof. apply mask_at_cmp; [done|]. by intros []. Qed.

Lemma mask_at_series_le (s1 s2 : series) (i : nat) :
  mask_at (series_le s1 s2) i = cell_le (at_row s1 i) (at_row s2 i).
Proof. apply mask_at_cmp; [done|]. by intros []. Qed.

Lemma mask_at_series_ge (s1 s2 : series) (i : nat) :
  mask_at (series_ge s1 s2) i = cell_ge (at_row s1 i) (at_row s2 i).
Proof. apply mask_at_cmp; [done|]. by intros []. Qed.

Lemma mask_at_series_gt_scalar (s : series) (c : Q) (i : nat) :
  mask_at (series_gt_scalar s c) i = cell_gt (at_row s i) (Some c).
Proof.
  unfold mask_at, series_gt_scalar, at_row. rewrite list_lookup_fmap.
  by destruct (s !! i).
Qed.

Lemma mask_at_and (m1 m2 : mask) (i : nat) :
  mask_at (mask_and m1 m2) i = mask_at m1 i && mask_at m2 i.
Proof.
  unfold mask_and, mask_at at 2 3.
  destruct (m1 !! i) as [a|] eqn:E1; simpl.
  - destruct (m2 !! i) as [b|] eqn:E2; simpl.
    + by apply mask_at_zip_with.
    + rewrite andb_false_r. by apply mask_at_zip_with_None_r.
  - by apply mask_at_zip_with_None_l.
Qed.

Lemma mask_at_or (m1 m2 : mask) (i : nat) :
  length m1 = length m2 →
  mask_at (mask_or m1 m2) i = mask_at m1 i || mask_at m2 i.
Proof.
  intros Hlen. unfold mask_or, mask_at at 2 3.
  destruct (m1 !! i) as [a|] eqn:E1; simpl.
  - destruct (lookup_lt_is_Some_2 m2 i) as [b E2].
    { rewrite <- Hlen. by eapply lookup_lt_Some. }
    rewrite E2. simpl. by apply mask_at_zip_with.
  - rewrite (lookup_ge_None_2 m2 i); simpl.
    + by apply mask_at_zip_with_None_l.
    + rewrite <- Hlen. by apply lookup_ge_None.
Qed.

(** ** The crossover detector, row by row *)

Lemma crossed_above_at (A B : series) (i : nat) :
  mask_at (crossed_above A B) i = true
  ↔ crosses_above (at_row A) (at_row B) i.
Proof.
  unfold crossed_above, crosses_above.
  rewrite mask_at_and, mask_at_series_gt, mask_at_series_le.
  rewrite andb_true_iff, cell_gt_true, cell_le_true.
  split.
  - intros [Hgt Hle]. destruct i as [|j].
    + rewrite at_row_shift1_0 in Hle. by apply defined_le_nan_l in Hle.
    + exists j. split; [done|]. split; [|done].
      destruct Hgt as (y & x & HB & HA & _).
      rewrite !at_row_shift1_S in Hle by (by eapply at_row_Some_lt). done.
  - intros (j & -> & Hle & Hgt). split; [done|].
    destruct Hgt as (y & x & HB & HA & Hlt).
    rewrite !at_row_shift1_S by (by eapply at_row_Some_lt). done.
Qed.

Lemma crossed_below_above (A B : series) :
  crossed_below A B = crossed_above B A.
Proof.
  unfold crossed_below, crossed_above, mask_and.
  unfold series_lt, series_gt, series_ge, series_le.
  f_equal.
  - rewrite <- (zip_with_flip cell_gt). apply zip_with_ext; [|done..].
    intros a b. apply cell_lt_gt.
  - rewrite <- (zip_with_flip cell_le). apply zip_with_ext; [|done..].
    intros a b. apply cell_ge_le.
Qed.

Lemma crossed_below_at (A B : series) (i : nat) :
  mask_at (crossed_below A B) i = true
  ↔ crosses_below (at_row A) (at_row B) i.
Proof. rewrite crossed_below_above. apply crossed_above_at. Qed.

Lemma crossed_above_scalar_at (s : series) (c : Q) (i : nat) :
  mask_at (crossed_above_scalar s c) i = true
  ↔ crosses_above (at_row s) (λ _, Some c) i.
Proof.
  unfold crossed_above_scalar. rewrite crossed_above_at.
  unfold crosses_above. split.
  - intros (j & -> & Hle & Hgt). exists j. split; [done|].
    destruct Hgt as (y & x & HB & HA & Hlt).
    pose proof (at_row_Some_lt _ _ _ HA) as Hi.
    rewrite at_row_const_like in HB by lia.
    rewrite at_row_const_like in Hle by lia.
    split; [done|]. by exists y, x.
  - intros (j & -> & Hle & Hgt). exists j. split; [done|].
    destruct Hgt as (y & x & HB & HA & Hlt).
    pose proof (at_row_Some_lt _ _ _ HA) as Hi.
    rewrite !at_row_const_like by lia.
    split; [done|]. by exists y, x.
Qed.

Lemma length_crossed_above (A B : series) :
  length A = length B → length (crossed_above A B) = length A.
Proof.
  intros H. unfold crossed_above, mask_and, series_gt, series_le.
  rewrite !length_zip_with, !length_shift1. lia.
Qed.

Lemma length_crossed_above_scalar (s : series) (c : Q) :
  length (crossed_above_scalar s c) = length s.
Proof.
  unfold crossed_above_scalar. apply length_crossed_above.
  unfold const_like. by rewrite length_replicate.
Qed.

(** ** Masked assignment *)

Lemma length_mask_assign (m : mask) (v : Q) (s : series) :
  length (mask_assign m v s) = length s.
Proof. unfold mask_assign. apply length_imap. Qed.

Lemma at_row_mask_assign (m : mask) (v : Q) (s : series) (i : nat) :
  i < length s →
  at_row (mask_assign m v s) i = if mask_at m i then Some v else at_row s i.
Proof.
  intros Hi. destruct (lookup_lt_is_Some_2 s i Hi) as [a Ha].
  unfold at_row, mask_assign, mask_at. rewrite list_lookup_imap, Ha. simpl.
  by destruct (default false (m !! i)).
Qed.

Lemma mask_assign_idemp (m : mask) (v : Q) (s : series) :
  mask_assign m v (mask_assign m v s) = mask_assign m v s.
Proof.
  apply list_eq. intros i. unfold mask_assign.
  rewrite !list_lookup_imap. destruct (s !! i); simpl; [|done].
  by destruct (default false (m !! i)).
Qed.

Lemma loc_set_fresh (df : DataFrame) (m : mask) (c : string) (v : Q) :
  columns df !! c = None → nrows df ≠ 0 →
  loc_set m c v df
  = (mkFrame (nrows df)
       (<[c := mask_assign m v (replicate (nrows df) NaN)]> (columns df)),
     Ok ()).
Proof.
  intros Hc Hn. unfold loc_set, loc_setitem. rewrite Hc.
  by destruct (decide (nrows df = 0)).
Qed.

Lemma loc_set_present (df : DataFrame) (m : mask) (c : string) (v : Q)
    (s : series) :
  columns df !! c = Some s →
  loc_set m c v df
  = (mkFrame (nrows df) (<[c := mask_assign m v s]> (columns df)), Ok ()).
Proof. intros Hc. unfold loc_set, loc_setitem. by rewrite Hc. Qed.

Lemma signal_insert (n : nat) (cols : gmap string series) (c : string)
    (s : series) (i : nat) :
  signal (mkFrame n (<[c := s]> cols)) c i
  = match at_row s i with Some v => Qeq_bool v 1 | None => false end.
Proof. unfold signal. simpl. by rewrite lookup_insert_eq. Qed.

Lemma signal_loc_set_fresh (df : DataFrame) (m : mask) (c : string)
    (i : nat) :
  columns df !! c = None → i < nrows df →
  ∃ df', loc_set m c 1%Q df = (df', Ok ()) ∧ signal df' c i = mask_at m i.
Proof.
  intros Hc Hi. eexists. split; [apply loc_set_fresh; [done|lia]|].
  rewrite signal_insert, at_row_mask_assign
    by (by rewrite length_replicate).
  rewrite at_row_replicate_nan. by destruct (mask_at m i).
Qed.

(** ** The two rules *)

Lemma populate_entry_trend_run (md : gmap string string) (df : DataFrame)
    (rsi macd macdsignal close ema10 volume : series) :
  columns df !! "rsi" = Some rsi →
  columns df !! "macd" = Some macd →
  columns df !! "macdsignal" = Some macdsignal →
  columns df !! "close" = Some close →
  columns df !! "ema10" = Some ema10 →
  columns df !! "volume" = Some volume →
  populate_entry_trend md df
  = loc_set (entry_condition rsi macd macdsignal close ema10 volume)
            "enter_long" 1%Q df.
Proof.
  intros H1 H2 H3 H4 H5 H6.
  unfold populate_entry_trend, mbind, frame_bind, col, getitem.
  by rewrite H1, H2, H3, H4, H5, H6.
Qed.

Lemma populate_exit_trend_run (md : gmap string string) (df : DataFrame)
    (rsi close bb_upperband macd macdsignal : series) :
  columns df !! "rsi" = Some rsi →
  columns df !! "close" = Some close →
  columns df !! "bb_upperband" = Some bb_upperband →
  columns df !! "macd" = Some macd →
  columns df !! "macdsignal" = Some macdsignal →
  populate_exit_trend md df
  = loc_set (exit_condition rsi close bb_upperband macd macdsignal)
            "exit_long" 1%Q df.
Proof.
  intros H1 H2 H3 H4 H5.
  unfold populate_exit_trend, mbind, frame_bind, col, getitem.
  by rewrite H1, H2, H3, H4, H5.
Qed.

Lemma populate_entry_trend_succeeds (md : gmap string string)
    (df : DataFrame) (rsi macd macdsignal close ema10 volume : series) :
  columns df !! "rsi" = Some rsi →
  columns df !! "macd" = Some macd →
  columns df !! "macdsignal" = Some macdsignal →
  columns df !! "close" = Some close →
  columns df !! "ema10" = Some ema10 →
  columns df !! "volume" = Some volume →
  columns df !! "enter_long" = None →
  0 < nrows df →
  ∃ df', populate_entry_trend md df = (df', Ok ()).
Proof.
  intros H1 H2 H3 H4 H5 H6 Hnew Hn.
  rewrite (populate_entry_trend_run md df _ _ _ _ _ _ H1 H2 H3 H4 H5 H6).
  rewrite loc_set_fresh by (done || lia). eauto.
Qed.

Lemma populate_exit_trend_succeeds (md : gmap string string)
    (df : DataFrame) (rsi close bb_upperband macd macdsignal : series) :
  columns df !! "rsi" = Some rsi →
  columns df !! "close" = Some close →
  columns df !! "bb_upperband" = Some bb_upperband →
  columns df !! "macd" = Some macd →
  columns df !! "macdsignal" = Some macdsignal →
  columns df !! "exit_long" = None →
  0 < nrows df →
  ∃ df', populate_exit_trend md df = (df', Ok ()).
Proof.
  intros H1 H2 H3 H4 H5 Hnew Hn.
  rewrite (populate_exit_trend_run md df _ _ _ _ _ H1 H2 H3 H4 H5).
  rewrite loc_set_fresh by (done || lia). eauto.
Qed.

Lemma entry_condition_at (rsi macd macdsignal close ema10 volume : series)
    (i : nat) :
  mask_at (entry_condition rsi macd macdsignal close ema10 volume) i = true
  ↔ crosses_above (at_row rsi) (λ _, Some 30%Q) i
    ∧ defined_lt (at_row macdsignal i) (at_row macd i)
    ∧ defined_lt (at_row ema10 i) (at_row close i)
    ∧ defined_lt (Some 0%Q) (at_row volume i).
Proof.
  unfold entry_condition.
  rewrite !mask_at_and, !andb_true_iff.
  rewrite crossed_above_scalar_at, !mask_at_series_gt,
    mask_at_series_gt_scalar, !cell_gt_true.
  tauto.
Qed.

Lemma exit_condition_at (rsi close bb_upperband macd macdsignal : series)
    (i : nat) :
  length close = length rsi → length bb_upperband = length rsi →
  length macd = length rsi → length macdsignal = length rsi →
  mask_at (exit_condition rsi close bb_upperband macd macdsignal) i = true
  ↔ crosses_above (at_row rsi) (λ _, Some 70%Q) i
    ∨ defined_lt (at_row bb_upperband i) (at_row close i)
    ∨ crosses_below (at_row macd) (at_row macdsignal) i.
Proof.
  intros Hc Hb Hm Hs. unfold exit_condition.
  rewrite !mask_at_or, !orb_true_iff.
  - rewrite crossed_above_scalar_at, mask_at_series_gt, cell_gt_true,
      crossed_below_at. tauto.
  - rewrite length_crossed_above_scalar. unfold series_gt.
    rewrite length_zip_with. lia.
  - unfold mask_or at 1. rewrite length_zip_with.
    rewrite length_crossed_above_scalar. unfold series_gt.
    rewrite length_zip_with. rewrite crossed_below_above.
    rewrite length_crossed_above by lia. lia.
Qed.

(** Claim C5. For all series [A], [B] and every row [i]: [crossed_above]
    and [crossed_below] are never both true at [i]; [crossed_above A B] is
    [crossed_below B A]; and both are false at row 0, which has no
    predecessor. *)
Theorem crossover_exclusive_mirrored (A B : series) (i : nat) :
  ¬ (mask_at (crossed_above A B) i = true
     ∧ mask_at (crossed_below A B) i = true)
  ∧ mask_at (crossed_above A B) i = mask_at (crossed_below B A) i
  ∧ mask_at (crossed_above A B) 0 = false
  ∧ mask_at (crossed_below A B) 0 = false.
Proof.
  repeat split.
  - rewrite crossed_above_at, crossed_below_at.
    intros [(j & -> & _ & Hgt) (j' & _ & _ & Hlt)].
    by apply (defined_lt_asym _ _ Hgt).
  - by rewrite crossed_below_above.
  - apply not_true_is_false. rewrite crossed_above_at.
    intros (j & ? & _); done.
  - apply not_true_is_false. rewrite crossed_below_at.
    intros (j & ? & _); done.
Qed.

(** The entry rule on any frame that holds the indicator columns and no
    [enter_long] column yet. *)
Lemma entry_signal_at (md : gmap string string) (df : DataFrame)
    (rsi macd macdsignal close ema10 volume : series) (i : nat) :
  columns df !! "rsi" = Some rsi →
  columns df !! "macd" = Some macd →
  columns df !! "macdsignal" = Some macdsignal →
  columns df !! "close" = Some close →
  columns df !! "ema10" = Some ema10 →
  columns df !! "volume" = Some volume →
  columns df !! "enter_long" = None →
  i < nrows df →
  ∃ df', populate_entry_trend md df = (df', Ok ())
    ∧ (signal df' "enter_long" i = true
       ↔ crosses_above (at_row rsi) (λ _, Some 30%Q) i
         ∧ defined_lt (at_row macdsignal i) (at_row macd i)
         ∧ defined_lt (at_row ema10 i) (at_row close i)
         ∧ defined_lt (Some 0%Q) (at_row volume i)).
Proof.
  intros H1 H2 H3 H4 H5 H6 Hnew Hi.
  rewrite (populate_entry_trend_run md df _ _ _ _ _ _ H1 H2 H3 H4 H5 H6).
  destruct (signal_loc_set_fresh df
              (entry_condition rsi macd macdsignal close ema10 volume)
              "enter_long" i Hnew Hi) as (df' & Hrun & Hsig).
  exists df'. split; [done|].
  rewrite Hsig. apply entry_condition_at.
Qed.

(** The exit rule on any well-formed frame that holds the indicator
    columns and no [exit_long] column yet. *)
Lemma exit_signal_at (md : gmap string string) (df : DataFrame)
    (rsi close bb_upperband macd macdsignal : series) (i : nat) :
  wf df →
  columns df !! "rsi" = Some rsi →
  columns df !! "close" = Some close →
  columns df !! "bb_upperband" = Some bb_upperband →
  columns df !! "macd" = Some macd →
  columns df !! "macdsignal" = Some macdsignal →
  columns df !! "exit_long" = None →
  i < nrows df →
  ∃ df', populate_exit_trend md df = (df', Ok ())
    ∧ (signal df' "exit_long" i = true
       ↔ crosses_above (at_row rsi) (λ _, Some 70%Q) i
         ∨ defined_lt (at_row bb_upperband i) (at_row close i)
         ∨ crosses_below (at_row macd) (at_row macdsignal) i)
    ∧ (defined_lt (at_row bb_upperband i) (at_row close i)
       → signal df' "exit_long" i = true).
Proof.
  intros Hwf H1 H2 H3 H4 H5 Hnew Hi.
  rewrite (populate_exit_trend_run md df _ _ _ _ _ H1 H2 H3 H4 H5).
  destruct (signal_loc_set_fresh df
              (exit_condition rsi close bb_upperband macd macdsignal)
              "exit_long" i Hnew Hi) as (df' & Hrun & Hsig).
  exists df'. split; [done|].
  rewrite Hsig.
  pose proof (exit_condition_at rsi close bb_upperband macd macdsignal i)
    as Hat.
  rewrite Hat by (rewrite (Hwf _ _ H1); eauto).
  split; [done|]. tauto.
Qed.

(** ** What the rule evaluators write *)

Lemma at_row_mask_assign_false (m : mask) (v : Q) (s : series) (i : nat) :
  mask_at m i = false → at_row (mask_assign m v s) i = at_row s i.
Proof.
  intros Hm. destruct (decide (i < length s)) as [Hi|Hi].
  - by rewrite at_row_mask_assign, Hm.
  - rewrite !at_row_ge; [done|lia|rewrite length_mask_assign; lia].
Qed.

Lemma loc_set_frame (m : mask) (c : string) (v : Q) (df df' : DataFrame)
    (r : result unit) :
  loc_set m c v df = (df', r) →
  nrows df' = nrows df
  ∧ (∀ c', c' ≠ c → columns df' !! c' = columns df !! c')
  ∧ (∀ i, mask_at m i = false → cell_of df' c i = cell_of df c i).
Proof.
  unfold loc_set, loc_setitem, cell_of.
  destruct (columns df !! c) as [s|] eqn:Hc.
  - intros [= <- <-]. simpl. split; [done|]. split.
    + intros c' Hne. by rewrite lookup_insert_ne.
    + intros i Hm. rewrite lookup_insert_eq.
      by apply at_row_mask_assign_false.
  - destruct (decide (nrows df = 0)).
    + intros [= <- <-]. by rewrite Hc.
    + intros [= <- <-]. simpl. split; [done|]. split.
      * intros c' Hne. by rewrite lookup_insert_ne.
      * intros i Hm. rewrite lookup_insert_eq.
        rewrite at_row_mask_assign_false by done.
        apply at_row_replicate_nan.
Qed.

Lemma populate_entry_trend_inv (md : gmap string string)
    (df df' : DataFrame) (r : result unit) :
  populate_entry_trend md df = (df', r) →
  (df' = df ∧ ∃ e, r = Err e)
  ∨ ∃ rsi macd macdsignal close ema10 volume,
      columns df !! "rsi" = Some rsi
      ∧ columns df !! "macd" = Some macd
      ∧ columns df !! "macdsignal" = Some macdsignal
      ∧ columns df !! "close" = Some close
      ∧ columns df !! "ema10" = Some ema10
      ∧ columns df !! "volume" = Some volume
      ∧ loc_set (entry_condition rsi macd macdsignal close ema10 volume)
                "enter_long" 1%Q df = (df', r).
Proof.
  unfold populate_entry_trend, mbind, frame_bind, col, getitem.
  destruct (columns df !! "rsi") as [rsi|]; [|intros [= <- <-]; eauto].
  destruct (columns df !! "macd") as [macd|]; [|intros [= <- <-]; eauto].
  destruct (columns df !! "macdsignal") as [sg|]; [|intros [= <- <-]; eauto].
  destruct (columns df !! "close") as [close|]; [|intros [= <- <-]; eauto].
  destruct (columns df !! "ema10") as [ema10|]; [|intros [= <- <-]; eauto].
  destruct (columns df !! "volume") as [volume|]; [|intros [= <- <-]; eauto].
  intros H. right. by exists rsi, macd, sg, close, ema10, volume.
Qed.

Lemma populate_exit_trend_inv (md : gmap string string)
    (df df' : DataFrame) (r : result unit) :
  populate_exit_trend md df = (df', r) →
  (df' = df ∧ ∃ e, r = Err e)
  ∨ ∃ rsi close bb_upperband macd macdsignal,
      columns df !! "rsi" = Some rsi
      ∧ columns df !! "close" = Some close
      ∧ columns df !! "bb_upperband" = Some bb_upperband
      ∧ columns df !! "macd" = Some macd
      ∧ columns df !! "macdsignal" = Some macdsignal
      ∧ loc_set (exit_condition rsi close bb_upperband macd macdsignal)
                "exit_long" 1%Q df = (df', r).
Proof.
  unfold populate_exit_trend, mbind, frame_bind, col, getitem.
  destruct (columns df !! "rsi") as [rsi|]; [|intros [= <- <-]; eauto].
  destruct (columns df !! "close") as [close|]; [|intros [= <- <-]; eauto].
  destruct (columns df !! "bb_upperband") as [bb|];
    [|intros [= <- <-]; eauto].
  destruct (columns df !! "macd") as [macd|]; [|intros [= <- <-]; eauto].
  destruct (columns df !! "macdsignal") as [sg|]; [|intros [= <- <-]; eauto].
  intros H. right. by exists rsi, close, bb, macd, sg.
Qed.

(** Claim C10. Whatever the input frame, [populate_entry_trend] leaves the
    number of rows and every column other than [enter_long] as they were,
    and [populate_exit_trend] every column other than [exit_long]; a row
    whose rule condition is false keeps the content it had, which is NaN
    and not 0 in a column the call creates. *)
Theorem rules_write_only_their_signal (md : gmap string string)
    (df df1 df2 : DataFrame) (r1 r2 : result unit) :
  populate_entry_trend md df = (df1, r1) →
  populate_exit_trend md df = (df2, r2) →
  (nrows df1 = nrows df
   ∧ (∀ c, c ≠ "enter_long" → columns df1 !! c = columns df !! c)
   ∧ (∀ rsi macd macdsignal close ema10 volume i,
        columns df !! "rsi" = Some rsi →
        columns df !! "macd" = Some macd →
        columns df !! "macdsignal" = Some macdsignal →
        columns df !! "close" = Some close →
        columns df !! "ema10" = Some ema10 →
        columns df !! "volume" = Some volume →
        mask_at (entry_condition rsi macd macdsignal close ema10 volume) i
          = false →
        cell_of df1 "enter_long" i = cell_of df "enter_long" i))
  ∧ (nrows df2 = nrows df
     ∧ (∀ c, c ≠ "exit_long" → columns df2 !! c = columns df !! c)
     ∧ (∀ rsi close bb_upperband macd macdsignal i,
          columns df !! "rsi" = Some rsi →
          columns df !! "close" = Some close →
          columns df !! "bb_upperband" = Some bb_upperband →
          columns df !! "macd" = Some macd →
          columns df !! "macdsignal" = Some macdsignal →
          mask_at (exit_condition rsi close bb_upperband macd macdsignal) i
            = false →
          cell_of df2 "exit_long" i = cell_of df "exit_long" i)).
Proof.
  intros Hentry Hexit. split.
  - destruct (populate_entry_trend_inv _ _ _ _ Hentry)
      as [[-> _]|(rsi & macd & sg & close & ema10 & volume
                  & H1 & H2 & H3 & H4 & H5 & H6 & Hset)]; [done|].
    destruct (loc_set_frame _ _ _ _ _ _ Hset) as (Hn & Hother & Hrows).
    split; [done|]. split; [done|].
    intros rsi' macd' sg' close' ema10' volume' i G1 G2 G3 G4 G5 G6.
    simplify_eq. apply Hrows.
  - destruct (populate_exit_trend_inv _ _ _ _ Hexit)
      as [[-> _]|(rsi & close & bb & macd & sg
                  & H1 & H2 & H3 & H4 & H5 & Hset)]; [done|].
    destruct (loc_set_frame _ _ _ _ _ _ Hset) as (Hn & Hother & Hrows).
    split; [done|]. split; [done|].
    intros rsi' close' bb' macd' sg' i G1 G2 G3 G4 G5.
    simplify_eq. apply Hrows.
Qed.

(** ** The slow EMA is not read by the rules *)

Lemma loc_set_agree (m : mask) (c : string) (v : Q) (df df' : DataFrame) :
  nrows df = nrows df' →
  columns df !! c = columns df' !! c →
  (loc_set m c v df).2 = (loc_set m c v df').2
  ∧ columns (loc_set m c v df).1 !! c = columns (loc_set m c v df').1 !! c.
Proof.
  intros Hn Hc. unfold loc_set, loc_setitem. rewrite <- Hc, <- Hn.
  destruct (columns df !! c) as [s|] eqn:E; simpl.
  - by rewrite !lookup_insert_eq.
  - destruct (decide (nrows df = 0)); simpl.
    + by rewrite E, <- Hc.
    + by rewrite !lookup_insert_eq.
Qed.

Lemma populate_entry_trend_agree (md : gmap string string)
    (df df' : DataFrame) :
  nrows df = nrows df' →
  (∀ c, c ≠ "ema50" → columns df !! c = columns df' !! c) →
  (populate_entry_trend md df).2 = (populate_entry_trend md df').2
  ∧ columns (populate_entry_trend md df).1 !! "enter_long"
    = columns (populate_entry_trend md df').1 !! "enter_long".
Proof.
  intros Hn Hc.
  unfold populate_entry_trend, mbind, frame_bind, col, getitem.
  rewrite <- !(Hc _) by done.
  destruct (columns df !! "rsi"); [|by rewrite <- Hc].
  destruct (columns df !! "macd"); [|by rewrite <- Hc].
  destruct (columns df !! "macdsignal"); [|by rewrite <- Hc].
  destruct (columns df !! "close"); [|by rewrite <- Hc].
  destruct (columns df !! "ema10"); [|by rewrite <- Hc].
  destruct (columns df !! "volume"); [|by rewrite <- Hc].
  apply loc_set_agree; [done|]. by apply Hc.
Qed.

Lemma populate_exit_trend_agree (md : gmap string string)
    (df df' : DataFrame) :
  nrows df = nrows df' →
  (∀ c, c ≠ "ema50" → columns df !! c = columns df' !! c) →
  (populate_exit_trend md df).2 = (populate_exit_trend md df').2
  ∧ columns (populate_exit_trend md df).1 !! "exit_long"
    = columns (populate_exit_trend md df').1 !! "exit_long".
Proof.
  intros Hn Hc.
  unfold populate_exit_trend, mbind, frame_bind, col, getitem.
  rewrite <- !(Hc _) by done.
  destruct (columns df !! "rsi"); [|by rewrite <- Hc].
  destruct (columns df !! "close"); [|by rewrite <- Hc].
  destruct (columns df !! "bb_upperband"); [|by rewrite <- Hc].
  destruct (columns df !! "macd"); [|by rewrite <- Hc].
  destruct (columns df !! "macdsignal"); [|by rewrite <- Hc].
  apply loc_set_agree; [done|]. by apply Hc.
Qed.

(** ** Running [populate_indicators] *)

Lemma frame_bind_assoc {A B C} (m : Frame A) (f : A → Frame B)
    (g : B → Frame C) (df : DataFrame) :
  ((m ≫= f) ≫= g) df = (m ≫= (λ a, f a ≫= g)) df.
Proof. unfold mbind, frame_bind. by destruct (m df) as [df' [a|e]]. Qed.

Lemma bind_col {B} (c : string) (k : series → Frame B) (df : DataFrame) :
  (col c ≫= k) df
  = match columns df !! c with
    | Some s => k s df
    | None => (df, Err (KeyError c))
    end.
Proof.
  unfold mbind, frame_bind, col, getitem. by destruct (columns df !! c).
Qed.

Lemma bind_lift {A B} (r : result A) (k : A → Frame B) (df : DataFrame) :
  (lift r ≫= k) df
  = match r with
    | Ok a => k a df
    | Err e => (df, Err e)
    end.
Proof. unfold mbind, frame_bind, lift. by destruct r. Qed.

Lemma bind_set_col {B} (c : string) (s : series) (k : unit → Frame B)
    (df : DataFrame) :
  (set_col c s ≫= k) df = k () (setitem df c s).
Proof. done. Qed.

Lemma bind_ret {A B} (a : A) (k : A → Frame B) (df : DataFrame) :
  (mret a ≫= k) df = k a df.
Proof. done. Qed.

Lemma columns_setitem_ne (df : DataFrame) (c c' : string) (s : series) :
  c ≠ c' → columns (setitem df c s) !! c' = columns df !! c'.
Proof. intros H. unfold setitem. simpl. by rewrite lookup_insert_ne. Qed.

Lemma columns_setitem_eq (df : DataFrame) (c : string) (s : series) :
  columns (setitem df c s) !! c = Some (reindex (nrows df) s).
Proof. unfold setitem. simpl. by rewrite lookup_insert_eq. Qed.

Lemma nrows_setitem (df : DataFrame) (c : string) (s : series) :
  nrows (setitem df c s) = nrows df.
Proof. done. Qed.

Ltac frame_step :=
  first
    [ rewrite frame_bind_assoc
    | rewrite bind_col
    | rewrite bind_lift
    | rewrite bind_set_col
    | rewrite bind_ret
    | rewrite columns_setitem_ne by discriminate ];
  cbv beta.

(** [populate_indicators], call by call: where it stops and in which
    state it leaves the frame. *)
Lemma populate_indicators_unfold (ta : IndicatorBank)
    (md : gmap string string) (df : DataFrame) :
  populate_indicators ta md df
  = match columns df !! "close" with
    | None => (df, Err (KeyError "close"))
    | Some close =>
    match RSI ta close RSI_timeperiod with
    | Err e => (df, Err e)
    | Ok rsi =>
    let df1 := with_rsi df rsi in
    match MACD ta close MACD_fastperiod MACD_slowperiod MACD_signalperiod with
    | Err e => (df1, Err e)
    | Ok m =>
    let df2 := with_macd df1 m in
    match columns df !! "high" with
    | None => (df2, Err (KeyError "high"))
    | Some high =>
    match columns df !! "low" with
    | None => (df2, Err (KeyError "low"))
    | Some low =>
    match bollinger_bands ta (typical high low close) 20 2%Q with
    | Err e => (df2, Err e)
    | Ok b =>
    let df3 := with_bands df2 b in
    match EMA ta close 10 with
    | Err e => (df3, Err e)
    | Ok ema10 =>
    let df4 := setitem df3 "ema10" ema10 in
    match EMA ta close 50 with
    | Err e => (df4, Err e)
    | Ok ema50 => (setitem df4 "ema50" ema50, Ok ())
    end end end end end end end end.
Proof.
  unfold populate_indicators, ta_RSI, ta_MACD, ta_EMA, typical_price.
  unfold with_bands, with_macd, with_rsi.
  repeat frame_step.
  destruct (columns df !! "close") as [close|] eqn:Hclose; [|done].
  repeat frame_step.
  destruct (RSI ta close RSI_timeperiod) as [rsi|]; [|done].
  repeat frame_step. rewrite Hclose. repeat frame_step.
  destruct (MACD ta close _ _ _) as [m|]; [|done].
  repeat frame_step.
  destruct (columns df !! "high") as [high|]; [|done].
  repeat frame_step.
  destruct (columns df !! "low") as [low|]; [|done].
  repeat frame_step. rewrite Hclose. repeat frame_step.
  destruct (bollinger_bands ta _ _ _) as [b|]; [|done].
  repeat frame_step. rewrite Hclose. repeat frame_step.
  destruct (EMA ta close 10) as [ema10|]; [|done].
  repeat frame_step. rewrite Hclose. repeat frame_step.
  by destruct (EMA ta close 50) as [ema50|].
Qed.

Lemma populate_indicators_inv (ta : IndicatorBank) (md : gmap string string)
    (df df1 : DataFrame) :
  populate_indicators ta md df = (df1, Ok ()) →
  ∃ close high low rsi m b ema10 ema50,
    columns df !! "close" = Some close
    ∧ columns df !! "high" = Some high
    ∧ columns df !! "low" = Some low
    ∧ RSI ta close RSI_timeperiod = Ok rsi
    ∧ MACD ta close MACD_fastperiod MACD_slowperiod MACD_signalperiod = Ok m
    ∧ bollinger_bands ta (typical high low close) 20 2%Q = Ok b
    ∧ EMA ta close 10 = Ok ema10
    ∧ EMA ta close 50 = Ok ema50
    ∧ df1 = with_indicators df rsi m b ema10 ema50.
Proof.
  rewrite populate_indicators_unfold.
  destruct (columns df !! "close") as [close|] eqn:Hc; [|done].
  destruct (RSI ta close _) as [rsi|] eqn:H1; [|done].
  destruct (MACD ta close _ _ _) as [m|] eqn:H2; [|done].
  destruct (columns df !! "high") as [high|] eqn:Hh; [|done].
  destruct (columns df !! "low") as [low|] eqn:Hl; [|done].
  destruct (bollinger_bands ta _ _ _) as [b|] eqn:H3; [|done].
  destruct (EMA ta close 10) as [ema10|] eqn:H4; [|done].
  destruct (EMA ta close 50) as [ema50|] eqn:H5; [|done].
  intros [= <-]. by exists close, high, low, rsi, m, b, ema10, ema50.
Qed.

Lemma populate_indicators_ok (ta : IndicatorBank) (md : gmap string string)
    (df : DataFrame) (close high low rsi : series) (m : MACDResult)
    (b : Bands) (ema10 ema50 : series) :
  columns df !! "close" = Some close →
  columns df !! "high" = Some high →
  columns df !! "low" = Some low →
  RSI ta close RSI_timeperiod = Ok rsi →
  MACD ta close MACD_fastperiod MACD_slowperiod MACD_signalperiod = Ok m →
  bollinger_bands ta (typical high low close) 20 2%Q = Ok b →
  EMA ta close 10 = Ok ema10 →
  EMA ta close 50 = Ok ema50 →
  populate_indicators ta md df
  = (with_indicators df rsi m b ema10 ema50, Ok ()).
Proof.
  intros Hc Hh Hl H1 H2 H3 H4 H5. rewrite populate_indicators_unfold.
  by rewrite Hc, H1, H2, Hh, Hl, H3, H4, H5.
Qed.

Ltac lookup_columns :=
  unfold with_indicators, with_bands, with_macd, with_rsi;
  repeat first
    [ rewrite columns_setitem_ne by discriminate
    | rewrite columns_setitem_eq ];
  rewrite ?nrows_setitem.

Lemma setitem_id (df : DataFrame) (c : string) (s : series) :
  columns df !! c = Some (reindex (nrows df) s) → setitem df c s = df.
Proof.
  intros H. unfold setitem. rewrite insert_id by done. by destruct df.
Qed.

Lemma loc_set_ok (m : mask) (c : string) (v : Q) (df df' : DataFrame) :
  loc_set m c v df = (df', Ok ()) →
  nrows df' = nrows df
  ∧ (∀ c', c' ≠ c → columns df' !! c' = columns df !! c')
  ∧ ∃ s, columns df' !! c = Some (mask_assign m v s).
Proof.
  intros H. destruct (loc_set_frame _ _ _ _ _ _ H) as (Hn & Ho & _).
  split; [done|]. split; [done|].
  revert H. unfold loc_set, loc_setitem.
  destruct (columns df !! c) as [s|].
  - intros [= <-]. simpl. rewrite lookup_insert_eq. eauto.
  - destruct (decide (nrows df = 0)); [done|].
    intros [= <-]. simpl. rewrite lookup_insert_eq. eauto.
Qed.

Lemma loc_set_fixed (m : mask) (c : string) (v : Q) (df : DataFrame)
    (s : series) :
  columns df !! c = Some (mask_assign m v s) →
  loc_set m c v df = (df, Ok ()).
Proof.
  intros H. rewrite (loc_set_present _ _ _ _ _ H).
  rewrite mask_assign_idemp, insert_id by done. by destruct df.
Qed.

Lemma populate_indicators_fixed (ta : IndicatorBank)
    (md : gmap string string) (df d : DataFrame)
    (rsi : series) (m : MACDResult) (b : Bands) (ema10 ema50 : series) :
  populate_indicators ta md df
    = (with_indicators df rsi m b ema10 ema50, Ok ()) →
  nrows d = nrows df →
  (∀ c, c ≠ "enter_long" → c ≠ "exit_long" →
        columns d !! c
        = columns (with_indicators df rsi m b ema10 ema50) !! c) →
  populate_indicators ta md d = (d, Ok ()).
Proof.
  intros Hrun Hn Hd.
  apply populate_indicators_inv in Hrun
    as (close & high & low & rsi' & m' & b' & e10 & e50
        & Hc & Hh & Hl & H1 & H2 & H3 & H4 & H5 & Heq).
  assert (Hcols : ∀ c, columns (with_indicators df rsi' m' b' e10 e50) !! c
                       = columns (with_indicators df rsi m b ema10 ema50)
                           !! c) by (by rewrite Heq).
  assert (Hd' : ∀ c, c ≠ "enter_long" → c ≠ "exit_long" →
                     columns d !! c
                     = columns (with_indicators df rsi' m' b' e10 e50) !! c).
  { intros c G1 G2. by rewrite Hcols, Hd. }
  clear Hd Hcols Heq.
  rewrite (populate_indicators_ok ta md d close high low rsi' m' b' e10 e50);
    try done.
  - f_equal. unfold with_indicators, with_bands, with_macd, with_rsi.
    repeat (rewrite (setitem_id d);
            [|rewrite Hd' by done; rewrite Hn; by lookup_columns]).
    done.
  - rewrite Hd' by done. by lookup_columns.
  - rewrite Hd' by done. by lookup_columns.
  - rewrite Hd' by done. by lookup_columns.
Qed.

(** Claim C9. [populate_indicators] stores the 50-period EMA of the close
    prices in column [ema50]; two frames that differ in that column only
    get the same [enter_long] column and the same [exit_long] column, and
    each rule raises on the one iff it raises on the other. *)
Theorem ema50_computed_but_unused (ta : IndicatorBank)
    (md : gmap string string) (df df1 df' : DataFrame) :
  populate_indicators ta md df = (df1, Ok ()) →
  nrows df' = nrows df1 →
  (∀ c, c ≠ "ema50" → columns df' !! c = columns df1 !! c) →
  (∃ close ema50,
      columns df !! "close" = Some close
      ∧ EMA ta close 50 = Ok ema50
      ∧ columns df1 !! "ema50" = Some (reindex (nrows df) ema50))
  ∧ (populate_entry_trend md df').2 = (populate_entry_trend md df1).2
  ∧ columns (populate_entry_trend md df').1 !! "enter_long"
    = columns (populate_entry_trend md df1).1 !! "enter_long"
  ∧ (populate_exit_trend md df').2 = (populate_exit_trend md df1).2
  ∧ columns (populate_exit_trend md df').1 !! "exit_long"
    = columns (populate_exit_trend md df1).1 !! "exit_long".
Proof.
  intros Hrun Hn Hc. split.
  - apply populate_indicators_inv in Hrun
      as (close & high & low & rsi & m & b & e10 & e50
          & Hclose & _ & _ & _ & _ & _ & _ & H50 & ->).
    exists close, e50. split; [done|]. split; [done|]. by lookup_columns.
  - destruct (populate_entry_trend_agree md df' df1 Hn Hc) as [-> ->].
    by destruct (populate_exit_trend_agree md df' df1 Hn Hc) as [-> ->].
Qed.

(** ** Running the pipeline again *)

Lemma analyze_inv (ta : IndicatorBank) (md : gmap string string)
    (df df' : DataFrame) :
  analyze ta md df = (df', Ok ()) →
  ∃ d1 d2,
    populate_indicators ta md df = (d1, Ok ())
    ∧ populate_entry_trend md d1 = (d2, Ok ())
    ∧ populate_exit_trend md d2 = (df', Ok ()).
Proof.
  unfold analyze, mbind, frame_bind.
  destruct (populate_indicators ta md df) as [d1 [[]|e]]; [|done].
  destruct (populate_entry_trend md d1) as [d2 [[]|e]] eqn:HE; [|done].
  intros H. by exists d1, d2.
Qed.

Lemma analyze_ok (ta : IndicatorBank) (md : gmap string string)
    (df d1 d2 d3 : DataFrame) :
  populate_indicators ta md df = (d1, Ok ()) →
  populate_entry_trend md d1 = (d2, Ok ()) →
  populate_exit_trend md d2 = (d3, Ok ()) →
  analyze ta md df = (d3, Ok ()).
Proof.
  intros H1 H2 H3. unfold analyze, mbind, frame_bind.
  by rewrite H1, H2, H3.
Qed.

(** Claim C8. A run of the pipeline that succeeded is reproduced exactly:
    run again on the same input (whatever the metadata), it ends in the
    same frame; and run on the frame it has just mutated, it leaves that
    frame as it is. Nothing but the frame and the library functions, taken
    as functions, enters the result. *)
Theorem analyze_reproducible (ta : IndicatorBank)
    (md md' : gmap string string) (df df' : DataFrame) :
  analyze ta md df = (df', Ok ()) →
  analyze ta md' df = (df', Ok ())
  ∧ analyze ta md' df' = (df', Ok ()).
Proof.
  intros Hrun. split; [exact Hrun|].
  apply analyze_inv in Hrun as (d1 & d2 & HP & HE & HX).
  pose proof HP as HP'.
  apply populate_indicators_inv in HP'
    as (close & high & low & rsi & m & b & e10 & e50
        & _ & _ & _ & _ & _ & _ & _ & _ & ->).
  destruct (populate_entry_trend_inv _ _ _ _ HE)
    as [[_ [e ?]]|(ersi & emacd & esig & eclose & eema & evol
                   & E1 & E2 & E3 & E4 & E5 & E6 & Eset)]; [done|].
  destruct (populate_exit_trend_inv _ _ _ _ HX)
    as [[_ [e ?]]|(xrsi & xclose & xbb & xmacd & xsig
                   & X1 & X2 & X3 & X4 & X5 & Xset)]; [done|].
  apply loc_set_ok in Eset as (En & Eother & s & Es).
  apply loc_set_ok in Xset as (Xn & Xother & t & Xt).
  apply (analyze_ok ta md' df' df' df' df').
  - apply (populate_indicators_fixed ta md' df df' rsi m b e10 e50).
    + exact HP.
    + rewrite Xn, En. by lookup_columns.
    + intros c G1 G2. by rewrite Xother, Eother.
  - rewrite (populate_entry_trend_run md' df' ersi emacd esig eclose eema
               evol) by (by rewrite Xother, Eother).
    apply (loc_set_fixed _ _ _ _ s). by rewrite Xother.
  - rewrite (populate_exit_trend_run md' df' xrsi xclose xbb xmacd xsig)
      by (by rewrite Xother).
    by apply (loc_set_fixed _ _ _ _ t).
Qed.

(** ** Undefined operands *)

Lemma crossed_above_operands (A B : series) (i : nat) :
  mask_at (crossed_above A B) i = true →
  at_row A i ≠ NaN ∧ at_row (shift1 A) i ≠ NaN
  ∧ at_row B i ≠ NaN ∧ at_row (shift1 B) i ≠ NaN.
Proof.
  unfold crossed_above.
  rewrite mask_at_and, mask_at_series_gt, mask_at_series_le.
  rewrite andb_true_iff, cell_gt_true, cell_le_true.
  intros [(y & x & HB & HA & _) (x' & y' & HA' & HB' & _)].
  rewrite HA, HB, HA', HB'. done.
Qed.

Lemma crossed_above_scalar_operands (s : series) (c : Q) (i : nat) :
  mask_at (crossed_above_scalar s c) i = true →
  at_row s i ≠ NaN ∧ at_row (shift1 s) i ≠ NaN.
Proof.
  intros H. apply crossed_above_operands in H as (H1 & H2 & _). done.
Qed.

Lemma crossed_below_operands (A B : series) (i : nat) :
  mask_at (crossed_below A B) i = true →
  at_row A i ≠ NaN ∧ at_row (shift1 A) i ≠ NaN
  ∧ at_row B i ≠ NaN ∧ at_row (shift1 B) i ≠ NaN.
Proof.
  rewrite crossed_below_above. intros H.
  apply crossed_above_operands in H. tauto.
Qed.

Lemma cell_gt_operands (a b : cell) :
  cell_gt a b = true → a ≠ NaN ∧ b ≠ NaN.
Proof. by destruct a, b. Qed.

Lemma entry_condition_operands
    (rsi macd macdsignal close ema10 volume : series) (i : nat) :
  NaN ∈ [at_row rsi i; at_row (shift1 rsi) i; at_row macd i;
         at_row macdsignal i; at_row close i; at_row ema10 i;
         at_row volume i] →
  mask_at (entry_condition rsi macd macdsignal close ema10 volume) i = false.
Proof.
  intros Hnan. apply not_true_is_false. unfold entry_condition.
  rewrite !mask_at_and, !andb_true_iff, !mask_at_series_gt,
    mask_at_series_gt_scalar.
  intros [[[Hx Hm] Hc] Hv].
  apply crossed_above_scalar_operands in Hx as [? ?].
  apply cell_gt_operands in Hm as [? ?].
  apply cell_gt_operands in Hc as [? ?].
  apply cell_gt_operands in Hv as [? _].
  repeat (apply elem_of_cons in Hnan as [Hnan|Hnan]; [done|]).
  by apply elem_of_nil in Hnan.
Qed.

Lemma exit_condition_operands
    (rsi close bb_upperband macd macdsignal : series) (i : nat) :
  length close = length rsi → length bb_upperband = length rsi →
  length macd = length rsi → length macdsignal = length rsi →
  NaN ∈ [at_row rsi i; at_row (shift1 rsi) i] →
  NaN ∈ [at_row close i; at_row bb_upperband i] →
  NaN ∈ [at_row macd i; at_row (shift1 macd) i; at_row macdsignal i;
         at_row (shift1 macdsignal) i] →
  mask_at (exit_condition rsi close bb_upperband macd macdsignal) i = false.
Proof.
  intros L1 L2 L3 L4 N1 N2 N3. apply not_true_is_false.
  unfold exit_condition. rewrite !mask_at_or, !orb_true_iff.
  - rewrite mask_at_series_gt. intros [[Hx|Hc]|Hm].
    + apply crossed_above_scalar_operands in Hx as [? ?].
      repeat (apply elem_of_cons in N1 as [N1|N1]; [done|]).
      by apply elem_of_nil in N1.
    + apply cell_gt_operands in Hc as [? ?].
      repeat (apply elem_of_cons in N2 as [N2|N2]; [done|]).
      by apply elem_of_nil in N2.
    + apply crossed_below_operands in Hm as (? & ? & ? & ?).
      repeat (apply elem_of_cons in N3 as [N3|N3]; [done|]).
      by apply elem_of_nil in N3.
  - rewrite length_crossed_above_scalar. unfold series_gt.
    rewrite length_zip_with. lia.
  - unfold mask_or at 1. rewrite length_zip_with.
    rewrite length_crossed_above_scalar. unfold series_gt.
    rewrite length_zip_with. rewrite crossed_below_above.
    rewrite length_crossed_above by lia. lia.
Qed.

(** Claim C6, as amended. Neither rule raises on a frame that holds its
    columns. The entry signal is false at every row where an operand of
    the entry rule is NaN. The exit signal is false at every row where
    each of its three alternatives has a NaN operand; an alternative whose
    operands are defined still decides the signal, so
    [close[i] > bb_upperband[i]] gives an exit whatever is undefined in
    the RSI or the MACD. *)
Theorem undefined_operands_and_signals (md : gmap string string)
    (df : DataFrame)
    (rsi macd macdsignal close ema10 volume bb_upperband : series)
    (i : nat) :
  wf df →
  columns df !! "rsi" = Some rsi →
  columns df !! "macd" = Some macd →
  columns df !! "macdsignal" = Some macdsignal →
  columns df !! "close" = Some close →
  columns df !! "ema10" = Some ema10 →
  columns df !! "volume" = Some volume →
  columns df !! "bb_upperband" = Some bb_upperband →
  columns df !! "enter_long" = None →
  columns df !! "exit_long" = None →
  i < nrows df →
  ∃ d1 d2,
    populate_entry_trend md df = (d1, Ok ())
    ∧ populate_exit_trend md df = (d2, Ok ())
    ∧ (NaN ∈ [at_row rsi i; at_row (shift1 rsi) i; at_row macd i;
              at_row macdsignal i; at_row close i; at_row ema10 i;
              at_row volume i] →
       signal d1 "enter_long" i = false)
    ∧ (NaN ∈ [at_row rsi i; at_row (shift1 rsi) i] →
       NaN ∈ [at_row close i; at_row bb_upperband i] →
       NaN ∈ [at_row macd i; at_row (shift1 macd) i; at_row macdsignal i;
              at_row (shift1 macdsignal) i] →
       signal d2 "exit_long" i = false)
    ∧ (defined_lt (at_row bb_upperband i) (at_row close i) →
       signal d2 "exit_long" i = true).
Proof.
  intros Hwf H1 H2 H3 H4 H5 H6 H7 Hne Hnx Hi.
  rewrite (populate_entry_trend_run md df _ _ _ _ _ _ H1 H2 H3 H4 H5 H6).
  rewrite (populate_exit_trend_run md df _ _ _ _ _ H1 H4 H7 H2 H3).
  destruct (signal_loc_set_fresh df
              (entry_condition rsi macd macdsignal close ema10 volume)
              "enter_long" i Hne Hi) as (d1 & Hrun1 & Hsig1).
  destruct (signal_loc_set_fresh df
              (exit_condition rsi close bb_upperband macd macdsignal)
              "exit_long" i Hnx Hi) as (d2 & Hrun2 & Hsig2).
  exists d1, d2. split; [done|]. split; [done|].
  rewrite Hsig1, Hsig2.
  pose proof (Hwf _ _ H1) as L1. pose proof (Hwf _ _ H2) as L2.
  pose proof (Hwf _ _ H3) as L3. pose proof (Hwf _ _ H4) as L4.
  pose proof (Hwf _ _ H7) as L7.
  split; [apply entry_condition_operands|].
  split; [apply exit_condition_operands; lia|].
  intros Hgt. apply exit_condition_at; [lia..|]. tauto.
Qed.

(** ** The range of the RSI *)

Lemma Qof_nat_nonneg (n : nat) : (0 <= Qof_nat n)%Q.
Proof. unfold Qof_nat, Qle. simpl. lia. Qed.

Lemma nonneg_gain (d : cell) : nonneg (gain d).
Proof.
  intros x. destruct d as [y|]; [|done]. intros [= <-]. apply Q.le_max_r.
Qed.

Lemma nonneg_loss (d : cell) : nonneg (loss d).
Proof.
  intros x. destruct d as [y|]; [|done]. intros [= <-]. apply Q.le_max_r.
Qed.

Lemma nonneg_add (a b : cell) : nonneg a → nonneg b → nonneg (cell_add a b).
Proof.
  intros Ha Hb x. destruct a as [p|], b as [q|]; try done.
  intros [= <-]. specialize (Ha p eq_refl). specialize (Hb q eq_refl). lra.
Qed.

Lemma nonneg_mul (a b : cell) : nonneg a → nonneg b → nonneg (cell_mul a b).
Proof.
  intros Ha Hb x. destruct a as [p|], b as [q|]; try done.
  intros [= <-]. apply Qmult_le_0_compat; eauto.
Qed.

Lemma Qdiv_nonneg (p q : Q) : (0 <= p)%Q → (0 <= q)%Q → (0 <= p / q)%Q.
Proof.
  intros Hp Hq. unfold Qdiv. apply Qmult_le_0_compat; [done|].
  by apply Qinv_le_0_compat.
Qed.

Lemma nonneg_div (a b : cell) : nonneg a → nonneg b → nonneg (cell_div a b).
Proof.
  intros Ha Hb x. destruct a as [p|], b as [q|]; try done.
  intros [= <-]. apply Qdiv_nonneg; eauto.
Qed.

Lemma nonneg_Some (q : Q) : (0 <= q)%Q → nonneg (Some q).
Proof. by intros H x [= <-]. Qed.

Lemma nonneg_total (xs : series) : Forall nonneg xs → nonneg (total xs).
Proof.
  induction 1 as [|c xs Hc _ IH]; simpl.
  - by apply nonneg_Some.
  - by apply nonneg_add.
Qed.

Lemma nonneg_mean (xs : series) : Forall nonneg xs → nonneg (mean xs).
Proof.
  intros H. apply nonneg_div; [by apply nonneg_total|].
  apply nonneg_Some, Qof_nat_nonneg.
Qed.

Lemma nonneg_wilder_step (period : nat) (avg x : cell) :
  nonneg avg → nonneg x → nonneg (wilder_step period avg x).
Proof.
  intros Ha Hx. unfold wilder_step. apply nonneg_div.
  - apply nonneg_add; [|done]. apply nonneg_mul; [done|].
    apply nonneg_Some, Qof_nat_nonneg.
  - apply nonneg_Some, Qof_nat_nonneg.
Qed.

Lemma percent_rsi_value (g l : cell) :
  nonneg g → nonneg l → percent (rsi_value g l).
Proof.
  intros Hg Hl v. destruct g as [g|], l as [l|]; try done. simpl.
  specialize (Hg g eq_refl). specialize (Hl l eq_refl).
  destruct (Qeq_bool l 0) eqn:E.
  - intros [= <-]. lra.
  - intros [= <-]. apply Qeq_bool_neq in E.
    assert (0 < l)%Q as Hpos.
    { apply Qlt_leneq. split; [done|]. intros H. apply E. by symmetry. }
    assert (0 <= g / l)%Q as Hr by (by apply Qdiv_nonneg).
    assert (0 < 1 + g / l)%Q as Hden by lra.
    assert (0 <= 100 / (1 + g / l))%Q as H1.
    { apply Qdiv_nonneg; lra. }
    assert (100 / (1 + g / l) <= 100)%Q as H2.
    { apply Qle_shift_div_r; [done|]. lra. }
    lra.
Qed.

Lemma percent_wilder (period : nat) (ds : series) (g l : cell) :
  nonneg g → nonneg l → Forall percent (wilder period g l ds).
Proof.
  revert g l. induction ds as [|d ds IH]; intros g l Hg Hl; simpl.
  - constructor.
  - pose proof (nonneg_wilder_step period g (gain d) Hg (nonneg_gain d)).
    pose proof (nonneg_wilder_step period l (loss d) Hl (nonneg_loss d)).
    constructor; [by apply percent_rsi_value|by apply IH].
Qed.

Lemma percent_nan : percent NaN.
Proof. by intros x. Qed.

Lemma percent_rsi (period : nat) (s : series) : Forall percent (rsi period s).
Proof.
  unfold rsi. destruct (decide _) as [_|_].
  - apply Forall_replicate, percent_nan.
  - assert (∀ f, (∀ d, nonneg (f d)) →
                 nonneg (mean (f <$> take period (diffs s)))) as Hmean.
    { intros f Hf. apply nonneg_mean, Forall_fmap, Forall_forall.
      intros d _. apply Hf. }
    apply Forall_app. split; [apply Forall_replicate, percent_nan|].
    constructor.
    + apply percent_rsi_value; apply Hmean; [apply nonneg_gain|apply nonneg_loss].
    + apply percent_wilder; apply Hmean; [apply nonneg_gain|apply nonneg_loss].
Qed.

(** Claim C7. Every defined value of the RSI series lies in [0, 100],
    for every input series and every period the indicator accepts. *)
Theorem rsi_in_range (closes s : series) (period i : nat) (v : Q) :
  spec_RSI closes period = Ok s → at_row s i = Some v → (0 <= v <= 100)%Q.
Proof.
  unfold spec_RSI, check_input, mbind, result_bind.
  destruct (decide _); [done|]. intros [= <-] Hv.
  pose proof (percent_rsi period closes) as Hall.
  unfold at_row in Hv.
  destruct (rsi period closes !! i) as [c|] eqn:E; [|done].
  simpl in Hv. subst c.
  by apply (Forall_lookup_1 _ _ _ _ Hall E).
Qed.

(** ** Well-formed frames *)

Lemma at_row_app_nan (s : series) (k i : nat) :
  at_row (s ++ replicate k NaN) i = at_row s i.
Proof.
  unfold at_row. destruct (decide (i < length s)) as [Hi|Hi].
  - by rewrite lookup_app_l.
  - rewrite lookup_app_r by lia. rewrite (lookup_ge_None_2 s) by lia.
    fold (at_row (replicate k NaN) (i - length s)).
    apply at_row_replicate_nan.
Qed.

Lemma length_reindex (n : nat) (s : series) : length (reindex n s) = n.
Proof.
  unfold reindex. rewrite length_take, length_app, length_replicate. lia.
Qed.

Lemma at_row_reindex (n : nat) (s : series) (i : nat) :
  at_row (reindex n s) i = if decide (i < n) then at_row s i else NaN.
Proof.
  unfold reindex. destruct (decide (i < n)) as [Hi|Hi].
  - rewrite <- (at_row_app_nan s (n - length s) i). unfold at_row.
    rewrite lookup_take. by destruct (decide (i < n)).
  - apply at_row_ge. fold (reindex n s). rewrite length_reindex. lia.
Qed.

Lemma wf_setitem (df : DataFrame) (c : string) (s : series) :
  wf df → wf (setitem df c s).
Proof.
  intros Hwf c' s'. unfold setitem. simpl.
  rewrite lookup_insert. destruct (decide (c = c')) as [->|Hne].
  - intros [= <-]. apply length_reindex.
  - apply Hwf.
Qed.

Lemma wf_with_indicators (df : DataFrame) (rsi : series) (m : MACDResult)
    (b : Bands) (ema10 ema50 : series) :
  wf df → wf (with_indicators df rsi m b ema10 ema50).
Proof.
  intros H. unfold with_indicators, with_bands, with_macd, with_rsi.
  by repeat apply wf_setitem.
Qed.

Lemma wf_loc_set (m : mask) (c : string) (v : Q) (df df' : DataFrame)
    (r : result unit) :
  wf df → loc_set m c v df = (df', r) → wf df'.
Proof.
  intros Hwf. unfold loc_set, loc_setitem.
  destruct (columns df !! c) as [s|] eqn:Hc.
  - intros [= <- <-] c' s'. simpl. rewrite lookup_insert.
    destruct (decide (c = c')) as [->|Hne]; [|apply Hwf].
    intros [= <-]. rewrite length_mask_assign. by apply (Hwf c').
  - destruct (decide (nrows df = 0)); [by intros [= <- <-]|].
    intros [= <- <-] c' s'. simpl. rewrite lookup_insert.
    destruct (decide (c = c')) as [->|Hne]; [|apply Hwf].
    intros [= <-]. by rewrite length_mask_assign, length_replicate.
Qed.

Lemma columns_frame_of_candles (cs : list Candle) (c : string) :
  columns (frame_of_candles cs) !! c
  = if decide (c = "timestamp") then Some (column_of timestamp cs)
    else if decide (c = "open") then Some (column_of open cs)
    else if decide (c = "high") then Some (column_of high cs)
    else if decide (c = "low") then Some (column_of low cs)
    else if decide (c = "close") then Some (column_of close cs)
    else if decide (c = "volume") then Some (column_of volume cs)
    else None.
Proof.
  unfold frame_of_candles. simpl.
  repeat (rewrite lookup_insert; destruct (decide (_ = c)) as [<-|?];
          [done|]).
  rewrite lookup_empty. by repeat (destruct (decide _) as [->|_]; [done|]).
Qed.

Lemma length_column_of (f : Candle → Q) (cs : list Candle) :
  length (column_of f cs) = length cs.
Proof. unfold column_of. apply length_fmap. Qed.

Lemma wf_frame_of_candles (cs : list Candle) : wf (frame_of_candles cs).
Proof.
  intros c s. rewrite columns_frame_of_candles.
  repeat (destruct (decide _); [intros [= <-]; apply length_column_of|]).
  done.
Qed.

(** ** The rules on an evaluated candle series *)

Ltac candle_cols :=
  lookup_columns; rewrite ?columns_frame_of_candles; done.

Lemma analyze_candles_ok (ta : IndicatorBank) (md : gmap string string)
    (cs : list Candle) (d1 : DataFrame) :
  cs ≠ [] →
  populate_indicators ta md (frame_of_candles cs) = (d1, Ok ()) →
  ∃ d2 d3,
    populate_entry_trend md d1 = (d2, Ok ())
    ∧ populate_exit_trend md d2 = (d3, Ok ())
    ∧ analyze ta md (frame_of_candles cs) = (d3, Ok ())
    ∧ wf d1 ∧ nrows d1 = length cs
    ∧ columns d1 !! "enter_long" = None
    ∧ columns d1 !! "exit_long" = None.
Proof.
  intros Hcs HP. pose proof HP as HP'.
  apply populate_indicators_inv in HP'
    as (close & high & low & rsi & m & b & e10 & e50
        & _ & _ & _ & _ & _ & _ & _ & _ & ->).
  set (d1 := with_indicators (frame_of_candles cs) rsi m b e10 e50) in *.
  assert (wf d1) as Hwf by apply wf_with_indicators, wf_frame_of_candles.
  assert (nrows d1 = length cs) as Hn by done.
  assert (0 < nrows d1) as Hrows.
  { rewrite Hn. destruct cs; [done|simpl; lia]. }
  assert (columns d1 !! "enter_long" = None) as Hne
    by (unfold d1; candle_cols).
  assert (columns d1 !! "exit_long" = None) as Hnx
    by (unfold d1; candle_cols).
  edestruct (populate_entry_trend_succeeds md d1) as (d2 & HE);
    [unfold d1; candle_cols..|exact Hne|exact Hrows|].
  destruct (populate_entry_trend_inv _ _ _ _ HE)
    as [[_ [e ?]]|(ersi & emacd & esig & eclose & eema & evol
                   & E1 & E2 & E3 & E4 & E5 & E6 & Eset)]; [done|].
  apply loc_set_ok in Eset as (En & Eother & _).
  edestruct (populate_exit_trend_succeeds md d2) as (d3 & HX);
    [rewrite Eother by done; unfold d1; candle_cols..
    |rewrite En; exact Hrows|].
  exists d2, d3. repeat (split; [done|]). split; [|done].
  by apply (analyze_ok _ _ _ d1 d2 d3).
Qed.

(** Claim C1. For a non-empty candle series on which the indicator
    library succeeds, the evaluation succeeds and, at every index [i] of
    the series, [enter_long] is 1 exactly when the RSI crosses above 30
    at [i] and [macd[i] > macdsignal[i]] and [close[i] > ema10[i]] and
    [volume[i] > 0]. *)
Theorem entry_signal_iff (ta : IndicatorBank) (md : gmap string string)
    (cs : list Candle) (d1 : DataFrame) :
  cs ≠ [] →
  populate_indicators ta md (frame_of_candles cs) = (d1, Ok ()) →
  ∃ df',
    analyze ta md (frame_of_candles cs) = (df', Ok ())
    ∧ ∀ i, i < length cs →
        (signal df' "enter_long" i = true
         ↔ crosses_above (cell_of df' "rsi") (λ _, Some 30%Q) i
           ∧ defined_lt (cell_of df' "macdsignal" i) (cell_of df' "macd" i)
           ∧ defined_lt (cell_of df' "ema10" i) (cell_of df' "close" i)
           ∧ defined_lt (Some 0%Q) (cell_of df' "volume" i)).
Proof.
  intros Hcs HP.
  destruct (analyze_candles_ok ta md cs d1 Hcs HP)
    as (d2 & d3 & HE & HX & Hrun & Hwf & Hn & Hne & Hnx).
  exists d3. split; [done|]. intros i Hi.
  destruct (populate_entry_trend_inv _ _ _ _ HE)
    as [[_ [e ?]]|(rsi & macd & sg & close & ema10 & volume
                   & E1 & E2 & E3 & E4 & E5 & E6 & Eset)]; [done|].
  destruct (populate_exit_trend_inv _ _ _ _ HX)
    as [[_ [e ?]]|(xrsi & xclose & xbb & xmacd & xsig
                   & _ & _ & _ & _ & _ & Xset)]; [done|].
  destruct (loc_set_frame _ _ _ _ _ _ Eset) as (_ & Eother & _).
  destruct (loc_set_frame _ _ _ _ _ _ Xset) as (_ & Xother & _).
  assert (Hcol : ∀ c s, c ≠ "enter_long" → c ≠ "exit_long" →
                        columns d1 !! c = Some s →
                        cell_of d3 c = at_row s).
  { intros c s G1 G2 Hc. unfold cell_of.
    by rewrite Xother, Eother, Hc by done. }
  rewrite (Hcol "rsi" _ ltac:(done) ltac:(done) E1),
    (Hcol "macd" _ ltac:(done) ltac:(done) E2),
    (Hcol "macdsignal" _ ltac:(done) ltac:(done) E3),
    (Hcol "close" _ ltac:(done) ltac:(done) E4),
    (Hcol "ema10" _ ltac:(done) ltac:(done) E5),
    (Hcol "volume" _ ltac:(done) ltac:(done) E6).
  rewrite <- entry_condition_at.
  destruct (signal_loc_set_fresh d1
              (entry_condition rsi macd sg close ema10 volume)
              "enter_long" i Hne ltac:(lia)) as (d2' & Hrun2 & <-).
  rewrite Eset in Hrun2. injection Hrun2 as <-.
  unfold signal. by rewrite Xother.
Qed.

(** Claim C2. For a non-empty candle series on which the indicator
    library succeeds, the evaluation succeeds and, at every index [i] of
    the series, [exit_long] is 1 exactly when the RSI crosses above 70 at
    [i], or [close[i] > bb_upperband[i]], or [macd] crosses below
    [macdsignal] at [i]; in particular [close[i] > bb_upperband[i]]
    alone gives the signal. *)
Theorem exit_signal_iff (ta : IndicatorBank) (md : gmap string string)
    (cs : list Candle) (d1 : DataFrame) :
  cs ≠ [] →
  populate_indicators ta md (frame_of_candles cs) = (d1, Ok ()) →
  ∃ df',
    analyze ta md (frame_of_candles cs) = (df', Ok ())
    ∧ ∀ i, i < length cs →
        (signal df' "exit_long" i = true
         ↔ crosses_above (cell_of df' "rsi") (λ _, Some 70%Q) i
           ∨ defined_lt (cell_of df' "bb_upperband" i)
                        (cell_of df' "close" i)
           ∨ crosses_below (cell_of df' "macd") (cell_of df' "macdsignal") i)
        ∧ (defined_lt (cell_of df' "bb_upperband" i) (cell_of df' "close" i)
           → signal df' "exit_long" i = true).
Proof.
  intros Hcs HP.
  destruct (analyze_candles_ok ta md cs d1 Hcs HP)
    as (d2 & d3 & HE & HX & Hrun & Hwf & Hn & Hne & Hnx).
  exists d3. split; [done|]. intros i Hi.
  destruct (populate_entry_trend_inv _ _ _ _ HE)
    as [[_ [e ?]]|(ersi & emacd & esig & eclose & eema & evol
                   & _ & _ & _ & _ & _ & _ & Eset)]; [done|].
  destruct (populate_exit_trend_inv _ _ _ _ HX)
    as [[_ [e ?]]|(rsi & close & bb & macd & sg
                   & X1 & X2 & X3 & X4 & X5 & Xset)]; [done|].
  pose proof (wf_loc_set _ _ _ _ _ _ Hwf Eset) as Hwf2.
  destruct (loc_set_frame _ _ _ _ _ _ Eset) as (En & Eother & _).
  destruct (loc_set_frame _ _ _ _ _ _ Xset) as (_ & Xother & _).
  assert (Hcol : ∀ c s, c ≠ "exit_long" → columns d2 !! c = Some s →
                        cell_of d3 c = at_row s).
  { intros c s G Hc. unfold cell_of. by rewrite Xother, Hc by done. }
  rewrite (Hcol "rsi" _ ltac:(done) X1), (Hcol "close" _ ltac:(done) X2),
    (Hcol "bb_upperband" _ ltac:(done) X3), (Hcol "macd" _ ltac:(done) X4),
    (Hcol "macdsignal" _ ltac:(done) X5).
  assert (columns d2 !! "exit_long" = None) as Hnx2
    by (by rewrite Eother).
  destruct (signal_loc_set_fresh d2
              (exit_condition rsi close bb macd sg)
              "exit_long" i Hnx2 ltac:(lia)) as (d3' & Hrun3 & Hsig).
  rewrite Xset in Hrun3. injection Hrun3 as <-.
  rewrite Hsig.
  pose proof (exit_condition_at rsi close bb macd sg i) as Hat.
  rewrite Hat by (rewrite (Hwf2 _ _ X1); eauto).
  split; [done|]. tauto.
Qed.

(** ** The Indicator Bank of the spec on a non-empty series *)

Lemma check_input_ok (s : series) (periods : list nat) :
  s ≠ [] → Forall (lt 0) periods → check_input s periods = Ok ().
Proof.
  intros Hs Hp. unfold check_input.
  destruct (decide _) as [[?|H0]|_]; [done| |done].
  rewrite Forall_forall in Hp. apply Hp in H0. lia.
Qed.

Section SpecBank.
Variable sqrtQ : Q → Q.

Lemma spec_RSI_ok (s : series) :
  s ≠ [] → RSI (bank sqrtQ) s RSI_timeperiod = Ok (rsi RSI_timeperiod s).
Proof.
  intros Hs. simpl. unfold spec_RSI. rewrite check_input_ok; [done..|].
  unfold RSI_timeperiod. repeat constructor; lia.
Qed.

Lemma spec_EMA_ok (s : series) (period : nat) :
  s ≠ [] → 0 < period → EMA (bank sqrtQ) s period = Ok (ema period s).
Proof.
  intros Hs Hp. simpl. unfold spec_EMA. rewrite check_input_ok; [done..|].
  by repeat constructor.
Qed.

Lemma spec_MACD_ok (s : series) :
  s ≠ [] →
  MACD (bank sqrtQ) s MACD_fastperiod MACD_slowperiod MACD_signalperiod
  = Ok (macd_of MACD_fastperiod MACD_slowperiod MACD_signalperiod s).
Proof.
  intros Hs. simpl. unfold spec_MACD. rewrite check_input_ok; [done..|].
  unfold MACD_fastperiod, MACD_slowperiod, MACD_signalperiod.
  repeat constructor; lia.
Qed.

Lemma spec_bollinger_ok (tp : series) :
  tp ≠ [] →
  bollinger_bands (bank sqrtQ) tp 20 2%Q = Ok (bands_of sqrtQ 20 2%Q tp).
Proof.
  intros Hs. simpl. unfold spec_bollinger_bands.
  rewrite check_input_ok; [done..|]. repeat constructor; lia.
Qed.
End SpecBank.

Lemma length_typical (high low close : series) :
  length high = length close → length low = length close →
  length (typical high low close) = length close.
Proof.
  intros H1 H2. unfold typical.
  rewrite length_fmap, !length_zip_with. lia.
Qed.

Lemma column_of_nonempty (f : Candle → Q) (cs : list Candle) :
  cs ≠ [] → column_of f cs ≠ [].
Proof. by destruct cs. Qed.

Ltac spec_cols :=
  unfold spec_frame; lookup_columns;
  rewrite ?columns_frame_of_candles; done.

Section SpecPipeline.
Variable sqrtQ : Q → Q.
Variable md : gmap string string.

Lemma populate_indicators_spec (cs : list Candle) :
  cs ≠ [] →
  populate_indicators (bank sqrtQ) md (frame_of_candles cs)
  = (spec_frame sqrtQ cs, Ok ()).
Proof.
  intros Hcs. unfold spec_frame.
  apply (populate_indicators_ok _ _ _ (column_of close cs)
           (column_of high cs) (column_of low cs)).
  - by rewrite columns_frame_of_candles.
  - by rewrite columns_frame_of_candles.
  - by rewrite columns_frame_of_candles.
  - by apply spec_RSI_ok, column_of_nonempty.
  - by apply spec_MACD_ok, column_of_nonempty.
  - apply spec_bollinger_ok. intros Hnil.
    apply (f_equal length) in Hnil.
    rewrite length_typical in Hnil by (by rewrite !length_column_of).
    rewrite length_column_of in Hnil. by destruct cs.
  - apply spec_EMA_ok; [by apply column_of_nonempty|lia].
  - apply spec_EMA_ok; [by apply column_of_nonempty|lia].
Qed.

End SpecPipeline.

(** ** Validation and warm-up *)

Lemma populate_indicators_columns (ta : IndicatorBank)
    (md : gmap string string) (df d1 : DataFrame) (c : string) :
  populate_indicators ta md df = (d1, Ok ()) →
  c ∈ indicator_columns → is_Some (columns d1 !! c).
Proof.
  intros HP Hc.
  apply populate_indicators_inv in HP
    as (close & high & low & rsi & m & b & e10 & e50
        & _ & _ & _ & _ & _ & _ & _ & _ & ->).
  unfold indicator_columns in Hc.
  repeat (apply elem_of_cons in Hc as [->|Hc];
          [eexists; by lookup_columns|]).
  by apply elem_of_nil in Hc.
Qed.

Lemma populate_entry_trend_no_rows (md : gmap string string)
    (df : DataFrame) :
  nrows df = 0 →
  (∀ c, c ∈ entry_columns → is_Some (columns df !! c)) →
  columns df !! "enter_long" = None →
  populate_entry_trend md df = (df, Err ValueError).
Proof.
  intros Hn Hcols Hnew. unfold entry_columns in Hcols.
  destruct (Hcols "rsi") as [rsi H1]; [set_solver|].
  destruct (Hcols "macd") as [macd H2]; [set_solver|].
  destruct (Hcols "macdsignal") as [sg H3]; [set_solver|].
  destruct (Hcols "close") as [close H4]; [set_solver|].
  destruct (Hcols "ema10") as [ema10 H5]; [set_solver|].
  destruct (Hcols "volume") as [volume H6]; [set_solver|].
  rewrite (populate_entry_trend_run md df _ _ _ _ _ _ H1 H2 H3 H4 H5 H6).
  unfold loc_set, loc_setitem. rewrite Hnew.
  by rewrite decide_True.
Qed.

(** Claim C3, as amended. The strategy validates nothing before it
    computes; what a full evaluation raises is decided by the libraries.
    For every candle series on which the calls of the indicator library
    succeed, the nine indicator columns are written; a non-empty series
    is then evaluated without an error, whatever its timestamps and
    volumes; on the empty series the entry rule raises ValueError (pandas
    refuses to create a column in a frame without rows) and the frame
    keeps the nine columns. An error of the indicator library ends the
    evaluation as it is raised, with the columns written before it. The
    periods are constants of the strategy: libraries that agree at the
    periods 14, 12/26/9, 20, 10 and 50 give the same
    [populate_indicators]. *)
Theorem evaluation_validates_nothing (ta : IndicatorBank)
    (md : gmap string string) (cs : list Candle) :
  (∀ d1, populate_indicators ta md (frame_of_candles cs) = (d1, Ok ()) →
     (∀ c, c ∈ indicator_columns → is_Some (columns d1 !! c))
     ∧ (cs ≠ [] →
        ∃ df', analyze ta md (frame_of_candles cs) = (df', Ok ()))
     ∧ (cs = [] →
        analyze ta md (frame_of_candles cs) = (d1, Err ValueError)))
  ∧ (∀ d1 e, populate_indicators ta md (frame_of_candles cs) = (d1, Err e) →
             analyze ta md (frame_of_candles cs) = (d1, Err e))
  ∧ (∀ ta' df,
       (∀ s, RSI ta' s RSI_timeperiod = RSI ta s RSI_timeperiod) →
       (∀ s, MACD ta' s MACD_fastperiod MACD_slowperiod MACD_signalperiod
             = MACD ta s MACD_fastperiod MACD_slowperiod MACD_signalperiod) →
       (∀ s, bollinger_bands ta' s 20 2%Q = bollinger_bands ta s 20 2%Q) →
       (∀ s, EMA ta' s 10 = EMA ta s 10) →
       (∀ s, EMA ta' s 50 = EMA ta s 50) →
       populate_indicators ta' md df = populate_indicators ta md df).
Proof.
  split; [|split].
  - intros d1 HP. split; [|split].
    + intros c Hc. by eapply populate_indicators_columns.
    + intros Hcs.
      destruct (analyze_candles_ok ta md cs d1 Hcs HP)
        as (d2 & d3 & _ & _ & Hrun & _).
      by exists d3.
    + intros ->. unfold analyze, mbind, frame_bind. rewrite HP.
      apply populate_indicators_inv in HP
        as (close & high & low & rsi & m & b & e10 & e50
            & _ & _ & _ & _ & _ & _ & _ & _ & ->).
      rewrite populate_entry_trend_no_rows; [done|done| |].
      * intros c Hc. unfold entry_columns in Hc.
        repeat (apply elem_of_cons in Hc as [->|Hc];
                [eexists; lookup_columns;
                 rewrite ?columns_frame_of_candles; done|]).
        by apply elem_of_nil in Hc.
      * lookup_columns. by rewrite columns_frame_of_candles.
  - intros d1 e HP. unfold analyze, mbind, frame_bind. by rewrite HP.
  - intros ta' df H1 H2 H3 H4 H5.
    rewrite !populate_indicators_unfold.
    destruct (columns df !! "close") as [close|]; [|done].
    rewrite H1, H2, H4, H5.
    destruct (RSI ta close RSI_timeperiod); [|done].
    destruct (MACD ta close _ _ _); [|done].
    destruct (columns df !! "high") as [high|]; [|done].
    destruct (columns df !! "low") as [low|]; [|done].
    by rewrite H3.
Qed.

Lemma cell_of_with_indicators (df : DataFrame) (rsi : series)
    (m : MACDResult) (b : Bands) (ema10 ema50 : series) (i : nat) :
  i < nrows df →
  let d := with_indicators df rsi m b ema10 ema50 in
  cell_of d "rsi" i = at_row rsi i
  ∧ cell_of d "macd" i = at_row (macd m) i
  ∧ cell_of d "macdsignal" i = at_row (macdsignal m) i
  ∧ cell_of d "macdhist" i = at_row (macdhist m) i
  ∧ cell_of d "bb_lowerband" i = at_row (lower b) i
  ∧ cell_of d "bb_middleband" i = at_row (mid b) i
  ∧ cell_of d "bb_upperband" i = at_row (upper b) i
  ∧ cell_of d "ema10" i = at_row ema10 i
  ∧ cell_of d "ema50" i = at_row ema50 i.
Proof.
  intros Hi d. unfold cell_of, d.
  repeat split; lookup_columns; rewrite at_row_reindex;
    by rewrite decide_True.
Qed.

(** Claim C4, as amended. A non-empty candle series on which the
    indicator library answers is evaluated without an error, also when
    it is shorter than the declared 30 candles: [startup_candle_count]
    is not read. In every row each indicator column holds what the
    library returned for that row, so an indicator is NaN only where the
    library leaves it NaN. The entry signal is false in every row where
    [rsi], [macd], [macdsignal] or [ema10] is NaN; the exit signal is
    false in every row where [rsi], [bb_upperband] and one of [macd] and
    [macdsignal] are NaN. *)
Theorem warmup_is_left_to_the_library (ta : IndicatorBank)
    (md : gmap string string) (cs : list Candle) (d1 : DataFrame) :
  cs ≠ [] →
  populate_indicators ta md (frame_of_candles cs) = (d1, Ok ()) →
  ∃ df' rsi m b ema10 ema50,
    analyze ta md (frame_of_candles cs) = (df', Ok ())
    ∧ RSI ta (column_of close cs) RSI_timeperiod = Ok rsi
    ∧ MACD ta (column_of close cs)
           MACD_fastperiod MACD_slowperiod MACD_signalperiod = Ok m
    ∧ bollinger_bands ta
        (typical (column_of high cs) (column_of low cs) (column_of close cs))
        20 2%Q = Ok b
    ∧ EMA ta (column_of close cs) 10 = Ok ema10
    ∧ EMA ta (column_of close cs) 50 = Ok ema50
    ∧ (∀ i, i < length cs →
            cell_of df' "rsi" i = at_row rsi i
            ∧ cell_of df' "macd" i = at_row (macd m) i
            ∧ cell_of df' "macdsignal" i = at_row (macdsignal m) i
            ∧ cell_of df' "macdhist" i = at_row (macdhist m) i
            ∧ cell_of df' "bb_lowerband" i = at_row (lower b) i
            ∧ cell_of df' "bb_middleband" i = at_row (mid b) i
            ∧ cell_of df' "bb_upperband" i = at_row (upper b) i
            ∧ cell_of df' "ema10" i = at_row ema10 i
            ∧ cell_of df' "ema50" i = at_row ema50 i)
    ∧ (∀ i, NaN ∈ [cell_of df' "rsi" i; cell_of df' "macd" i;
                   cell_of df' "macdsignal" i; cell_of df' "ema10" i] →
            signal df' "enter_long" i = false)
    ∧ (∀ i, cell_of df' "rsi" i = NaN →
            cell_of df' "bb_upperband" i = NaN →
            NaN ∈ [cell_of df' "macd" i; cell_of df' "macdsignal" i] →
            signal df' "exit_long" i = false).
Proof.
  intros Hcs HP.
  destruct (analyze_candles_ok ta md cs d1 Hcs HP)
    as (d2 & d3 & HE & HX & Hrun & Hwf & Hn & Hne & Hnx).
  pose proof HP as HP'.
  apply populate_indicators_inv in HP'
    as (close & high & low & rsi & m & b & e10 & e50
        & Hc & Hh & Hl & R1 & R2 & R3 & R4 & R5 & Hd1).
  rewrite columns_frame_of_candles in Hc, Hh, Hl. simpl in Hc, Hh, Hl.
  injection Hc as <-. injection Hh as <-. injection Hl as <-.
  exists d3, rsi, m, b, e10, e50.
  do 6 (split; [done|]).
  destruct (populate_entry_trend_inv _ _ _ _ HE)
    as [[_ [e ?]]|(ersi & emacd & esig & eclose & eema & evol
                   & E1 & E2 & E3 & E4 & E5 & E6 & Eset)]; [done|].
  destruct (populate_exit_trend_inv _ _ _ _ HX)
    as [[_ [e ?]]|(xrsi & xclose & xbb & xmacd & xsig
                   & X1 & X2 & X3 & X4 & X5 & Xset)]; [done|].
  pose proof (wf_loc_set _ _ _ _ _ _ Hwf Eset) as Hwf2.
  destruct (loc_set_frame _ _ _ _ _ _ Eset) as (En & Eother & Erows).
  destruct (loc_set_frame _ _ _ _ _ _ Xset) as (Xn & Xother & Xrows).
  assert (Hcell : ∀ c i, c ≠ "enter_long" → c ≠ "exit_long" →
                         cell_of d3 c i = cell_of d1 c i).
  { intros c i G1 G2. unfold cell_of. by rewrite Xother, Eother. }
  assert (Hcol : ∀ c s, c ≠ "enter_long" → c ≠ "exit_long" →
                        columns d1 !! c = Some s → cell_of d3 c = at_row s).
  { intros c s G1 G2 Hs. unfold cell_of. by rewrite Xother, Eother, Hs. }
  rewrite Eother in X1, X2, X3, X4, X5 by done.
  split; [|split].
  - intros i Hi. rewrite !Hcell by done. rewrite Hd1.
    by apply cell_of_with_indicators.
  - intros i Hnan. rewrite (Hcol "rsi" _ ltac:(done) ltac:(done) E1),
      (Hcol "macd" _ ltac:(done) ltac:(done) E2),
      (Hcol "macdsignal" _ ltac:(done) ltac:(done) E3),
      (Hcol "ema10" _ ltac:(done) ltac:(done) E5) in Hnan.
    apply not_true_is_false. intros Htrue.
    assert (mask_at (entry_condition ersi emacd esig eclose eema evol) i
            = true) as Hmask.
    { destruct (mask_at _ i) eqn:Hm; [done|].
      pose proof (Erows i Hm) as Hcl.
      unfold signal in Htrue. rewrite Xother in Htrue by done.
      unfold cell_of in Hcl. rewrite Hne in Hcl.
      destruct (columns d2 !! "enter_long"); [|done].
      by rewrite Hcl in Htrue. }
    apply entry_condition_at in Hmask
      as ((j & -> & _ & Hx) & Hm & Hc & _).
    destruct Hx as (x & y & _ & Hy & _).
    destruct Hm as (x1 & y1 & Hx1 & Hy1 & _).
    destruct Hc as (x2 & y2 & Hx2 & _ & _).
    repeat (apply elem_of_cons in Hnan as [Hnan|Hnan]; [congruence|]).
    by apply elem_of_nil in Hnan.
  - intros i Hr Hb Hm.
    rewrite (Hcol "rsi" _ ltac:(done) ltac:(done) X1) in Hr.
    rewrite (Hcol "bb_upperband" _ ltac:(done) ltac:(done) X3) in Hb.
    rewrite (Hcol "macd" _ ltac:(done) ltac:(done) X4),
      (Hcol "macdsignal" _ ltac:(done) ltac:(done) X5) in Hm.
    apply not_true_is_false. intros Htrue.
    assert (mask_at (exit_condition xrsi xclose xbb xmacd xsig) i = true)
      as Hmask.
    { destruct (mask_at _ i) eqn:Hmk; [done|].
      pose proof (Xrows i Hmk) as Hcl.
      unfold signal in Htrue. unfold cell_of in Hcl.
      rewrite Eother, Hnx in Hcl by done.
      destruct (columns d3 !! "exit_long"); [|done].
      by rewrite Hcl in Htrue. }
    apply exit_condition_at in Hmask;
      [|rewrite (Hwf _ _ X1); symmetry; eauto using eq_sym..].
    destruct Hmask as [(j & -> & _ & Hx)|[Hgt|(j & -> & _ & Hlt)]].
    + destruct Hx as (x & y & _ & Hy & _). congruence.
    + destruct Hgt as (x & y & Hx & _ & _). congruence.
    + destruct Hlt as (x & y & Hx & Hy & _).
      repeat (apply elem_of_cons in Hm as [Hm|Hm]; [congruence|]).
      by apply elem_of_nil in Hm.
Qed.

(** ** The theorems at sample inputs *)

Import Samples.

Lemma wf_check_sound (df : DataFrame) : wf_check df = true → wf df.
Proof.
  unfold wf_check. rewrite forallb_forall. intros H c s Hc.
  apply Nat.eqb_eq, (H (c, s)), list_elem_of_In, elem_of_map_to_list, Hc.
Qed.

Lemma wf_warmup_frame : wf warmup_frame.
Proof. by apply wf_check_sound. Qed.

Lemma entry_signal_iff_witness :
  ∃ df',
    analyze (bank sqrt9) ∅ (frame_of_candles rebound42) = (df', Ok ())
    ∧ ∀ i, i < length rebound42 →
        (signal df' "enter_long" i = true
         ↔ crosses_above (cell_of df' "rsi") (λ _, Some 30%Q) i
           ∧ defined_lt (cell_of df' "macdsignal" i) (cell_of df' "macd" i)
           ∧ defined_lt (cell_of df' "ema10" i) (cell_of df' "close" i)
           ∧ defined_lt (Some 0%Q) (cell_of df' "volume" i)).
Proof.
  apply (entry_signal_iff (bank sqrt9) ∅ rebound42
           (spec_frame sqrt9 rebound42)).
  - by vm_compute.
  - by apply populate_indicators_spec.
Defined.

Lemma exit_signal_iff_witness :
  ∃ df',
    analyze (bank sqrt9) ∅ (frame_of_candles breakout21) = (df', Ok ())
    ∧ ∀ i, i < length breakout21 →
        (signal df' "exit_long" i = true
         ↔ crosses_above (cell_of df' "rsi") (λ _, Some 70%Q) i
           ∨ defined_lt (cell_of df' "bb_upperband" i)
                        (cell_of df' "close" i)
           ∨ crosses_below (cell_of df' "macd") (cell_of df' "macdsignal") i)
        ∧ (defined_lt (cell_of df' "bb_upperband" i) (cell_of df' "close" i)
           → signal df' "exit_long" i = true).
Proof.
  apply (exit_signal_iff (bank sqrt9) ∅ breakout21
           (spec_frame sqrt9 breakout21)).
  - by vm_compute.
  - by apply populate_indicators_spec.
Defined.

(** The statement of claim C3 fails: a series with decreasing timestamps
    and negative volumes is evaluated without an error. *)
Lemma disordered_series_accepted :
  valid_candles disordered = false
  ∧ (analyze (bank sqrt9) ∅ (frame_of_candles disordered)).2 = Ok ().
Proof. split; vm_compute; reflexivity. Qed.

Lemma evaluation_validates_nothing_witness :
  let d1 :=
    (populate_indicators MoreSamples.answering_bank ∅
       (frame_of_candles [])).1 in
  analyze MoreSamples.answering_bank ∅ (frame_of_candles [])
  = (d1, Err ValueError)
  ∧ (∀ c, c ∈ indicator_columns → is_Some (columns d1 !! c))
  ∧ ∃ df', analyze (bank sqrt9) ∅ (frame_of_candles disordered)
           = (df', Ok ()).
Proof.
  intros d1.
  destruct (evaluation_validates_nothing MoreSamples.answering_bank ∅ [])
    as [Hempty _].
  destruct (Hempty d1) as (Hcols & _ & Herr); [by vm_compute|].
  destruct (evaluation_validates_nothing (bank sqrt9) ∅ disordered)
    as [Hrun _].
  destruct (Hrun (spec_frame sqrt9 disordered)) as (_ & Hok & _);
    [by apply populate_indicators_spec|].
  split; [by apply Herr|]. split; [exact Hcols|by apply Hok].
Defined.

(** The statement of claim C4 fails: fifteen valid candles are fewer than
    the declared 30, and the RSI of row 14 is defined. *)
Lemma rsi_defined_before_startup :
  valid_candles rising15 = true
  ∧ length rising15 < startup_candle_count
  ∧ cell_of (analyze (bank sqrt9) ∅ (frame_of_candles rising15)).1 "rsi" 14
    = Some 100%Q.
Proof.
  split; [by vm_compute|]. split; [vm_compute; lia|]. by vm_compute.
Qed.

Lemma warmup_is_left_to_the_library_witness :
  length rising15 < startup_candle_count
  ∧ ∃ df' rsi m b ema10 ema50,
      analyze (bank sqrt9) ∅ (frame_of_candles rising15) = (df', Ok ())
      ∧ RSI (bank sqrt9) (column_of close rising15) RSI_timeperiod = Ok rsi
      ∧ MACD (bank sqrt9) (column_of close rising15)
             MACD_fastperiod MACD_slowperiod MACD_signalperiod = Ok m
      ∧ bollinger_bands (bank sqrt9)
          (typical (column_of high rising15) (column_of low rising15)
                   (column_of close rising15))
          20 2%Q = Ok b
      ∧ EMA (bank sqrt9) (column_of close rising15) 10 = Ok ema10
      ∧ EMA (bank sqrt9) (column_of close rising15) 50 = Ok ema50
      ∧ (∀ i, i < length rising15 →
              cell_of df' "rsi" i = at_row rsi i
              ∧ cell_of df' "macd" i = at_row (macd m) i
              ∧ cell_of df' "macdsignal" i = at_row (macdsignal m) i
              ∧ cell_of df' "macdhist" i = at_row (macdhist m) i
              ∧ cell_of df' "bb_lowerband" i = at_row (lower b) i
              ∧ cell_of df' "bb_middleband" i = at_row (mid b) i
              ∧ cell_of df' "bb_upperband" i = at_row (upper b) i
              ∧ cell_of df' "ema10" i = at_row ema10 i
              ∧ cell_of df' "ema50" i = at_row ema50 i)
      ∧ (∀ i, NaN ∈ [cell_of df' "rsi" i; cell_of df' "macd" i;
                     cell_of df' "macdsignal" i; cell_of df' "ema10" i] →
              signal df' "enter_long" i = false)
      ∧ (∀ i, cell_of df' "rsi" i = NaN →
              cell_of df' "bb_upperband" i = NaN →
              NaN ∈ [cell_of df' "macd" i; cell_of df' "macdsignal" i] →
              signal df' "exit_long" i = false).
Proof.
  split; [vm_compute; lia|].
  apply (warmup_is_left_to_the_library (bank sqrt9) ∅ rising15
           (spec_frame sqrt9 rising15)); [done|].
  by apply populate_indicators_spec.
Defined.

(** The statement of claim C6 fails: in row 1 of [warmup_frame] the MACD
    and its signal line are NaN, so the third alternative of the exit
    rule compares undefined values, and the exit signal is true. *)
Lemma exit_signal_with_undefined_macd :
  cell_of warmup_frame "macd" 1 = NaN
  ∧ cell_of warmup_frame "macdsignal" 1 = NaN
  ∧ populate_exit_trend ∅ warmup_frame
    = ((populate_exit_trend ∅ warmup_frame).1, Ok ())
  ∧ signal (populate_exit_trend ∅ warmup_frame).1 "exit_long" 1 = true.
Proof. repeat split; by vm_compute. Qed.

Lemma undefined_operands_and_signals_witness :
  ∃ d1 d2,
    populate_entry_trend ∅ warmup_frame = (d1, Ok ())
    ∧ populate_exit_trend ∅ warmup_frame = (d2, Ok ())
    ∧ signal d1 "enter_long" 1 = false
    ∧ signal d2 "exit_long" 1 = true.
Proof.
  destruct (undefined_operands_and_signals ∅ warmup_frame
              [Some 50%Q; Some 50%Q] [NaN; NaN] [NaN; NaN]
              [Some 10%Q; Some 12%Q] [Some 9%Q; Some 9%Q]
              [Some 5%Q; Some 5%Q] [Some 11%Q; Some 11%Q] 1)
    as (d1 & d2 & H1 & H2 & Hentry & _ & Hexit);
    [apply wf_warmup_frame|reflexivity..|simpl; lia|].
  exists d1, d2. split; [done|]. split; [done|]. split.
  - apply Hentry. vm_compute. do 2 constructor. constructor.
  - apply Hexit. exists 11%Q, 12%Q. by vm_compute.
Defined.

Lemma rsi_in_range_witness :
  at_row (rsi 14 (column_of close rising15)) 14 = Some 100%Q
  ∧ (0 <= 100 <= 100)%Q.
Proof.
  split; [by vm_compute|].
  apply (rsi_in_range (column_of close rising15)
           (rsi 14 (column_of close rising15)) 14 14 100%Q);
    by vm_compute.
Defined.

Lemma analyze_reproducible_witness :
  let df' := (analyze (bank sqrt9) ∅ (frame_of_candles rising15)).1 in
  analyze (bank sqrt9) {["pair" := "BTC/USDT"]} (frame_of_candles rising15)
  = (df', Ok ())
  ∧ analyze (bank sqrt9) {["pair" := "BTC/USDT"]} df' = (df', Ok ()).
Proof.
  apply (analyze_reproducible (bank sqrt9) ∅). by vm_compute.
Defined.

Lemma ema50_computed_but_unused_witness :
  let df := frame_of_candles rising15 in
  let df1 := (populate_indicators (bank sqrt9) ∅ df).1 in
  let df' := setitem df1 "ema50" (replicate 15 (Some 7%Q)) in
  (∃ close ema50,
      columns df !! "close" = Some close
      ∧ EMA (bank sqrt9) close 50 = Ok ema50
      ∧ columns df1 !! "ema50" = Some (reindex (nrows df) ema50))
  ∧ (populate_entry_trend ∅ df').2 = (populate_entry_trend ∅ df1).2
  ∧ columns (populate_entry_trend ∅ df').1 !! "enter_long"
    = columns (populate_entry_trend ∅ df1).1 !! "enter_long"
  ∧ (populate_exit_trend ∅ df').2 = (populate_exit_trend ∅ df1).2
  ∧ columns (populate_exit_trend ∅ df').1 !! "exit_long"
    = columns (populate_exit_trend ∅ df1).1 !! "exit_long".
Proof.
  intros df df1 df'.
  apply (ema50_computed_but_unused (bank sqrt9) ∅ df df1 df').
  - by vm_compute.
  - reflexivity.
  - intros c Hc. by apply columns_setitem_ne.
Defined.

Lemma rules_write_only_their_signal_witness :
  let df1 := (populate_entry_trend ∅ demo_frame).1 in
  let df2 := (populate_exit_trend ∅ demo_frame).1 in
  (nrows df1 = 2
   ∧ ∀ c, c ≠ "enter_long" → columns df1 !! c = columns demo_frame !! c)
  ∧ (nrows df2 = 2
     ∧ ∀ c, c ≠ "exit_long" → columns df2 !! c = columns demo_frame !! c)
  ∧ cell_of df1 "enter_long" 0 = NaN.
Proof.
  intros df1 df2.
  destruct (rules_write_only_their_signal ∅ demo_frame df1 df2
              (populate_entry_trend ∅ demo_frame).2
              (populate_exit_trend ∅ demo_frame).2)
    as [(N1 & O1 & R1) (N2 & O2 & _)]; [by vm_compute..|].
  split; [done|]. split; [done|].
  by rewrite (R1 [Some 25%Q; Some 35%Q] [Some 1%Q; Some 1%Q]
                [Some 0%Q; Some 0%Q] [Some 10%Q; Some 12%Q]
                [Some 9%Q; Some 9%Q] [Some 5%Q; Some 5%Q] 0).
Defined.

(** ** Two runs of the whole pipeline *)

(** The scenario of the spec: the RSI crosses 30 upwards at row 40 while
    the MACD is above its signal line and the close above the fast EMA;
    the entry signal is given at row 40 and not at row 39. *)
Example enter_at_rebound :
  let df := (analyze (bank sqrt9) ∅ (frame_of_candles rebound42)).1 in
  signal df "enter_long" 40 = true ∧ signal df "enter_long" 39 = false.
Proof. by vm_compute. Qed.

(** At row 20 of [breakout21] the close is above the upper band, the MACD
    is still undefined, and the exit signal is given. *)
Example exit_at_breakout :
  let df := (analyze (bank sqrt9) ∅ (frame_of_candles breakout21)).1 in
  cell_of df "macd" 20 = NaN ∧ signal df "exit_long" 20 = true.
Proof. by vm_compute. Qed.

(** * Further properties of the strategy *)

Ltac in_list :=
  repeat first [apply list_elem_of_here | apply list_elem_of_further].

(** ** The frame effect of [populate_indicators] *)

Lemma setitem_other (df : DataFrame) (c c' : string) (s : series) :
  c' ≠ c → columns (setitem df c s) !! c' = columns df !! c'.
Proof. intros H. by apply columns_setitem_ne. Qed.

Lemma not_indicator_column (c : string) :
  c ∉ indicator_columns →
  c ≠ "rsi" ∧ c ≠ "macd" ∧ c ≠ "macdsignal" ∧ c ≠ "macdhist"
  ∧ c ≠ "bb_lowerband" ∧ c ≠ "bb_middleband" ∧ c ≠ "bb_upperband"
  ∧ c ≠ "ema10" ∧ c ≠ "ema50".
Proof.
  unfold indicator_columns. intros H.
  repeat split; intros ->; apply H; in_list.
Qed.

Lemma with_rsi_other (df : DataFrame) (rsi : series) (c : string) :
  c ∉ indicator_columns →
  columns (with_rsi df rsi) !! c = columns df !! c.
Proof.
  intros (? & _)%not_indicator_column. unfold with_rsi.
  by rewrite setitem_other.
Qed.

Lemma with_macd_other (df : DataFrame) (m : MACDResult) (c : string) :
  c ∉ indicator_columns →
  columns (with_macd df m) !! c = columns df !! c.
Proof.
  intros (_ & ? & ? & ? & _)%not_indicator_column. unfold with_macd.
  by rewrite !setitem_other.
Qed.

Lemma with_bands_other (df : DataFrame) (b : Bands) (c : string) :
  c ∉ indicator_columns →
  columns (with_bands df b) !! c = columns df !! c.
Proof.
  intros (_ & _ & _ & _ & ? & ? & ? & _)%not_indicator_column.
  unfold with_bands. by rewrite !setitem_other.
Qed.

Lemma with_indicators_other (df : DataFrame) (rsi : series) (m : MACDResult)
    (b : Bands) (ema10 ema50 : series) (c : string) :
  c ∉ indicator_columns →
  columns (with_indicators df rsi m b ema10 ema50) !! c = columns df !! c.
Proof.
  intros Hc. pose proof (not_indicator_column c Hc)
    as (_ & _ & _ & _ & _ & _ & _ & ? & ?).
  unfold with_indicators. rewrite !setitem_other by done.
  by rewrite with_bands_other, with_macd_other, with_rsi_other.
Qed.

Lemma with_indicators_written (df : DataFrame) (rsi : series)
    (m : MACDResult) (b : Bands) (ema10 ema50 : series) (c : string) :
  c ∈ indicator_columns →
  ∃ s, columns (with_indicators df rsi m b ema10 ema50) !! c = Some s
       ∧ length s = nrows df.
Proof.
  unfold indicator_columns. intros Hc.
  repeat (apply elem_of_cons in Hc as [->|Hc];
          [eexists; split; [by lookup_columns|apply length_reindex]|]).
  by apply elem_of_nil in Hc.
Qed.

(** Property X1. Whatever the outcome of [populate_indicators], the frame
    keeps its number of rows and every column other than the nine
    indicator columns; when the call succeeds, each of the nine columns
    is there with one cell per row. *)
Theorem populate_indicators_frame (ta : IndicatorBank)
    (md : gmap string string) (df df' : DataFrame) (r : result unit) :
  populate_indicators ta md df = (df', r) →
  nrows df' = nrows df
  ∧ (∀ c, c ∉ indicator_columns → columns df' !! c = columns df !! c)
  ∧ (r = Ok () →
     ∀ c, c ∈ indicator_columns →
          ∃ s, columns df' !! c = Some s ∧ length s = nrows df).
Proof.
  rewrite populate_indicators_unfold.
  destruct (columns df !! "close") as [close|];
    [|intros [= <- <-]; done].
  destruct (RSI ta close _) as [rsi|]; [|intros [= <- <-]; done].
  destruct (MACD ta close _ _ _) as [m|].
  2:{ intros [= <- <-]. split; [done|]. split; [|done].
      intros c Hc. by apply with_rsi_other. }
  assert (∀ c, c ∉ indicator_columns →
               columns (with_macd (with_rsi df rsi) m) !! c
               = columns df !! c) as H2.
  { intros c Hc. by rewrite with_macd_other, with_rsi_other. }
  destruct (columns df !! "high") as [high|];
    [|intros [= <- <-]; done].
  destruct (columns df !! "low") as [low|];
    [|intros [= <- <-]; done].
  destruct (bollinger_bands ta _ _ _) as [b|];
    [|intros [= <- <-]; done].
  assert (∀ c, c ∉ indicator_columns →
               columns (with_bands (with_macd (with_rsi df rsi) m) b) !! c
               = columns df !! c) as H3.
  { intros c Hc. by rewrite with_bands_other, H2. }
  destruct (EMA ta close 10) as [ema10|];
    [|intros [= <- <-]; done].
  destruct (EMA ta close 50) as [ema50|].
  2:{ intros [= <- <-]. split; [done|]. split; [|done].
      intros c Hc.
      pose proof (not_indicator_column c Hc)
        as (_ & _ & _ & _ & _ & _ & _ & ? & _).
      rewrite setitem_other by done. by apply H3. }
  intros [= <- _]. split; [done|]. split.
  - intros c Hc.
    by apply (with_indicators_other df rsi m b ema10 ema50).
  - intros _ c Hc.
    by apply (with_indicators_written df rsi m b ema10 ema50).
Qed.

(** ** What [populate_indicators] reads *)

(** Property X2. [populate_indicators] reads the close, high and low
    columns only: on two frames with the same number of rows and the same
    three price columns it raises alike and, when it succeeds, writes the
    same nine indicator columns. *)
Theorem populate_indicators_reads_prices (ta : IndicatorBank)
    (md : gmap string string) (df1 df2 : DataFrame) :
  nrows df1 = nrows df2 →
  (∀ c, c ∈ price_columns → columns df1 !! c = columns df2 !! c) →
  (populate_indicators ta md df1).2 = (populate_indicators ta md df2).2
  ∧ ((populate_indicators ta md df1).2 = Ok () →
     ∀ c, c ∈ indicator_columns →
          columns (populate_indicators ta md df1).1 !! c
          = columns (populate_indicators ta md df2).1 !! c).
Proof.
  intros Hn Hp. rewrite !populate_indicators_unfold.
  rewrite <- (Hp "close"), <- (Hp "high"), <- (Hp "low")
    by (unfold price_columns; in_list).
  destruct (columns df1 !! "close") as [close|]; [|done].
  destruct (RSI ta close _) as [rsi|]; [|done].
  destruct (MACD ta close _ _ _) as [m|]; [|done].
  destruct (columns df1 !! "high") as [high|]; [|done].
  destruct (columns df1 !! "low") as [low|]; [|done].
  destruct (bollinger_bands ta _ _ _) as [b|]; [|done].
  destruct (EMA ta close 10) as [ema10|]; [|done].
  destruct (EMA ta close 50) as [ema50|]; [|done].
  cbv zeta. cbn [fst snd]. split; [done|]. intros _ c Hc.
  unfold indicator_columns in Hc.
  repeat (apply elem_of_cons in Hc as [->|Hc];
          [lookup_columns; by rewrite Hn|]).
  by apply elem_of_nil in Hc.
Qed.

(** ** Where [populate_indicators] stops *)

(** Property X3. [populate_indicators] is not atomic. Without a close
    column it raises and leaves the frame untouched; with a close column
    on which RSI and MACD succeed but without a high or a low column, it
    raises the KeyError of the first of the two that is missing after it
    has written [rsi], [macd], [macdsignal] and [macdhist], and with
    every other column as it was. *)
Theorem populate_indicators_not_atomic (ta : IndicatorBank)
    (md : gmap string string) (df : DataFrame) (close rsi : series)
    (m : MACDResult) :
  (columns df !! "close" = None →
   ∃ e, populate_indicators ta md df = (df, Err e))
  ∧ (columns df !! "close" = Some close →
     RSI ta close RSI_timeperiod = Ok rsi →
     MACD ta close MACD_fastperiod MACD_slowperiod MACD_signalperiod = Ok m →
     columns df !! "high" = None ∨ columns df !! "low" = None →
     ∃ df' c,
       populate_indicators ta md df = (df', Err (KeyError c))
       ∧ first_missing ["high"; "low"] df = Some c
       ∧ columns df' !! "rsi" = Some (reindex (nrows df) rsi)
       ∧ columns df' !! "macd" = Some (reindex (nrows df) (macd m))
       ∧ columns df' !! "macdsignal"
         = Some (reindex (nrows df) (macdsignal m))
       ∧ columns df' !! "macdhist" = Some (reindex (nrows df) (macdhist m))
       ∧ ∀ c', c' ∉ ["rsi"; "macd"; "macdsignal"; "macdhist"] →
               columns df' !! c' = columns df !! c').
Proof.
  split.
  - intros Hc. rewrite populate_indicators_unfold, Hc. eauto.
  - intros Hc Hrsi Hmacd Hmiss.
    rewrite populate_indicators_unfold, Hc, Hrsi, Hmacd. simpl.
    assert (∀ c', c' ∉ ["rsi"; "macd"; "macdsignal"; "macdhist"] →
                  columns (with_macd (with_rsi df rsi) m) !! c'
                  = columns df !! c') as Hother.
    { intros c' Hc'. unfold with_macd, with_rsi.
      rewrite !setitem_other; [done|intros ->; apply Hc'; in_list..]. }
    destruct (columns df !! "high") as [high|] eqn:Hh.
    + destruct Hmiss as [?|Hl]; [done|]. rewrite Hl.
      eexists _, "low". split; [done|]. split; [done|].
      repeat (split; [by lookup_columns|]). exact Hother.
    + eexists _, "high". split; [done|]. split; [done|].
      repeat (split; [by lookup_columns|]). exact Hother.
Qed.

(** ** When the rules raise *)

Lemma first_missing_Some (cs : list string) (df : DataFrame) (c : string) :
  first_missing cs df = Some c →
  columns df !! c = None
  ∧ ∃ before after,
      cs = before ++ c :: after
      ∧ Forall (λ c', is_Some (columns df !! c')) before.
Proof.
  induction cs as [|c0 cs IH]; simpl; [done|].
  destruct (columns df !! c0) as [s|] eqn:E.
  - intros H. destruct (IH H) as (Hc & before & after & -> & Hall).
    split; [done|]. exists (c0 :: before), after.
    split; [done|]. constructor; [by rewrite E|done].
  - intros [= <-]. split; [done|]. by exists [], cs.
Qed.

Lemma first_missing_None (cs : list string) (df : DataFrame) :
  first_missing cs df = None ↔ Forall (λ c, is_Some (columns df !! c)) cs.
Proof.
  induction cs as [|c0 cs IH]; simpl.
  - split; [constructor|done].
  - destruct (columns df !! c0) as [s|] eqn:E.
    + rewrite IH. split.
      * intros H. constructor; [by rewrite E|done].
      * by intros [_ H]%Forall_cons.
    + split; [done|]. intros [[s Hs] _]%Forall_cons. congruence.
Qed.

Lemma populate_entry_trend_missing (md : gmap string string)
    (df : DataFrame) (c : string) :
  first_missing entry_columns df = Some c →
  populate_entry_trend md df = (df, Err (KeyError c)).
Proof.
  unfold entry_columns, first_missing, populate_entry_trend.
  unfold mbind, frame_bind, col, getitem.
  repeat (destruct (columns df !! _); [|by intros [= <-]]).
  done.
Qed.

Lemma populate_exit_trend_missing (md : gmap string string)
    (df : DataFrame) (c : string) :
  first_missing exit_columns df = Some c →
  populate_exit_trend md df = (df, Err (KeyError c)).
Proof.
  unfold exit_columns, first_missing, populate_exit_trend.
  unfold mbind, frame_bind, col, getitem.
  repeat (destruct (columns df !! _); [|by intros [= <-]]).
  done.
Qed.

(** Property X4. A rule raises KeyError exactly for the first column, in
    the order of its subscripts, that the frame lacks, and then leaves the
    frame as it was. *)
Theorem rules_raise_first_missing_column (md : gmap string string)
    (df : DataFrame) (c : string) :
  (first_missing entry_columns df = Some c →
   populate_entry_trend md df = (df, Err (KeyError c)))
  ∧ (first_missing exit_columns df = Some c →
     populate_exit_trend md df = (df, Err (KeyError c)))
  ∧ ((∃ df', populate_entry_trend md df = (df', Err (KeyError c))) →
     first_missing entry_columns df = Some c)
  ∧ ((∃ df', populate_exit_trend md df = (df', Err (KeyError c))) →
     first_missing exit_columns df = Some c).
Proof.
  split; [apply populate_entry_trend_missing|].
  split; [apply populate_exit_trend_missing|].
  split.
  - intros [df' H].
    destruct (first_missing entry_columns df) as [c'|] eqn:E.
    + rewrite (populate_entry_trend_missing md df c' E) in H. congruence.
    + exfalso. revert E H.
      unfold entry_columns, first_missing, populate_entry_trend.
      unfold mbind, frame_bind, col, getitem.
      repeat (destruct (columns df !! _); [|done]).
      intros _. unfold loc_set, loc_setitem.
      destruct (columns df !! "enter_long"); [done|].
      by destruct (decide (nrows df = 0)).
  - intros [df' H].
    destruct (first_missing exit_columns df) as [c'|] eqn:E.
    + rewrite (populate_exit_trend_missing md df c' E) in H. congruence.
    + exfalso. revert E H.
      unfold exit_columns, first_missing, populate_exit_trend.
      unfold mbind, frame_bind, col, getitem.
      repeat (destruct (columns df !! _); [|done]).
      intros _. unfold loc_set, loc_setitem.
      destruct (columns df !! "exit_long"); [done|].
      by destruct (decide (nrows df = 0)).
Qed.

(** ** When the rules succeed *)

Lemma populate_entry_trend_present (md : gmap string string)
    (df : DataFrame) :
  first_missing entry_columns df = None →
  ∃ m, populate_entry_trend md df = loc_set m "enter_long" 1%Q df.
Proof.
  unfold entry_columns, first_missing, populate_entry_trend.
  unfold mbind, frame_bind, col, getitem.
  repeat (destruct (columns df !! _); [|done]). eauto.
Qed.

Lemma populate_exit_trend_present (md : gmap string string)
    (df : DataFrame) :
  first_missing exit_columns df = None →
  ∃ m, populate_exit_trend md df = loc_set m "exit_long" 1%Q df.
Proof.
  unfold exit_columns, first_missing, populate_exit_trend.
  unfold mbind, frame_bind, col, getitem.
  repeat (destruct (columns df !! _); [|done]). eauto.
Qed.

Lemma loc_set_outcome (m : mask) (c : string) (v : Q) (df : DataFrame) :
  (∃ df', loc_set m c v df = (df', Ok ()))
  ↔ (0 < nrows df ∨ is_Some (columns df !! c)).
Proof.
  unfold loc_set, loc_setitem.
  destruct (columns df !! c) as [s|] eqn:E.
  - split; [eauto|]. eauto.
  - destruct (decide (nrows df = 0)) as [Hz|Hz].
    + split; [by intros [df' ?]|]. intros [?|[s ?]]; [lia|done].
    + split; [intros _; left; lia|eauto].
Qed.

(** Property X5. A rule succeeds exactly when the frame holds every
    column it reads and either has a row or already has the signal
    column. *)
Theorem rules_succeed_iff (md : gmap string string) (df : DataFrame) :
  ((∃ df', populate_entry_trend md df = (df', Ok ()))
   ↔ first_missing entry_columns df = None
     ∧ (0 < nrows df ∨ is_Some (columns df !! "enter_long")))
  ∧ ((∃ df', populate_exit_trend md df = (df', Ok ()))
     ↔ first_missing exit_columns df = None
       ∧ (0 < nrows df ∨ is_Some (columns df !! "exit_long"))).
Proof.
  split.
  - destruct (first_missing entry_columns df) as [c|] eqn:E.
    + rewrite (populate_entry_trend_missing md df c E).
      split; [by intros [df' ?]|by intros [? _]].
    + destruct (populate_entry_trend_present md df E) as [m ->].
      rewrite loc_set_outcome. tauto.
  - destruct (first_missing exit_columns df) as [c|] eqn:E.
    + rewrite (populate_exit_trend_missing md df c E).
      split; [by intros [df' ?]|by intros [? _]].
    + destruct (populate_exit_trend_present md df E) as [m ->].
      rewrite loc_set_outcome. tauto.
Qed.

(** ** Signals are only ever set *)

Lemma signal_true_lt (df : DataFrame) (c : string) (i : nat) (s : series) :
  columns df !! c = Some s → signal df c i = true → i < length s.
Proof.
  unfold signal. intros ->. destruct (at_row s i) as [v|] eqn:E; [|done].
  intros _. by eapply at_row_Some_lt.
Qed.

Lemma loc_set_signal_kept (m : mask) (c : string) (df df' : DataFrame)
    (r : result unit) (i : nat) :
  loc_set m c 1%Q df = (df', r) →
  signal df c i = true → signal df' c i = true.
Proof.
  unfold loc_set, loc_setitem.
  destruct (columns df !! c) as [s|] eqn:E.
  - intros [= <- <-] Hsig.
    pose proof (signal_true_lt df c i s E Hsig) as Hi.
    rewrite signal_insert, at_row_mask_assign by done.
    destruct (mask_at m i); [done|].
    revert Hsig. unfold signal. by rewrite E.
  - unfold signal at 1. by rewrite E.
Qed.

(** Property X6. A rule never clears a signal: a row whose signal column
    is 1 before the call still has 1 after it, whatever the outcome. *)
Theorem signals_never_cleared (md : gmap string string)
    (df d1 d2 : DataFrame) (r1 r2 : result unit) (i : nat) :
  populate_entry_trend md df = (d1, r1) →
  populate_exit_trend md df = (d2, r2) →
  (signal df "enter_long" i = true → signal d1 "enter_long" i = true)
  ∧ (signal df "exit_long" i = true → signal d2 "exit_long" i = true).
Proof.
  intros HE HX. split.
  - destruct (populate_entry_trend_inv _ _ _ _ HE)
      as [[-> _]|(? & ? & ? & ? & ? & ? & _ & _ & _ & _ & _ & _ & Hset)];
      [done|].
    by apply (loc_set_signal_kept _ _ _ _ _ _ Hset).
  - destruct (populate_exit_trend_inv _ _ _ _ HX)
      as [[-> _]|(? & ? & ? & ? & ? & _ & _ & _ & _ & _ & Hset)];
      [done|].
    by apply (loc_set_signal_kept _ _ _ _ _ _ Hset).
Qed.

(** ** Applying a rule twice *)

Lemma populate_entry_trend_twice (md md' : gmap string string)
    (df d : DataFrame) :
  populate_entry_trend md df = (d, Ok ()) →
  populate_entry_trend md' d = (d, Ok ()).
Proof.
  intros HE.
  destruct (populate_entry_trend_inv _ _ _ _ HE)
    as [[_ [e ?]]|(rsi & macd & sg & close & ema10 & volume
                   & E1 & E2 & E3 & E4 & E5 & E6 & Eset)]; [done|].
  apply loc_set_ok in Eset as (_ & Eother & s & Es).
  rewrite (populate_entry_trend_run md' d rsi macd sg close ema10 volume)
    by (by rewrite Eother).
  by apply (loc_set_fixed _ _ _ _ s).
Qed.

Lemma populate_exit_trend_twice (md md' : gmap string string)
    (df d : DataFrame) :
  populate_exit_trend md df = (d, Ok ()) →
  populate_exit_trend md' d = (d, Ok ()).
Proof.
  intros HX.
  destruct (populate_exit_trend_inv _ _ _ _ HX)
    as [[_ [e ?]]|(rsi & close & bb & macd & sg
                   & X1 & X2 & X3 & X4 & X5 & Xset)]; [done|].
  apply loc_set_ok in Xset as (_ & Xother & s & Xs).
  rewrite (populate_exit_trend_run md' d rsi close bb macd sg)
    by (by rewrite Xother).
  by apply (loc_set_fixed _ _ _ _ s).
Qed.

(** Property X7. Each rule is idempotent: applied to the frame it has
    just returned, it succeeds and leaves that frame as it is. *)
Theorem rules_idempotent (md md' : gmap string string)
    (df d1 d2 : DataFrame) :
  populate_entry_trend md df = (d1, Ok ()) →
  populate_exit_trend md df = (d2, Ok ()) →
  populate_entry_trend md' d1 = (d1, Ok ())
  ∧ populate_exit_trend md' d2 = (d2, Ok ()).
Proof.
  intros HE HX. split.
  - by apply (populate_entry_trend_twice md md' df).
  - by apply (populate_exit_trend_twice md md' df).
Qed.

(** Property X8. [populate_indicators] is idempotent: applied to the
    frame it has just returned, it succeeds and leaves that frame as it
    is. *)
Theorem populate_indicators_idempotent (ta : IndicatorBank)
    (md md' : gmap string string) (df d : DataFrame) :
  populate_indicators ta md df = (d, Ok ()) →
  populate_indicators ta md' d = (d, Ok ()).
Proof.
  intros HP. pose proof HP as HP'.
  apply populate_indicators_inv in HP'
    as (close & high & low & rsi & m & b & e10 & e50
        & _ & _ & _ & _ & _ & _ & _ & _ & ->).
  by apply (populate_indicators_fixed ta md' df _ rsi m b e10 e50).
Qed.

(** ** The two rules commute *)

Lemma loc_set_commute (m1 m2 : mask) (c1 c2 : string) (v1 v2 : Q)
    (df d1 d : DataFrame) :
  c1 ≠ c2 →
  loc_set m1 c1 v1 df = (d1, Ok ()) →
  loc_set m2 c2 v2 d1 = (d, Ok ()) →
  ∃ d2, loc_set m2 c2 v2 df = (d2, Ok ())
        ∧ loc_set m1 c1 v1 d2 = (d, Ok ()).
Proof.
  intros Hne. unfold loc_set, loc_setitem.
  destruct (columns df !! c1) as [s1|] eqn:E1.
  - intros [= <-]. simpl. rewrite lookup_insert_ne by done.
    destruct (columns df !! c2) as [s2|] eqn:E2.
    + intros [= <-]. eexists. split; [done|]. simpl.
      rewrite lookup_insert_ne, E1 by done.
      by rewrite insert_insert_ne.
    + destruct (decide (nrows df = 0)); [done|].
      intros [= <-]. eexists. split; [done|]. simpl.
      rewrite lookup_insert_ne, E1 by done.
      by rewrite insert_insert_ne.
  - destruct (decide (nrows df = 0)); [done|].
    intros [= <-]. simpl. rewrite lookup_insert_ne by done.
    destruct (columns df !! c2) as [s2|] eqn:E2.
    + intros [= <-]. eexists. split; [done|]. simpl.
      rewrite lookup_insert_ne, E1 by done.
      destruct (decide (nrows df = 0)); [done|].
      by rewrite insert_insert_ne.
    + destruct (decide (nrows df = 0)); [done|].
      intros [= <-]. eexists. split; [done|]. simpl.
      rewrite lookup_insert_ne, E1 by done.
      destruct (decide (nrows df = 0)); [done|].
      by rewrite insert_insert_ne.
Qed.

Lemma frame_seq_inv {A B} (f : Frame A) (g : Frame B)
    (df d : DataFrame) (b : B) :
  (f ≫= λ _, g) df = (d, Ok b) →
  ∃ d1 a, f df = (d1, Ok a) ∧ g d1 = (d, Ok b).
Proof.
  unfold mbind, frame_bind. destruct (f df) as [d1 [a|e]]; [|done].
  intros H. by exists d1, a.
Qed.

Lemma frame_seq_ok {A B} (f : Frame A) (g : Frame B)
    (df d1 d : DataFrame) (a : A) (b : B) :
  f df = (d1, Ok a) → g d1 = (d, Ok b) → (f ≫= λ _, g) df = (d, Ok b).
Proof. intros Hf Hg. unfold mbind, frame_bind. by rewrite Hf. Qed.

(** The two rules in either order, in the model of the frame, which
    keeps the columns by name and not in an order. *)
Lemma rules_swap (md : gmap string string) (df d : DataFrame) :
  (populate_entry_trend md ≫= λ _, populate_exit_trend md) df = (d, Ok ())
  ↔ (populate_exit_trend md ≫= λ _, populate_entry_trend md) df
    = (d, Ok ()).
Proof.
  split.
  - intros (d1 & [] & HE & HX)%frame_seq_inv.
    destruct (populate_entry_trend_inv _ _ _ _ HE)
      as [[_ [e ?]]|(rsi & macd & sg & close & ema10 & volume
                     & E1 & E2 & E3 & E4 & E5 & E6 & Eset)]; [done|].
    destruct (populate_exit_trend_inv _ _ _ _ HX)
      as [[_ [e ?]]|(xrsi & xclose & xbb & xmacd & xsig
                     & X1 & X2 & X3 & X4 & X5 & Xset)]; [done|].
    destruct (loc_set_ok _ _ _ _ _ Eset) as (_ & Eother & _).
    rewrite Eother in X1, X2, X3, X4, X5 by done.
    destruct (loc_set_commute _ _ "enter_long" "exit_long" _ _ _ _ _
                ltac:(done) Eset Xset) as (d2 & Xset' & Eset').
    destruct (loc_set_ok _ _ _ _ _ Xset') as (_ & Xother & _).
    apply (frame_seq_ok _ _ df d2 d () ()).
    + by rewrite (populate_exit_trend_run md df _ _ _ _ _ X1 X2 X3 X4 X5).
    + rewrite (populate_entry_trend_run md d2 rsi macd sg close ema10
                 volume) by (by rewrite Xother).
      done.
  - intros (d2 & [] & HX & HE)%frame_seq_inv.
    destruct (populate_exit_trend_inv _ _ _ _ HX)
      as [[_ [e ?]]|(xrsi & xclose & xbb & xmacd & xsig
                     & X1 & X2 & X3 & X4 & X5 & Xset)]; [done|].
    destruct (populate_entry_trend_inv _ _ _ _ HE)
      as [[_ [e ?]]|(rsi & macd & sg & close & ema10 & volume
                     & E1 & E2 & E3 & E4 & E5 & E6 & Eset)]; [done|].
    destruct (loc_set_ok _ _ _ _ _ Xset) as (_ & Xother & _).
    rewrite Xother in E1, E2, E3, E4, E5, E6 by done.
    destruct (loc_set_commute _ _ "exit_long" "enter_long" _ _ _ _ _
                ltac:(done) Xset Eset) as (d1 & Eset' & Xset').
    destruct (loc_set_ok _ _ _ _ _ Eset') as (_ & Eother & _).
    apply (frame_seq_ok _ _ df d1 d () ()).
    + by rewrite (populate_entry_trend_run md df _ _ _ _ _ _
                    E1 E2 E3 E4 E5 E6).
    + rewrite (populate_exit_trend_run md d1 xrsi xclose xbb xmacd xsig)
        by (by rewrite Eother).
      done.
Qed.

(** Property X9. The two rules commute up to the order of the columns:
    entry then exit succeeds exactly when exit then entry does, and the
    two final frames have the same number of rows and the same cells
    under every column name. The order of the columns, which pandas
    keeps and in which a created [enter_long] and [exit_long] follow the
    order of the calls, is not compared. *)
Theorem rules_commute (md : gmap string string) (df d1 d2 : DataFrame) :
  ((∃ d, (populate_entry_trend md ≫= λ _, populate_exit_trend md) df
         = (d, Ok ()))
   ↔ (∃ d, (populate_exit_trend md ≫= λ _, populate_entry_trend md) df
           = (d, Ok ())))
  ∧ ((populate_entry_trend md ≫= λ _, populate_exit_trend md) df
     = (d1, Ok ()) →
     (populate_exit_trend md ≫= λ _, populate_entry_trend md) df
     = (d2, Ok ()) →
     nrows d1 = nrows d2 ∧ ∀ c, columns d1 !! c = columns d2 !! c).
Proof.
  split.
  - split; intros [d H]; exists d; by apply rules_swap.
  - intros H1 H2. apply rules_swap in H1. rewrite H1 in H2.
    by injection H2 as <-.
Qed.

(** ** Entries do not repeat *)

Lemma entry_condition_not_consecutive
    (rsi macd macdsignal close ema10 volume : series) (i : nat) :
  mask_at (entry_condition rsi macd macdsignal close ema10 volume) i = true →
  mask_at (entry_condition rsi macd macdsignal close ema10 volume) (S i)
  = false.
Proof.
  intros Hi. apply not_true_is_false. intros Hsi.
  apply entry_condition_at in Hi as ((j & -> & _ & Hgt) & _).
  apply entry_condition_at in Hsi as ((j' & [= <-] & Hle & _) & _).
  destruct Hgt as (x & y & [= <-] & Hy & Hlt).
  destruct Hle as (y' & x' & Hy' & [= <-] & Hle).
  rewrite Hy in Hy'. injection Hy' as <-.
  by apply (Qlt_not_le _ _ Hlt).
Qed.

Lemma signal_fresh_mask (df df' : DataFrame) (m : mask) (c : string)
    (i : nat) :
  columns df !! c = None →
  loc_set m c 1%Q df = (df', Ok ()) →
  signal df' c i = (mask_at m i && bool_decide (i < nrows df)).
Proof.
  intros Hc. unfold loc_set, loc_setitem. rewrite Hc.
  destruct (decide (nrows df = 0)); [done|]. intros [= <-].
  rewrite signal_insert.
  destruct (decide (i < nrows df)) as [Hi|Hi].
  - rewrite at_row_mask_assign by (by rewrite length_replicate).
    rewrite at_row_replicate_nan, bool_decide_true by done.
    by destruct (mask_at m i).
  - rewrite at_row_ge, bool_decide_false, andb_false_r; [done..|].
    rewrite length_mask_assign, length_replicate. lia.
Qed.

(** Property X10. In a signal column that [populate_entry_trend] creates,
    row 0 never carries an entry signal, and no two consecutive rows
    do. *)
Theorem entries_do_not_repeat (md : gmap string string)
    (df df' : DataFrame) (i : nat) :
  columns df !! "enter_long" = None →
  populate_entry_trend md df = (df', Ok ()) →
  signal df' "enter_long" 0 = false
  ∧ (signal df' "enter_long" i = true →
     signal df' "enter_long" (S i) = false).
Proof.
  intros Hnew HE.
  destruct (populate_entry_trend_inv _ _ _ _ HE)
    as [[_ [e ?]]|(rsi & macd & sg & close & ema10 & volume
                   & _ & _ & _ & _ & _ & _ & Eset)]; [done|].
  rewrite !(signal_fresh_mask df df' _ _ _ Hnew Eset). split.
  - apply andb_false_intro1, not_true_is_false.
    rewrite entry_condition_at. by intros ((j & ? & _) & _).
  - intros [Hi _]%andb_true_iff.
    by rewrite (entry_condition_not_consecutive _ _ _ _ _ _ _ Hi).
Qed.

(** ** What the rules read *)

(** Property X11. Each rule reads its own columns only: on two frames
    with the same number of rows that agree on the columns the rule
    subscripts and on its signal column, the rule raises alike and leaves
    the same signal column. *)
Theorem rules_read_their_columns_only (md : gmap string string)
    (df df' : DataFrame) :
  nrows df = nrows df' →
  ((∀ c, c ∈ "enter_long" :: entry_columns →
         columns df !! c = columns df' !! c) →
   (populate_entry_trend md df).2 = (populate_entry_trend md df').2
   ∧ columns (populate_entry_trend md df).1 !! "enter_long"
     = columns (populate_entry_trend md df').1 !! "enter_long")
  ∧ ((∀ c, c ∈ "exit_long" :: exit_columns →
           columns df !! c = columns df' !! c) →
     (populate_exit_trend md df).2 = (populate_exit_trend md df').2
     ∧ columns (populate_exit_trend md df).1 !! "exit_long"
       = columns (populate_exit_trend md df').1 !! "exit_long").
Proof.
  intros Hn. split; intros Hc.
  - unfold populate_entry_trend, mbind, frame_bind, col, getitem.
    rewrite <- !(Hc _) by (unfold entry_columns; in_list).
    destruct (columns df !! "rsi");
      [|by rewrite <- Hc by in_list].
    destruct (columns df !! "macd");
      [|by rewrite <- Hc by in_list].
    destruct (columns df !! "macdsignal");
      [|by rewrite <- Hc by in_list].
    destruct (columns df !! "close");
      [|by rewrite <- Hc by in_list].
    destruct (columns df !! "ema10");
      [|by rewrite <- Hc by in_list].
    destruct (columns df !! "volume");
      [|by rewrite <- Hc by in_list].
    apply loc_set_agree; [done|]. apply Hc. in_list.
  - unfold populate_exit_trend, mbind, frame_bind, col, getitem.
    rewrite <- !(Hc _) by (unfold exit_columns; in_list).
    destruct (columns df !! "rsi");
      [|by rewrite <- Hc by in_list].
    destruct (columns df !! "close");
      [|by rewrite <- Hc by in_list].
    destruct (columns df !! "bb_upperband");
      [|by rewrite <- Hc by in_list].
    destruct (columns df !! "macd");
      [|by rewrite <- Hc by in_list].
    destruct (columns df !! "macdsignal");
      [|by rewrite <- Hc by in_list].
    apply loc_set_agree; [done|]. apply Hc. in_list.
Qed.

(** ** The further properties at sample inputs *)

Import MoreSamples.

Lemma populate_indicators_frame_witness :
  let df := frame_of_candles rising15 in
  let df' := spec_frame sqrt9 rising15 in
  nrows df' = nrows df
  ∧ (∀ c, c ∉ indicator_columns → columns df' !! c = columns df !! c)
  ∧ (Ok () = Ok () →
     ∀ c, c ∈ indicator_columns →
          ∃ s, columns df' !! c = Some s ∧ length s = nrows df).
Proof.
  apply (populate_indicators_frame (bank sqrt9) ∅).
  by apply populate_indicators_spec.
Defined.

Lemma populate_indicators_reads_prices_witness :
  (populate_indicators (bank sqrt9) ∅ (frame_of_candles rising15)).2
  = (populate_indicators (bank sqrt9) ∅ zero_volume_frame).2
  ∧ ((populate_indicators (bank sqrt9) ∅ (frame_of_candles rising15)).2
     = Ok () →
     ∀ c, c ∈ indicator_columns →
          columns
            (populate_indicators (bank sqrt9) ∅ (frame_of_candles rising15)).1
            !! c
          = columns (populate_indicators (bank sqrt9) ∅ zero_volume_frame).1
              !! c).
Proof.
  apply populate_indicators_reads_prices; [reflexivity|].
  intros c Hc. unfold zero_volume_frame. rewrite columns_setitem_ne; [done|].
  intros <-. unfold price_columns in Hc.
  repeat (apply elem_of_cons in Hc as [Hc|Hc]; [discriminate|]).
  by apply elem_of_nil in Hc.
Defined.

Lemma populate_indicators_not_atomic_witness :
  ∃ df' c,
    populate_indicators (bank sqrt9) ∅ close_only_frame
    = (df', Err (KeyError c))
    ∧ first_missing ["high"; "low"] close_only_frame = Some c
    ∧ columns df' !! "rsi" = Some (reindex 1 (rsi 14 [Some 10%Q]))
    ∧ columns df' !! "macd"
      = Some (reindex 1 (macd (macd_of 12 26 9 [Some 10%Q])))
    ∧ columns df' !! "macdsignal"
      = Some (reindex 1 (macdsignal (macd_of 12 26 9 [Some 10%Q])))
    ∧ columns df' !! "macdhist"
      = Some (reindex 1 (macdhist (macd_of 12 26 9 [Some 10%Q])))
    ∧ ∀ c', c' ∉ ["rsi"; "macd"; "macdsignal"; "macdhist"] →
            columns df' !! c' = columns close_only_frame !! c'.
Proof.
  apply (populate_indicators_not_atomic (bank sqrt9) ∅ close_only_frame
           [Some 10%Q] (rsi 14 [Some 10%Q]) (macd_of 12 26 9 [Some 10%Q]));
    [reflexivity..|by left].
Defined.

Lemma rules_raise_first_missing_column_witness :
  populate_entry_trend ∅ (frame_of_candles rising15)
  = (frame_of_candles rising15, Err (KeyError "rsi"))
  ∧ populate_exit_trend ∅ (frame_of_candles rising15)
    = (frame_of_candles rising15, Err (KeyError "rsi")).
Proof.
  split.
  - by apply (rules_raise_first_missing_column ∅ (frame_of_candles rising15)
                "rsi").
  - by apply (rules_raise_first_missing_column ∅ (frame_of_candles rising15)
                "rsi").
Defined.

Lemma signals_never_cleared_witness :
  signal (populate_entry_trend ∅ signalled_frame).1 "enter_long" 0 = true
  ∧ signal (populate_exit_trend ∅ signalled_frame).1 "exit_long" 0 = true.
Proof.
  destruct (signals_never_cleared ∅ signalled_frame
              (populate_entry_trend ∅ signalled_frame).1
              (populate_exit_trend ∅ signalled_frame).1
              (populate_entry_trend ∅ signalled_frame).2
              (populate_exit_trend ∅ signalled_frame).2 0)
    as [H1 H2]; [by vm_compute..|].
  split; [apply H1|apply H2]; by vm_compute.
Defined.

Lemma rules_idempotent_witness :
  let d1 := (populate_entry_trend ∅ demo_frame).1 in
  let d2 := (populate_exit_trend ∅ demo_frame).1 in
  populate_entry_trend ∅ d1 = (d1, Ok ())
  ∧ populate_exit_trend ∅ d2 = (d2, Ok ()).
Proof.
  apply (rules_idempotent ∅ ∅ demo_frame); by vm_compute.
Defined.

Lemma populate_indicators_idempotent_witness :
  populate_indicators (bank sqrt9) ∅ (spec_frame sqrt9 rising15)
  = (spec_frame sqrt9 rising15, Ok ()).
Proof.
  apply (populate_indicators_idempotent (bank sqrt9) ∅ ∅
           (frame_of_candles rising15)).
  by apply populate_indicators_spec.
Defined.

Lemma rules_commute_witness :
  let d1 :=
    ((populate_entry_trend ∅ ≫= λ _, populate_exit_trend ∅) demo_frame).1 in
  let d2 :=
    ((populate_exit_trend ∅ ≫= λ _, populate_entry_trend ∅) demo_frame).1 in
  nrows d1 = nrows d2 ∧ ∀ c, columns d1 !! c = columns d2 !! c.
Proof.
  apply (rules_commute ∅ demo_frame); by vm_compute.
Defined.

Lemma entries_do_not_repeat_witness :
  let df' := (populate_entry_trend ∅ demo_frame).1 in
  signal df' "enter_long" 0 = false
  ∧ (signal df' "enter_long" 1 = true → signal df' "enter_long" 2 = false).
Proof.
  apply (entries_do_not_repeat ∅ demo_frame); by vm_compute.
Defined.

Lemma rules_read_their_columns_only_witness :
  let df' := setitem demo_frame "macdhist" [Some 3%Q; Some 4%Q] in
  (populate_entry_trend ∅ demo_frame).2 = (populate_entry_trend ∅ df').2
  ∧ (populate_exit_trend ∅ demo_frame).2 = (populate_exit_trend ∅ df').2.
Proof.
  intros df'.
  destruct (rules_read_their_columns_only ∅ demo_frame df' eq_refl)
    as [HE HX].
  split.
  - apply HE. intros c Hc. unfold df'. rewrite columns_setitem_ne; [done|].
    intros <-. unfold entry_columns in Hc.
    repeat (apply elem_of_cons in Hc as [Hc|Hc]; [discriminate|]).
    by apply elem_of_nil in Hc.
  - apply HX. intros c Hc. unfold df'. rewrite columns_setitem_ne; [done|].
    intros <-. unfold exit_columns in Hc.
    repeat (apply elem_of_cons in Hc as [Hc|Hc]; [discriminate|]).
    by apply elem_of_nil in Hc.
Defined.

(** * Properties of the mock exporters *)

Import Exporters MockCryptoExporter MockMetricsHandler.

(** ** Runs of the generator monad *)

Lemma gen_bind_inv {A B} (m : Gen A) (f : A → Gen B) k b k' :
  (m ≫= f) k = Returns (b, k') →
  ∃ a k1, m k = Returns (a, k1) ∧ f a k1 = Returns (b, k').
Proof.
  unfold mbind, gen_bind. destruct (m k) as [[a k1]|e]; [|discriminate].
  intros H. by exists a, k1.
Qed.

Lemma gen_ret_inv {A} (a b : A) k k' :
  mret (M := Gen) a k = Returns (b, k') → b = a ∧ k' = k.
Proof. unfold mret, gen_ret. by intros [= -> ->]. Qed.

Lemma lift_inv {A} (o : outcome A) k a k' :
  lift o k = Returns (a, k') → o = Returns a ∧ k' = k.
Proof. unfold lift. destruct o; [|discriminate]. by intros [= -> ->]. Qed.

Lemma random_random_inv tape k r k' :
  random_random tape k = Returns (r, k') →
  k' = S k ∧ (0 <= r)%Q ∧ (r < 1)%Q.
Proof.
  unfold random_random. intros [= <- <-]. split; [done|].
  destruct (Z.mod_pos_bound (tape k) (2 ^ 53) eq_refl) as [H0 H1].
  split.
  - apply Qle_shift_div_l; [reflexivity|].
    rewrite Qmult_0_l. by rewrite <- (Zle_Qle 0).
  - apply Qlt_shift_div_r; [reflexivity|].
    rewrite Qmult_1_l. by rewrite <- Zlt_Qlt.
Qed.

(** Decomposes a successful run of a computation of [Gen] into its
    draws and look-ups. *)
Ltac gen_inv H :=
  repeat match type of H with
  | (_ ≫= _) _ = Returns _ =>
      let a := fresh "r" in let k := fresh "k" in
      let H1 := fresh "Hdraw" in
      apply gen_bind_inv in H as (a & k & H1 & H);
      first [ apply random_random_inv in H1 as (-> & ? & ?)
            | apply lift_inv in H1 as (H1 & ->)
            | idtac ]
  | mret _ _ = Returns _ => apply gen_ret_inv in H as (-> & ->)
  end.

Lemma quote_inv tape sin self t symbol b k q k' :
  quote tape sin self t symbol b k = Returns (q, k') →
  ∃ r1 r2 r3 r4 r5 s i btc,
    ((0 <= r1 ∧ r1 < 1) ∧ (0 <= r2 ∧ r2 < 1) ∧ (0 <= r3 ∧ r3 < 1) ∧
     (0 <= r4 ∧ r4 < 1) ∧ (0 <= r5 ∧ r5 < 1))%Q ∧
    getitem (supply self) symbol = Returns s ∧
    index (keys (base_prices self)) symbol = Returns i ∧
    getitem (base_prices self) "BTC" = Returns btc ∧
    k' = k + 5 ∧
    let m := (1 + trend sin t + (r1 - 0.5) * 0.02)%Q in
    current_price q = (b * m)%Q ∧
    change_24h q = ((r2 - 0.5) * 10)%Q ∧
    change_1h q = ((r3 - 0.5) * 2)%Q ∧
    change_7d q = (trend sin t * 100 + (r4 - 0.5) * 5)%Q ∧
    market_cap q = (b * m * s)%Q ∧
    volume_24h q = (b * m * s * (0.05 + r5 * 0.15))%Q ∧
    rank q = i + 1 ∧
    (symbol = "BTC" → price_btc q = 1%Q) ∧
    (symbol ≠ "BTC" →
     ¬ (btc * m == 0)%Q ∧ price_btc q = (b * m / (btc * m))%Q).
Proof.
  unfold quote. intros H. gen_inv H.
  exists r, r0, r1, r2, r4, r3, r5, r6.
  cbn [current_price change_24h change_1h change_7d market_cap volume_24h
       rank price_btc].
  split; [done|]. do 3 (split; [done|]).
  destruct (decide (symbol ≠ "BTC")) as [Hne|Heq].
  - apply lift_inv in Hdraw2 as [Hd ->]. unfold divide in Hd.
    destruct (Qeq_bool _ _) eqn:Hz; [discriminate|].
    injection Hd as <-. apply Qeq_bool_neq in Hz.
    repeat (split; [done || lia|]). by split.
  - apply gen_ret_inv in Hdraw2 as [-> ->].
    repeat (split; [done || lia|]). done.
Qed.

Lemma price_usd_inv tape sin t b k p k' :
  price_usd tape sin t b k = Returns (p, k') →
  ∃ r, (0 <= r < 1)%Q ∧ k' = S k ∧
       p = (b * (1 + trend sin t + (r - 0.5) * 0.02))%Q.
Proof. unfold price_usd. intros H. gen_inv H. by exists r. Qed.

(** The trend is at most 5% either way when the sine is within
    [-1, 1]. *)
Lemma trend_bounded sin t :
  (∀ x, -1 <= sin x ∧ sin x <= 1)%Q →
  (-0.05 <= trend sin t ∧ trend sin t <= 0.05)%Q.
Proof.
  intros Hsin. unfold trend. destruct (Hsin (t / 3600)%Q). split; lra.
Qed.

(** Property X12. In exact arithmetic and with a sine within [-1, 1], a
    price drawn for a coin of positive base price lies within 6% of that
    base price: it is at least 0.94 times and less than 1.06 times the
    base price, in the first loop of [generate_metrics] as in the loop of
    coinmarketcap_price_usd. The two prices of one coin come from
    different draws and differ by less than 2% of the base price. *)
Theorem price_within_six_percent tape sin self t symbol b k q k' p k1 k1' :
  (∀ x, -1 <= sin x ∧ sin x <= 1)%Q →
  (0 < b)%Q →
  quote tape sin self t symbol b k = Returns (q, k') →
  price_usd tape sin t b k1 = Returns (p, k1') →
  (0.94 * b <= current_price q ∧ current_price q < 1.06 * b)%Q ∧
  (0.94 * b <= p ∧ p < 1.06 * b)%Q ∧
  (- (0.02 * b) < current_price q - p ∧ current_price q - p < 0.02 * b)%Q.
Proof.
  intros Hsin Hb Hq Hp.
  destruct (trend_bounded sin t Hsin) as [Ht0 Ht1].
  apply quote_inv in Hq
    as (r1 & r2 & r3 & r4 & r5 & s & i & btc & ([? ?] & _) & _ & _ & _ & _
        & Hq).
  cbv zeta in Hq. destruct Hq as (-> & _).
  apply price_usd_inv in Hp as (r & [? ?] & _ & ->).
  set (T := trend sin t) in *. clearbody T.
  repeat split; nra.
Qed.

(** Property X13. In exact arithmetic, the percentage changes of a coin
    are bounded: the 1h change lies in [-1, 1), the 24h change in
    [-5, 5), in the first loop as in the loop of
    coinmarketcap_percent_change_24h, and, with a sine within [-1, 1],
    the 7d change lies in [-7.5, 7.5]. The rounding of float64, which
    can move a value onto an excluded bound, is not modelled. *)
Theorem percent_changes_bounded tape sin self t symbol b k q k' :
  (∀ x, -1 <= sin x ∧ sin x <= 1)%Q →
  quote tape sin self t symbol b k = Returns (q, k') →
  (-1 <= change_1h q ∧ change_1h q < 1)%Q ∧
  (-5 <= change_24h q ∧ change_24h q < 5)%Q ∧
  (-7.5 <= change_7d q ∧ change_7d q <= 7.5)%Q ∧
  ∀ k1 c k1', percent_change_24h tape k1 = Returns (c, k1') →
              (-5 <= c ∧ c < 5)%Q.
Proof.
  intros Hsin Hq.
  assert (∀ k1 c k1', percent_change_24h tape k1 = Returns (c, k1') →
                      (-5 <= c ∧ c < 5)%Q) as Hc.
  { intros k1 c k1' Hc. unfold percent_change_24h in Hc. gen_inv Hc.
    split; lra. }
  destruct (trend_bounded sin t Hsin) as [Ht0 Ht1].
  apply quote_inv in Hq
    as (r1 & r2 & r3 & r4 & r5 & s & i & btc & Hu & _ & _ & _ & _ & Hq).
  destruct Hu as (_ & [? ?] & [? ?] & [? ?] & _).
  cbv zeta in Hq. destruct Hq as (_ & -> & -> & -> & _).
  set (T := trend sin t) in *. clearbody T.
  repeat split; try lra; by eapply Hc.
Qed.

(** Property X14. For a coin of positive base price and positive supply,
    the market cap of the first loop is the drawn price times the supply,
    and the 24h volume is at least 5% and less than 20% of that market
    cap. *)
Theorem volume_share_of_market_cap tape sin self t symbol b k q k' s :
  (∀ x, -1 <= sin x ∧ sin x <= 1)%Q →
  (0 < b)%Q →
  getitem (supply self) symbol = Returns s →
  (0 < s)%Q →
  quote tape sin self t symbol b k = Returns (q, k') →
  market_cap q = (current_price q * s)%Q ∧
  (0.05 * market_cap q <= volume_24h q)%Q ∧
  (volume_24h q < 0.2 * market_cap q)%Q.
Proof.
  intros Hsin Hb Hs Hpos Hq.
  destruct (trend_bounded sin t Hsin) as [Ht0 Ht1].
  apply quote_inv in Hq
    as (r1 & r2 & r3 & r4 & r5 & s' & i & btc & Hu & Hs' & _ & _ & _ & Hq).
  destruct Hu as ([? ?] & _ & _ & _ & [? ?]).
  rewrite Hs in Hs'. injection Hs' as <-.
  cbv zeta in Hq. destruct Hq as (-> & _ & _ & _ & -> & -> & _).
  split; [done|].
  set (T := trend sin t) in *. clearbody T.
  assert (0 < b * (1 + T + (r1 - 0.5) * 0.02) * s)%Q as HM.
  { apply Qmult_lt_0_compat; [|done].
    apply Qmult_lt_0_compat; [done|lra]. }
  set (M := (b * (1 + T + (r1 - 0.5) * 0.02) * s)%Q) in *. clearbody M.
  split; nra.
Qed.

(** Property X15. The price in BTC depends neither on the time nor on
    the draws: it is 1 for BTC and, for every other symbol, the quotient
    of the two base prices, since the price of the coin and the price of
    BTC are multiplied by the same factor. The equality is that of the
    rationals, [==]. *)
Theorem price_btc_is_ratio_of_base_prices
    tape sin self t symbol b k q k' btc :
  getitem (base_prices self) "BTC" = Returns btc →
  quote tape sin self t symbol b k = Returns (q, k') →
  (symbol = "BTC" → price_btc q = 1%Q) ∧
  (symbol ≠ "BTC" → ¬ (btc == 0)%Q ∧ (price_btc q == b / btc)%Q).
Proof.
  intros Hbtc Hq.
  apply quote_inv in Hq
    as (r1 & r2 & r3 & r4 & r5 & s & i & btc' & _ & _ & _ & Hbtc' & _ & Hq).
  rewrite Hbtc in Hbtc'. injection Hbtc' as <-.
  cbv zeta in Hq. destruct Hq as (_ & _ & _ & _ & _ & _ & _ & H1 & H2).
  split; [done|]. intros Hne. destruct (H2 Hne) as [Hnz ->].
  set (m := (1 + trend sin t + (r1 - 0.5) * 0.02)%Q) in *. clearbody m.
  assert (¬ (btc == 0)%Q) as Hb.
  { intros Hz. apply Hnz. rewrite Hz. ring. }
  assert (¬ (m == 0)%Q) as Hm.
  { intros Hz. apply Hnz. rewrite Hz. ring. }
  split; [done|]. by field.
Qed.

Lemma index_NoDup (l : list string) i x :
  NoDup l → l !! i = Some x → index l x = Returns i.
Proof.
  intros Hnd. revert i. induction Hnd as [|y l Hy Hnd IH]; intros i Hi.
  - by rewrite lookup_nil in Hi.
  - destruct i as [|i]; simpl in *.
    + injection Hi as ->. by rewrite decide_True.
    + rewrite decide_False.
      * by rewrite (IH i Hi).
      * intros ->. apply Hy. by eapply list_elem_of_lookup_2.
Qed.

(** Property X16. The rank of a coin is its position in the table of
    base prices plus one, whatever the prices and market caps drawn. *)
Theorem rank_is_position tape sin self t symbol b k q k' i :
  NoDup (keys (base_prices self)) →
  base_prices self !! i = Some (symbol, b) →
  quote tape sin self t symbol b k = Returns (q, k') →
  rank q = i + 1.
Proof.
  intros Hnd Hi Hq.
  apply quote_inv in Hq
    as (r1 & r2 & r3 & r4 & r5 & s & j & btc & _ & _ & Hj & _ & _ & Hq).
  cbv zeta in Hq. destruct Hq as (_ & _ & _ & _ & _ & _ & -> & _).
  rewrite (index_NoDup _ i symbol Hnd) in Hj.
  - by injection Hj as <-.
  - unfold keys. by rewrite list_lookup_fmap, Hi.
Qed.

Lemma gen_bind_returns {A B} (m : Gen A) (f : A → Gen B) k a k1 :
  m k = Returns (a, k1) → (m ≫= f) k = f a k1.
Proof. unfold mbind, gen_bind. by intros ->. Qed.

Lemma for_each_returns {A} (items : list A) body c :
  (∀ x, x ∈ items → ∀ k, ∃ ls, body x k = Returns (ls, k + c)) →
  ∀ k, ∃ ls, for_each items body k = Returns (ls, k + c * length items).
Proof.
  induction items as [|x items IH]; intros Hb k; simpl.
  - exists []. unfold mret, gen_ret. do 2 f_equal. lia.
  - destruct (Hb x (list_elem_of_here _ _) k) as [ls Hx].
    destruct (IH (λ y Hy, Hb y (list_elem_of_further _ _ _ Hy)) (k + c))
      as [rest Hr].
    exists (ls ++ rest).
    rewrite (gen_bind_returns _ _ _ _ _ Hx), (gen_bind_returns _ _ _ _ _ Hr).
    unfold mret, gen_ret. do 2 f_equal. lia.
Qed.

Lemma for_each_inv {A} (items : list A) body k ls k' :
  for_each items body k = Returns (ls, k') →
  ∀ x, x ∈ items → ∃ k1 ls1 k2, body x k1 = Returns (ls1, k2).
Proof.
  revert k ls k'. induction items as [|y items IH]; intros k ls k' H x Hx.
  - by apply elem_of_nil in Hx.
  - simpl in H. gen_inv H.
    apply elem_of_cons in Hx as [->|Hx]; [by eauto|]. by eapply IH.
Qed.

Lemma index_elem (l : list string) x :
  x ∈ l → ∃ i, index l x = Returns i.
Proof.
  induction l as [|y l IH]; intros Hx; [by apply elem_of_nil in Hx|].
  simpl. destruct (decide (y = x)) as [->|Hne]; [by eauto|].
  apply elem_of_cons in Hx as [->|Hx]; [done|].
  destruct (IH Hx) as [i ->]. by eauto.
Qed.

Lemma random_random_returns tape k :
  ∃ r, random_random tape k = Returns (r, S k) ∧ (0 <= r ∧ r < 1)%Q.
Proof.
  eexists. split; [reflexivity|].
  by destruct (random_random_inv tape k _ _ eq_refl) as (_ & ? & ?).
Qed.

Lemma lift_returns {A} (a : A) k : lift (Returns a) k = Returns (a, k).
Proof. done. Qed.

(** Steps over the next draw or look-up of a computation that is to
    return. *)
Ltac gen_draw :=
  let r := fresh "r" in let Hr := fresh "Hr" in let Hu := fresh "Hu" in
  match goal with
  | |- context [(random_random ?tape ≫= _) ?k] =>
      destruct (random_random_returns tape k) as (r & Hr & Hu);
      rewrite (gen_bind_returns _ _ _ _ _ Hr); clear Hr
  end.

Lemma price_usd_returns tape sin t b k :
  ∃ p, price_usd tape sin t b k = Returns (p, S k).
Proof. unfold price_usd. gen_draw. by eexists. Qed.

Lemma quote_returns tape sin self t symbol b k s btc :
  (∀ x, -1 <= sin x ∧ sin x <= 1)%Q →
  getitem (supply self) symbol = Returns s →
  symbol ∈ keys (base_prices self) →
  getitem (base_prices self) "BTC" = Returns btc →
  (0 < btc)%Q →
  ∃ q, quote tape sin self t symbol b k = Returns (q, k + 5).
Proof.
  intros Hsin Hs Hin Hbtc Hpos.
  destruct (trend_bounded sin t Hsin) as [Ht0 Ht1].
  destruct (index_elem _ _ Hin) as [i Hi].
  unfold quote. do 4 gen_draw. rewrite Hs, Hi, Hbtc.
  rewrite (gen_bind_returns _ _ _ _ _ (lift_returns _ _)).
  gen_draw.
  do 2 rewrite (gen_bind_returns _ _ _ _ _ (lift_returns _ _)).
  replace (k + 5) with (S (S (S (S (S k))))) by lia.
  destruct (decide (symbol ≠ "BTC")); [|by eexists].
  unfold divide. destruct (Qeq_bool _ _) eqn:Hz.
  - apply Qeq_bool_eq in Hz. destruct Hu as [? ?].
    set (T := trend sin t) in *. clearbody T. nra.
  - by eexists.
Qed.

Lemma coin_market_round_returns tape sin fmt self t symbol b k btc :
  (∀ x, -1 <= sin x ∧ sin x <= 1)%Q →
  (∀ x, x ∈ keys (base_prices self) →
        ∃ s, getitem (supply self) x = Returns s) →
  (symbol, b) ∈ base_prices self →
  getitem (base_prices self) "BTC" = Returns btc →
  (0 < btc)%Q →
  ∃ ls, coin_market_round tape sin fmt self t (symbol, b) k
        = Returns (ls, k + 5).
Proof.
  intros Hsin Hsup Hin Hbtc Hpos.
  assert (symbol ∈ keys (base_prices self)) as Hk.
  { unfold keys. apply list_elem_of_fmap. by exists (symbol, b). }
  destruct (Hsup _ Hk) as [s Hs].
  destruct (quote_returns tape sin self t symbol b k s btc) as [q Hq];
    [done..|].
  unfold coin_market_round.
  rewrite (gen_bind_returns _ _ _ _ _ Hq), Hs.
  rewrite (gen_bind_returns _ _ _ _ _ (lift_returns _ _)). by eexists.
Qed.

Lemma market_cap_usd_returns tape sin self t symbol b k s :
  getitem (supply self) symbol = Returns s →
  ∃ c, market_cap_usd tape sin self t symbol b k = Returns (c, S k).
Proof.
  intros Hs. unfold market_cap_usd.
  destruct (price_usd_returns tape sin t b k) as [p Hp].
  rewrite (gen_bind_returns _ _ _ _ _ Hp), Hs.
  rewrite (gen_bind_returns _ _ _ _ _ (lift_returns _ _)). by eexists.
Qed.

Lemma volume_24h_usd_returns tape sin self t symbol b k s :
  getitem (supply self) symbol = Returns s →
  ∃ v, volume_24h_usd tape sin self t symbol b k = Returns (v, S (S k)).
Proof.
  intros Hs. unfold volume_24h_usd.
  destruct (market_cap_usd_returns tape sin self t symbol b k s Hs)
    as [c Hc].
  rewrite (gen_bind_returns _ _ _ _ _ Hc). gen_draw. by eexists.
Qed.

(** Property X17. With a positive base price of BTC and a sine within
    [-1, 1], [generate_metrics] returns exactly when every symbol of the
    table of base prices has an entry in the table of supplies; it has
    then drawn ten random numbers for each coin. *)
Theorem generate_metrics_returns_iff tape sin fmt self t btc k :
  (∀ x, -1 <= sin x ∧ sin x <= 1)%Q →
  getitem (base_prices self) "BTC" = Returns btc →
  (0 < btc)%Q →
  (∃ text, generate_metrics tape sin fmt self t k
           = Returns (text, k + 10 * length (base_prices self)))
  ↔ (∀ symbol, symbol ∈ keys (base_prices self) →
               ∃ s, getitem (supply self) symbol = Returns s).
Proof.
  intros Hsin Hbtc Hpos. split.
  - intros [text H] symbol Hin. unfold generate_metrics in H.
    apply gen_bind_inv in H as (lines & k1 & Hloop & _).
    apply list_elem_of_fmap in Hin as ([symbol' b] & -> & Hin).
    destruct (for_each_inv _ _ _ _ _ Hloop _ Hin) as (k2 & ls & k3 & Hr).
    unfold coin_market_round in Hr.
    apply gen_bind_inv in Hr as (q & k4 & Hq & _).
    apply quote_inv in Hq
      as (_ & _ & _ & _ & _ & s & _ & _ & _ & Hs & _). by exists s.
  - intros Hsup. set (n := length (base_prices self)).
    assert (∀ symbol b, (symbol, b) ∈ base_prices self →
                        ∃ s, getitem (supply self) symbol = Returns s)
      as Hsup'.
    { intros symbol b Hin. apply Hsup. unfold keys.
      apply list_elem_of_fmap. by exists (symbol, b). }
    destruct (for_each_returns (base_prices self)
                (coin_market_round tape sin fmt self t) 5) with (k := k)
      as [l1 H1].
    { intros [symbol b] Hin k0.
      by eapply coin_market_round_returns. }
    destruct (for_each_returns (base_prices self)
                (λ '(symbol, base_price),
                   current_price ← price_usd tape sin t base_price;
                   mret [compat "coinmarketcap_price_usd" symbol
                           (fmt 6 current_price)]) 1)
      with (k := k + 5 * n) as [l2 H2].
    { intros [symbol b] Hin k0.
      destruct (price_usd_returns tape sin t b k0) as [p Hp].
      rewrite (gen_bind_returns _ _ _ _ _ Hp).
      replace (k0 + 1) with (S k0) by lia. by eexists. }
    destruct (for_each_returns (keys (base_prices self))
                (λ symbol,
                   change_24h ← percent_change_24h tape;
                   mret [compat "coinmarketcap_percent_change_24h" symbol
                           (fmt 2 change_24h)]) 1)
      with (k := k + 5 * n + 1 * n) as [l3 H3].
    { intros symbol Hin k0. unfold percent_change_24h.
      destruct (random_random_returns tape k0) as (r & Hr & _).
      rewrite (gen_bind_returns _ _ _ _ _
                 (gen_bind_returns _ _ _ _ _ Hr)).
      replace (k0 + 1) with (S k0) by lia. by eexists. }
    destruct (for_each_returns (base_prices self)
                (λ '(symbol, base_price),
                   market_cap ←
                     market_cap_usd tape sin self t symbol base_price;
                   mret [compat "coinmarketcap_market_cap_usd" symbol
                           (fmt 2 market_cap)]) 1)
      with (k := k + 5 * n + 1 * n + 1 * length (keys (base_prices self)))
      as [l4 H4].
    { intros [symbol b] Hin k0. destruct (Hsup' _ _ Hin) as [s Hs].
      destruct (market_cap_usd_returns tape sin self t symbol b k0 s Hs)
        as [c Hc].
      rewrite (gen_bind_returns _ _ _ _ _ Hc).
      replace (k0 + 1) with (S k0) by lia. by eexists. }
    destruct (for_each_returns (base_prices self)
                (λ '(symbol, base_price),
                   volume_24h ←
                     volume_24h_usd tape sin self t symbol base_price;
                   mret [compat "coinmarketcap_24h_volume_usd" symbol
                           (fmt 2 volume_24h)]) 2)
      with (k := k + 5 * n + 1 * n + 1 * length (keys (base_prices self))
                 + 1 * n)
      as [l5 H5].
    { intros [symbol b] Hin k0. destruct (Hsup' _ _ Hin) as [s Hs].
      destruct (volume_24h_usd_returns tape sin self t symbol b k0 s Hs)
        as [v Hv].
      rewrite (gen_bind_returns _ _ _ _ _ Hv).
      replace (k0 + 2) with (S (S k0)) by lia. by eexists. }
    unfold generate_metrics. cbv zeta.
    rewrite (gen_bind_returns _ _ _ _ _ H1).
    rewrite (gen_bind_returns _ _ _ _ _ H2).
    rewrite (gen_bind_returns _ _ _ _ _ H3).
    rewrite (gen_bind_returns _ _ _ _ _ H4).
    rewrite (gen_bind_returns _ _ _ _ _ H5).
    eexists. unfold mret, gen_ret. do 2 f_equal.
    unfold keys. rewrite length_fmap. fold n. lia.
Qed.

Lemma random_randint_returns tape a b k :
  (a ≤ b)%Z →
  ∃ z, random_randint tape a b k = Returns (z, S k) ∧ (a ≤ z ≤ b)%Z.
Proof.
  intros Hab. unfold random_randint. rewrite decide_False by lia.
  eexists. split; [reflexivity|].
  pose proof (Z.mod_pos_bound (tape k) (b - a + 1)). lia.
Qed.

Lemma random_uniform_returns tape a b k :
  (a <= b)%Q →
  ∃ u, random_uniform tape a b k = Returns (u, S k) ∧
       (a <= u)%Q ∧ (a < b → u < b)%Q.
Proof.
  intros Hab. unfold random_uniform.
  destruct (random_random_returns tape k) as (r & Hr & [? ?]).
  rewrite (gen_bind_returns _ _ _ _ _ Hr). eexists. split; [reflexivity|].
  split; [nra|]. intros ?. nra.
Qed.

Lemma random_choice_returns {A} tape (seq : list A) k :
  seq ≠ [] →
  ∃ x, random_choice tape seq k = Returns (x, S k) ∧ x ∈ seq.
Proof.
  intros Hne. unfold random_choice.
  assert (0 < Z.of_nat (length seq))%Z as Hlen.
  { destruct seq; [done|]. simpl. lia. }
  pose proof (Z.mod_pos_bound (tape k) _ Hlen) as Hm.
  destruct (lookup_lt_is_Some_2 seq
              (Z.to_nat (tape k mod Z.of_nat (length seq)))) as [x Hx];
    [lia|].
  rewrite Hx. exists x. split; [done|]. by eapply list_elem_of_lookup_2.
Qed.

(** Property X18. [generate_mock_metrics] returns for every state of the
    generator, after ten draws, the text of numbers in these ranges: the
    bot status is 0 or 1, the open trades are in 0..5, the balance in
    [800, 1300], the locks in 0..2, the cache total in 100..500 and the
    cache misses in 10..50, hence fewer than the total, the log count in
    1..10, the profit in [-50, 150], the trades won in 5..25 and the
    trades lost in 2..15. The two intervals are closed, as those of
    [random.uniform] are; the arithmetic is exact. *)
Theorem mock_metrics_in_range tape fmt k :
  ∃ m,
    generate_mock_metrics tape fmt k = Returns (metrics_text fmt m, k + 10) ∧
    (bot_status m = 0 ∨ bot_status m = 1)%Z ∧
    (0 ≤ open_trades m ≤ 5)%Z ∧
    (800 <= balance m ∧ balance m <= 1300)%Q ∧
    (0 ≤ locks m ≤ 2)%Z ∧
    (100 ≤ cache_total m ≤ 500)%Z ∧
    (10 ≤ cache_miss m ≤ 50)%Z ∧
    (cache_miss m < cache_total m)%Z ∧
    (1 ≤ log_rate m ≤ 10)%Z ∧
    (-50 <= profit_abs_total m ∧ profit_abs_total m <= 150)%Q ∧
    (5 ≤ trades_won m ≤ 25)%Z ∧
    (2 ≤ trades_lost m ≤ 15)%Z.
Proof.
  unfold generate_mock_metrics.
  destruct (random_choice_returns tape [0; 1]%Z k) as (s & Hs & Hin);
    [done|].
  destruct (random_randint_returns tape 0 5 (S k)) as (o & Ho & ?); [lia|].
  destruct (random_uniform_returns tape (-200) 300 (S (S k)))
    as (u & Hu & ? & Hlt); [lra|].
  destruct (random_randint_returns tape 0 2 (S (S (S k))))
    as (l & Hl & ?); [lia|].
  destruct (random_randint_returns tape 100 500 (S (S (S (S k)))))
    as (ct & Hct & ?); [lia|].
  destruct (random_randint_returns tape 10 50 (S (S (S (S (S k))))))
    as (cm & Hcm & ?); [lia|].
  destruct (random_randint_returns tape 1 10 (S (S (S (S (S (S k)))))))
    as (lr & Hlr & ?); [lia|].
  destruct (random_uniform_returns tape (-50) 150
              (S (S (S (S (S (S (S k))))))))
    as (p & Hp & ? & Hlt'); [lra|].
  destruct (random_randint_returns tape 5 25
              (S (S (S (S (S (S (S (S k)))))))))
    as (w & Hw & ?); [lia|].
  destruct (random_randint_returns tape 2 15
              (S (S (S (S (S (S (S (S (S k))))))))))
    as (lo & Hlo & ?); [lia|].
  exists (mkMetrics s o (1000 + u) l ct cm lr p w lo). split.
  - rewrite (gen_bind_returns _ _ k
               (mkMetrics s o (1000 + u) l ct cm lr p w lo) (k + 10));
      [done|].
    unfold draw_metrics.
    rewrite (gen_bind_returns _ _ _ _ _ Hs), (gen_bind_returns _ _ _ _ _ Ho),
      (gen_bind_returns _ _ _ _ _ Hu), (gen_bind_returns _ _ _ _ _ Hl),
      (gen_bind_returns _ _ _ _ _ Hct), (gen_bind_returns _ _ _ _ _ Hcm),
      (gen_bind_returns _ _ _ _ _ Hlr), (gen_bind_returns _ _ _ _ _ Hp),
      (gen_bind_returns _ _ _ _ _ Hw), (gen_bind_returns _ _ _ _ _ Hlo).
    unfold mret, gen_ret. do 2 f_equal. lia.
  - cbn [bot_status open_trades balance locks cache_total cache_miss
         log_rate profit_abs_total trades_won trades_lost].
    assert (s = 0 ∨ s = 1)%Z.
    { apply elem_of_cons in Hin as [->|Hin]; [by left|].
      apply elem_of_cons in Hin as [->|Hin]; [by right|].
      by apply elem_of_nil in Hin. }
    assert (u < 300)%Q by (apply Hlt; lra).
    assert (p < 150)%Q by (apply Hlt'; lra).
    repeat split; try lia; try lra; done.
Qed.

(** Property X19. In the loops of coinmarketcap_market_cap_usd and
    coinmarketcap_24h_volume_usd, for a coin of positive base price [b]
    and positive supply [s] and a sine within [-1, 1], the market cap lies
    in [0.94 b s, 1.06 b s) and the volume in [0.047 b s, 0.212 b s). *)
Theorem compat_market_cap_and_volume
    tape sin self t symbol b s k c k' k1 v k1' :
  (∀ x, -1 <= sin x ∧ sin x <= 1)%Q →
  (0 < b)%Q →
  getitem (supply self) symbol = Returns s →
  (0 < s)%Q →
  market_cap_usd tape sin self t symbol b k = Returns (c, k') →
  volume_24h_usd tape sin self t symbol b k1 = Returns (v, k1') →
  (0.94 * (b * s) <= c ∧ c < 1.06 * (b * s))%Q ∧
  (0.047 * (b * s) <= v ∧ v < 0.212 * (b * s))%Q.
Proof.
  intros Hsin Hb Hs Hpos Hc Hv.
  destruct (trend_bounded sin t Hsin) as [Ht0 Ht1].
  set (T := trend sin t) in *.
  assert (0 < b * s)%Q as HM by (by apply Qmult_lt_0_compat).
  assert (∀ k c k', market_cap_usd tape sin self t symbol b k
                    = Returns (c, k') →
                    ∃ m, (0.94 <= m ∧ m < 1.06)%Q ∧ c = (b * m * s)%Q)
    as Hcap.
  { clear Hc c k k'. intros k c k' Hc. unfold market_cap_usd in Hc.
    apply gen_bind_inv in Hc as (p & k2 & Hp & Hc).
    apply price_usd_inv in Hp as (r & [? ?] & -> & ->).
    gen_inv Hc. rewrite Hs in Hdraw. injection Hdraw as <-.
    exists (1 + T + (r - 0.5) * 0.02)%Q. fold T. split; [split; lra|done]. }
  split.
  - destruct (Hcap _ _ _ Hc) as (m & [? ?] & ->).
    clearbody T. split; nra.
  - unfold volume_24h_usd in Hv.
    apply gen_bind_inv in Hv as (c' & k2 & Hc' & Hv).
    destruct (Hcap _ _ _ Hc') as (m & [? ?] & ->). gen_inv Hv.
    clearbody T.
    assert (0.047 <= m * (0.05 + r * 0.15) ∧
            m * (0.05 + r * 0.15) < 0.212)%Q as [? ?] by (split; nra).
    split; nra.
Qed.

(** ** The properties of the exporters at sample inputs *)

Import ExporterSamples.

Lemma sample_sin_bounded x : (-1 <= sample_sin x ∧ sample_sin x <= 1)%Q.
Proof.
  unfold sample_sin. split.
  - apply Q.le_max_l.
  - apply Q.max_lub; [done|]. apply Q.le_min_l.
Qed.

Lemma price_within_six_percent_witness :
  ∃ q p,
    quote sample_tape sample_sin class_attributes sample_time "ETH" 1900 5
      = Returns (q, 10) ∧
    price_usd sample_tape sample_sin sample_time 1900 41 = Returns (p, 42) ∧
    (0.94 * 1900 <= current_price q ∧ current_price q < 1.06 * 1900)%Q ∧
    (0.94 * 1900 <= p ∧ p < 1.06 * 1900)%Q ∧
    (- (0.02 * 1900) < current_price q - p ∧
     current_price q - p < 0.02 * 1900)%Q.
Proof.
  eexists _, _. split; [vm_compute; reflexivity|].
  split; [vm_compute; reflexivity|].
  apply (price_within_six_percent sample_tape sample_sin class_attributes
           sample_time "ETH" 1900 5 _ 10 _ 41 42).
  - exact sample_sin_bounded.
  - reflexivity.
  - vm_compute; reflexivity.
  - vm_compute; reflexivity.
Defined.

Lemma percent_changes_bounded_witness :
  ∃ q,
    quote sample_tape sample_sin class_attributes sample_time "ETH" 1900 5
      = Returns (q, 10) ∧
    (-1 <= change_1h q ∧ change_1h q < 1)%Q ∧
    (-5 <= change_24h q ∧ change_24h q < 5)%Q ∧
    (-7.5 <= change_7d q ∧ change_7d q <= 7.5)%Q ∧
    ∀ k1 c k1', percent_change_24h sample_tape k1 = Returns (c, k1') →
                (-5 <= c ∧ c < 5)%Q.
Proof.
  eexists. split; [vm_compute; reflexivity|].
  apply (percent_changes_bounded sample_tape sample_sin class_attributes
           sample_time "ETH" 1900 5 _ 10).
  - exact sample_sin_bounded.
  - vm_compute; reflexivity.
Defined.

Lemma volume_share_of_market_cap_witness :
  ∃ q,
    quote sample_tape sample_sin class_attributes sample_time "ETH" 1900 5
      = Returns (q, 10) ∧
    market_cap q = (current_price q * 120000000)%Q ∧
    (0.05 * market_cap q <= volume_24h q)%Q ∧
    (volume_24h q < 0.2 * market_cap q)%Q.
Proof.
  eexists. split; [vm_compute; reflexivity|].
  apply (volume_share_of_market_cap sample_tape sample_sin class_attributes
           sample_time "ETH" 1900 5 _ 10 120000000).
  - exact sample_sin_bounded.
  - reflexivity.
  - reflexivity.
  - reflexivity.
  - vm_compute; reflexivity.
Defined.

Lemma price_btc_is_ratio_of_base_prices_witness :
  ∃ q,
    quote sample_tape sample_sin class_attributes sample_time "ETH" 1900 5
      = Returns (q, 10) ∧
    ("ETH" = "BTC" → price_btc q = 1%Q) ∧
    ("ETH" ≠ "BTC" → ¬ (30000 == 0)%Q ∧ (price_btc q == 1900 / 30000)%Q).
Proof.
  eexists. split; [vm_compute; reflexivity|].
  apply (price_btc_is_ratio_of_base_prices sample_tape sample_sin
           class_attributes sample_time "ETH" 1900 5 _ 10 30000).
  - reflexivity.
  - vm_compute; reflexivity.
Defined.

Lemma rank_is_position_witness :
  ∃ q,
    quote sample_tape sample_sin class_attributes sample_time "ETH" 1900 5
      = Returns (q, 10) ∧
    rank q = 1 + 1.
Proof.
  eexists. split; [vm_compute; reflexivity|].
  apply (rank_is_position sample_tape sample_sin class_attributes
           sample_time "ETH" 1900 5 _ 10 1).
  - apply (bool_decide_unpack _). by vm_compute.
  - reflexivity.
  - vm_compute; reflexivity.
Defined.

Lemma generate_metrics_returns_iff_witness :
  ∃ text,
    generate_metrics sample_tape sample_sin sample_format class_attributes
      sample_time 0
    = Returns (text, 0 + 10 * length (base_prices class_attributes)).
Proof.
  apply (generate_metrics_returns_iff sample_tape sample_sin sample_format
           class_attributes sample_time 30000 0).
  - exact sample_sin_bounded.
  - reflexivity.
  - reflexivity.
  - intros symbol Hin.
    repeat (apply elem_of_cons in Hin as [->|Hin]; [by eexists|]).
    by apply elem_of_nil in Hin.
Defined.

Lemma compat_market_cap_and_volume_witness :
  ∃ c v,
    market_cap_usd sample_tape sample_sin class_attributes sample_time
      "ETH" 1900 57 = Returns (c, 58) ∧
    volume_24h_usd sample_tape sample_sin class_attributes sample_time
      "ETH" 1900 66 = Returns (v, 68) ∧
    (0.94 * (1900 * 120000000) <= c ∧ c < 1.06 * (1900 * 120000000))%Q ∧
    (0.047 * (1900 * 120000000) <= v ∧ v < 0.212 * (1900 * 120000000))%Q.
Proof.
  eexists _, _. split; [vm_compute; reflexivity|].
  split; [vm_compute; reflexivity|].
  apply (compat_market_cap_and_volume sample_tape sample_sin
           class_attributes sample_time "ETH" 1900 120000000 57 _ 58 66 _ 68).
  - exact sample_sin_bounded.
  - reflexivity.
  - reflexivity.
  - reflexivity.
  - vm_compute; reflexivity.
  - vm_compute; reflexivity.
Defined.
